(** * Invoice generator: amount formatting and input normalisation

    A shallow embedding of the pure core of the invoice service
    ([service/invoice_generator.py], [service/lambda_function.py],
    [service/config.py]) together with the properties its specification
    states about it.

    Conventions of the embedding:
    - a Python [int] is a [Z];
    - a Python [float] is an IEEE 754 binary64 value, a [spec_float] of the
      standard library used at precision 53 and maximal exponent 1024;
    - a Python [str] is a [string] whose characters are code points below 256;
    - a Python exception is an explicit [Raise e] result. *)

From Stdlib Require Import ZArith List String Ascii Bool Lia.
From Stdlib Require Import Floats.SpecFloat.
Import ListNotations.

Set Warnings "-register-all".

Local Open Scope string_scope.
Local Open Scope Z_scope.

(** ** Exceptions and results *)

Inductive exn : Type :=
| IndexError
| ValueError
| TypeError
| AttributeError
| OverflowError
| ZeroDivisionError
| RecursionError
| KeyError
| JSONDecodeError
| UnboundLocalError.

Inductive result (A : Type) : Type :=
| Ok (a : A)
| Raise (e : exn).

Arguments Ok {A} a.
Arguments Raise {A} e.

Definition bind {A B : Type} (r : result A) (k : A -> result B) : result B :=
  match r with
  | Ok a => k a
  | Raise e => Raise e
  end.

Notation "x <- r ;; k" := (bind r (fun x => k))
  (at level 61, r at next level, right associativity).

(** ** Strings *)

Definition space : ascii := " "%char.

(** [sep.join(parts)] *)
Fixpoint join (sep : string) (parts : list string) : string :=
  match parts with
  | [] => EmptyString
  | [p] => p
  | p :: rest => p ++ sep ++ join sep rest
  end.

Definition nonempty (s : string) : bool :=
  match s with
  | EmptyString => false
  | String _ _ => true
  end.

(** [l[i]] on a Python list: a negative index counts from the end, an index
    outside the list raises [IndexError]. *)
Definition py_index {A : Type} (l : list A) (i : Z) : result A :=
  let len := Z.of_nat (List.length l) in
  let j := if i <? 0 then i + len else i in
  if (j <? 0) || (len <=? j) then Raise IndexError
  else match nth_error l (Z.to_nat j) with
       | Some x => Ok x
       | None => Raise IndexError
       end.

(** [l.append(x)] *)
Definition append {A : Type} (l : list A) (x : A) : list A := (l ++ [x])%list.

(** ** [number_to_words] *)

Module Words.

Definition ones : list string :=
  [EmptyString; "One"; "Two"; "Three"; "Four"; "Five"; "Six"; "Seven";
   "Eight"; "Nine"].

Definition tens : list string :=
  [EmptyString; EmptyString; "Twenty"; "Thirty"; "Forty"; "Fifty"; "Sixty";
   "Seventy"; "Eighty"; "Ninety"].

Definition teens : list string :=
  ["Ten"; "Eleven"; "Twelve"; "Thirteen"; "Fourteen"; "Fifteen";
   "Sixteen"; "Seventeen"; "Eighteen"; "Nineteen"].

(** The nested function [convert_below_thousand] calls itself on [n % 100].
    [depth] is the number of nested calls still allowed; running out of it is
    Python's [RecursionError].  [convert_below_thousand_depth] below shows that
    two levels are all the function ever uses. *)
Fixpoint convert_below_thousand_at (depth : nat) (n : Z) : result string :=
  match depth with
  | O => Raise RecursionError
  | S depth' =>
      if n =? 0 then Ok EmptyString
      else if n <? 10 then py_index ones n
      else if n <? 20 then py_index teens (n - 10)
      else if n <? 100 then
        t <- py_index tens (n / 10) ;;
        if negb (n mod 10 =? 0)
        then o <- py_index ones (n mod 10) ;; Ok (t ++ (" " ++ o))
        else Ok (t ++ EmptyString)
      else
        h <- py_index ones (n / 100) ;;
        let hundreds := h ++ " Hundred" in
        remainder <- convert_below_thousand_at depth' (n mod 100) ;;
        Ok (hundreds ++ (if nonempty remainder then " " ++ remainder
                         else EmptyString))
  end.

Definition call_depth : nat := 2.

Definition convert_below_thousand (n : Z) : result string :=
  convert_below_thousand_at call_depth n.

(** The Indian grouping of [num]: crore, lakh, thousand and what is left. *)
Definition groups (num : Z) : Z * Z * Z * Z :=
  let crore := num / 10000000 in
  let num := num mod 10000000 in
  let lakh := num / 100000 in
  let num := num mod 100000 in
  let thousand := num / 1000 in
  let num := num mod 1000 in
  (crore, lakh, thousand, num).

(** [if g: result.append(convert_below_thousand(g) + suffix)] *)
Definition append_group (g : Z) (suffix : string) (acc : list string)
  : result (list string) :=
  if g =? 0 then Ok acc
  else w <- convert_below_thousand g ;; Ok (append acc (w ++ suffix)).

Definition number_to_words (num : Z) : result string :=
  if num =? 0 then Ok "Zero"
  else
    let '(crore, lakh, thousand, num) := groups num in
    r <- append_group crore " Crore" [] ;;
    r <- append_group lakh " Lakh" r ;;
    r <- append_group thousand " Thousand" r ;;
    r <- (if num =? 0 then Ok r
          else w <- convert_below_thousand num ;; Ok (append r w)) ;;
    Ok (join " " r).

End Words.

(** ** Characters and string operations *)

Definition code (c : ascii) : Z := Z.of_N (N_of_ascii c).

Definition is_digit (c : ascii) : bool := (48 <=? code c) && (code c <=? 57).

Definition digit_char (d : Z) : ascii := ascii_of_N (Z.to_N (48 + d)).

(** [c.isspace()] on a code point below 256: what [str.strip()] removes. *)
Definition is_space (c : ascii) : bool :=
  let n := code c in
  ((9 <=? n) && (n <=? 13)) || ((28 <=? n) && (n <=? 32)) ||
  (n =? 133) || (n =? 160).

Fixpoint lstrip_by (p : ascii -> bool) (s : string) : string :=
  match s with
  | EmptyString => EmptyString
  | String c r => if p c then lstrip_by p r else s
  end.

Fixpoint rstrip_by (p : ascii -> bool) (s : string) : string :=
  match s with
  | EmptyString => EmptyString
  | String c r =>
      match rstrip_by p r with
      | EmptyString => if p c then EmptyString else String c EmptyString
      | r' => String c r'
      end
  end.

(** [s.strip()] *)
Definition strip (s : string) : string := rstrip_by is_space (lstrip_by is_space s).

(** [s.replace(c, '')] for a one-character [c] *)
Fixpoint remove_char (c : ascii) (s : string) : string :=
  match s with
  | EmptyString => EmptyString
  | String a r => if Ascii.eqb a c then remove_char c r else String a (remove_char c r)
  end.

(** [s.split(sep, 1)] for a one-character [sep]: one part when [sep] does not
    occur, otherwise the text before the first [sep] and the text after it. *)
Fixpoint split_once (sep : ascii) (s : string) : list string :=
  match s with
  | EmptyString => [EmptyString]
  | String a r =>
      if Ascii.eqb a sep then [EmptyString; r]
      else match split_once sep r with
           | [p] => [String a p]
           | p :: rest => String a p :: rest
           | [] => []
           end
  end.

(** [c in s] for a character [c] *)
Fixpoint has_char (c : ascii) (s : string) : bool :=
  match s with
  | EmptyString => false
  | String a r => Ascii.eqb a c || has_char c r
  end.

(** [t in s] for strings *)
Fixpoint is_substring (t s : string) : bool :=
  prefix t s ||
  match s with
  | EmptyString => false
  | String _ r => is_substring t r
  end.

(** Decimal digits of a natural number, most significant first; [fuel] bounds
    the number of digits. *)
Fixpoint digits_of (fuel : nat) (n : Z) (acc : string) : string :=
  match fuel with
  | O => acc
  | S fuel' =>
      let acc' := String (digit_char (n mod 10)) acc in
      if n <? 10 then acc' else digits_of fuel' (n / 10) acc'
  end.

(** The decimal numeral of [n]: what [str(n)] returns for an [int] within
    the interpreter's limit on conversions between [int] and [str]. *)
Definition string_of_Z (n : Z) : string :=
  let m := Z.abs n in
  let ds := digits_of (S (Z.to_nat (Z.log2 m))) m EmptyString in
  if n <? 0 then String "-" ds else ds.

(** The interpreter's limit on the digits of an [int] converted to or from a
    [str] ([sys.int_info.default_max_str_digits]). *)
Definition max_str_digits : Z := 4300.

(** [str(n)] for an [int]: [ValueError] when [n] has more than
    [max_str_digits] digits. *)
Definition str_int (n : Z) : result string :=
  if Z.abs n <? 10 ^ max_str_digits then Ok (string_of_Z n)
  else Raise ValueError.

(** ** Binary64 floats, as Python uses them *)

Module F.

Definition prec : Z := 53.
Definition emax : Z := 1024.

Definition float : Type := spec_float.

Definition zero : float := S754_zero false.
Definition one : float := S754_finite false 4503599627370496 (-52).

Definition add : float -> float -> float := SFadd prec emax.
Definition sub : float -> float -> float := SFsub prec emax.
Definition mul : float -> float -> float := SFmul prec emax.
Definition div : float -> float -> float := SFdiv prec emax.
Definition abs : float -> float := SFabs.
Definition eqb : float -> float -> bool := SFeqb.
Definition ltb : float -> float -> bool := SFltb.
Definition leb : float -> float -> bool := SFleb.

(** The float nearest to the integer [n] (ties to even); infinite when [n] is
    out of range. *)
Definition nearest_Z (n : Z) : float := binary_normalize prec emax n 0 false.

(** [float(n)] for an [int]: [OverflowError] when [n] is too large. *)
Definition of_Z (n : Z) : result float :=
  match nearest_Z n with
  | S754_infinity _ => Raise OverflowError
  | x => Ok x
  end.

(** The float nearest to [n / d] with sign [neg], for [n >= 0] and [d > 0]. *)
Definition nearest_ratio (neg : bool) (n : Z) (d : Z) : float :=
  match n with
  | Zpos p => div (S754_finite neg p 0) (S754_finite false (Z.to_pos d) 0)
  | _ => S754_zero neg
  end.

(** The float nearest to [m * 10 ^ e10] with sign [neg], for [m >= 0]: the
    value of a decimal numeral.  The two early exits only keep the
    computation small: beyond them the value is out of range (it rounds to
    infinity) or below half the least positive float (it rounds to zero). *)
Definition of_decimal (neg : bool) (m : Z) (e10 : Z) : float :=
  if m =? 0 then S754_zero neg
  else if 400 <? e10 then S754_infinity neg
  else if e10 + Z.log2 m / 3 + 1 <? -400 then S754_zero neg
  else if 0 <=? e10 then
    binary_normalize prec emax (if neg then - (m * 10 ^ e10) else m * 10 ^ e10)
      0 false
  else nearest_ratio neg m (10 ^ (- e10)).

(** [n / d] rounded to the nearest integer, ties to even ([n >= 0], [d > 0]). *)
Definition div_half_even (n d : Z) : Z :=
  let q := n / d in
  let r := n mod d in
  match 2 * r ?= d with
  | Lt => q
  | Gt => q + 1
  | Eq => if Z.even q then q else q + 1
  end.

(** The magnitude of a finite float times [scale], rounded to an integer with
    ties to even. *)
Definition scaled_half_even (m : positive) (e : Z) (scale : Z) : Z :=
  if 0 <=? e then Zpos m * 2 ^ e * scale
  else div_half_even (Zpos m * scale) (2 ^ (- e)).

(** [round(x)]: the nearest integer, ties to even. *)
Definition round_int (x : float) : result Z :=
  match x with
  | S754_nan => Raise ValueError
  | S754_infinity _ => Raise OverflowError
  | S754_zero _ => Ok 0
  | S754_finite s m e =>
      let k := scaled_half_even m e 1 in Ok (if s then - k else k)
  end.

(** [round(x, ndigits)] for [ndigits >= 0]: the decimal with [ndigits]
    fractional digits nearest to [x] (ties to even), read back as a float. *)
Definition round_digits (x : float) (ndigits : Z) : float :=
  match x with
  | S754_finite s m e =>
      nearest_ratio s (scaled_half_even m e (10 ^ ndigits)) (10 ^ ndigits)
  | _ => x
  end.

(** [int(x)]: truncation towards zero. *)
Definition trunc (x : float) : result Z :=
  match x with
  | S754_nan => Raise ValueError
  | S754_infinity _ => Raise OverflowError
  | S754_zero _ => Ok 0
  | S754_finite s m e =>
      let k := if 0 <=? e then Zpos m * 2 ^ e else Zpos m / 2 ^ (- e) in
      Ok (if s then - k else k)
  end.

(** C's [fmod(x, 1.0)]: the fractional part, with the sign of [x]. *)
Definition fmod_one (x : float) : float :=
  match x with
  | S754_nan | S754_infinity _ => S754_nan
  | S754_zero s => S754_zero s
  | S754_finite s m e =>
      if 0 <=? e then S754_zero s
      else
        let r := Zpos m mod 2 ^ (- e) in
        if r =? 0 then S754_zero s
        else binary_normalize prec emax (if s then - r else r) e false
  end.

Definition is_zero (x : float) : bool :=
  match x with
  | S754_zero _ => true
  | _ => false
  end.

(** [x % 1]: [fmod], then the result is given the sign of the divisor. *)
Definition mod_one (x : float) : float :=
  let m := fmod_one x in
  if is_zero m then zero
  else if ltb m zero then add m one
  else m.

(** [signed s x]: [x] is a number (not a NaN) whose sign bit is [s]. *)
Definition signed (s : bool) (x : float) : Prop :=
  match x with
  | S754_zero s' | S754_infinity s' | S754_finite s' _ _ => s' = s
  | S754_nan => False
  end.

Definition is_number (x : float) : Prop :=
  match x with
  | S754_nan => False
  | _ => True
  end.

Definition is_finite (x : float) : Prop :=
  match x with
  | S754_zero _ | S754_finite _ _ _ => True
  | _ => False
  end.

End F.

(** ** [float(s)] on a string

    The steps of CPython's [PyFloat_FromString]: characters outside ASCII are
    folded (white space to a blank, anything else to a character no numeral
    contains), underscores between digits are dropped, surrounding ASCII white
    space is stripped, and what is left must be, in full, an infinity, a NaN
    or a decimal numeral. *)

Module FloatParse.

Definition is_space_ascii (c : ascii) : bool :=
  let n := code c in ((9 <=? n) && (n <=? 13)) || (n =? 32).

Definition fold_char (c : ascii) : ascii :=
  let n := code c in
  if n <? 127 then c
  else if (n =? 133) || (n =? 160) then " "%char
  else "?"%char.

Fixpoint map_chars (f : ascii -> ascii) (s : string) : string :=
  match s with
  | EmptyString => EmptyString
  | String c r => String (f c) (map_chars f r)
  end.

(** Underscores are allowed only between two digits. *)
Fixpoint drop_underscores (prev : ascii) (s : string) : option string :=
  match s with
  | EmptyString => if Ascii.eqb prev "_" then None else Some EmptyString
  | String c r =>
      if Ascii.eqb c "_" then
        if is_digit prev then drop_underscores c r else None
      else if Ascii.eqb prev "_" && negb (is_digit c) then None
      else match drop_underscores c r with
           | Some r' => Some (String c r')
           | None => None
           end
  end.

Definition lower (c : ascii) : ascii :=
  let n := code c in
  if (65 <=? n) && (n <=? 90) then ascii_of_N (Z.to_N (n + 32)) else c.

Definition parse_sign (s : string) : bool * string :=
  match s with
  | String "-" r => (true, r)
  | String "+" r => (false, r)
  | _ => (false, s)
  end.

(** The longest prefix made of decimal digits, and the rest. *)
Fixpoint take_digits (s : string) : string * string :=
  match s with
  | String c r =>
      if is_digit c then let '(d, rest) := take_digits r in (String c d, rest)
      else (EmptyString, s)
  | EmptyString => (EmptyString, EmptyString)
  end.

Fixpoint Z_of_digits (acc : Z) (s : string) : Z :=
  match s with
  | EmptyString => acc
  | String c r => Z_of_digits (10 * acc + (code c - 48)) r
  end.

Definition parse_inf_nan (s : string) : option F.float :=
  let '(neg, r) := parse_sign s in
  let l := map_chars lower r in
  if String.eqb l "inf" || String.eqb l "infinity" then Some (S754_infinity neg)
  else if String.eqb l "nan" then Some S754_nan
  else None.

(** An exponent part is read only when digits follow the [e]. *)
Definition parse_exponent (s : string) : Z * string :=
  match s with
  | String c r =>
      if Ascii.eqb c "e" || Ascii.eqb c "E" then
        let '(neg, r1) := parse_sign r in
        let '(ds, r2) := take_digits r1 in
        match ds with
        | EmptyString => (0, s)
        | _ => ((if neg then - Z_of_digits 0 ds else Z_of_digits 0 ds), r2)
        end
      else (0, s)
  | EmptyString => (0, s)
  end.

Definition parse_decimal (s : string) : option F.float :=
  let '(neg, r) := parse_sign s in
  let '(ip, r) := take_digits r in
  let '(fp, r) :=
    match r with
    | String "." r' => take_digits r'
    | _ => (EmptyString, r)
    end in
  match (ip ++ fp)%string with
  | EmptyString => None
  | ds =>
      let '(ex, r) := parse_exponent r in
      match r with
      | EmptyString =>
          Some (F.of_decimal neg (Z_of_digits 0 ds) (ex - Z.of_nat (String.length fp)))
      | _ => None
      end
  end.

Definition float_of_string (s : string) : option F.float :=
  match drop_underscores "000" (map_chars fold_char s) with
  | None => None
  | Some s1 =>
      match rstrip_by is_space_ascii (lstrip_by is_space_ascii s1) with
      | EmptyString => None
      | s2 =>
          match parse_inf_nan s2 with
          | Some x => Some x
          | None => parse_decimal s2
          end
      end
  end.

End FloatParse.

(** [f"{x:.<digits>f}"]: fixed notation, correctly rounded (ties to even). *)
Fixpoint fraction_digits (digits : nat) (r : Z) : string :=
  match digits with
  | O => EmptyString
  | S d => fraction_digits d (r / 10) ++ String (digit_char (r mod 10)) EmptyString
  end.

Definition format_fixed (x : F.float) (digits : nat) : string :=
  let sign (s : bool) := if s then "-" else EmptyString in
  let scale := 10 ^ Z.of_nat digits in
  let render (s : bool) (k : Z) :=
    sign s ++ string_of_Z (k / scale) ++
    match digits with
    | O => EmptyString
    | _ => String "." (fraction_digits digits (k mod scale))
    end in
  match x with
  | S754_nan => "nan"
  | S754_infinity s => sign s ++ "inf"
  | S754_zero s => render s 0
  | S754_finite s m e => render s (F.scaled_half_even m e scale)
  end.

(** ** Values

    The values a decoded JSON document is made of.  A [dict] is a list of
    bindings with string keys, as the decoder builds it. *)

Inductive pyval : Type :=
| VNone
| VBool (b : bool)
| VInt (n : Z)
| VFloat (x : F.float)
| VStr (s : string)
| VList (l : list pyval)
| VDict (d : list (string * pyval)).

Definition dict : Type := list (string * pyval).

Fixpoint lookup (d : dict) (k : string) : option pyval :=
  match d with
  | [] => None
  | (k', v) :: rest => if String.eqb k' k then Some v else lookup rest k
  end.

(** [d.get(k, default)] *)
Definition get (d : dict) (k : string) (default : pyval) : pyval :=
  match lookup d k with
  | Some v => v
  | None => default
  end.

(** [k in d] for a dict *)
Definition has_key (d : dict) (k : string) : bool :=
  match lookup d k with
  | Some _ => true
  | None => false
  end.

(** [v.get(k, default)] on any value: only a dict has the method. *)
Definition py_get (v : pyval) (k : string) (default : pyval) : result pyval :=
  match v with
  | VDict d => Ok (get d k default)
  | _ => Raise AttributeError
  end.

(** [k in v] for a string [k] *)
Definition py_in (k : string) (v : pyval) : result bool :=
  match v with
  | VDict d => Ok (has_key d k)
  | VList l =>
      Ok (existsb (fun x => match x with VStr t => String.eqb k t | _ => false end) l)
  | VStr t => Ok (is_substring k t)
  | VNone | VBool _ | VInt _ | VFloat _ => Raise TypeError
  end.

(** Truth value of an object *)
Definition truthy (v : pyval) : bool :=
  match v with
  | VNone => false
  | VBool b => b
  | VInt n => negb (n =? 0)
  | VFloat x => negb (F.is_zero x)
  | VStr s => nonempty s
  | VList l => match l with [] => false | _ => true end
  | VDict d => match d with [] => false | _ => true end
  end.

(** [float(v)] *)
Definition py_float (v : pyval) : result F.float :=
  match v with
  | VStr s =>
      match FloatParse.float_of_string s with
      | Some x => Ok x
      | None => Raise ValueError
      end
  | VInt n => F.of_Z n
  | VBool b => Ok (if b then F.one else F.zero)
  | VFloat x => Ok x
  | VNone | VList _ | VDict _ => Raise TypeError
  end.

(** ** [config.py] *)

Module Config.

Definition COMPANY_CONFIG : pyval :=
  VDict
    [("name", VStr "GOPAL TENT HOUSE");
     ("address", VStr "26, TINASHED, GOLMURI MARKET, JAMSHEDPUR, JHARKHAND");
     ("mobile", VStr "7004829773, 9431330019");
     ("state", VStr "Jharkhand");
     ("gstin", VStr "20ABKPB5821F2ZA");
     ("state_code", VStr "20");
     ("bank_details",
       VDict [("ifsc", VStr "CBI0282406");
              ("account_number", VStr "1843803988");
              ("bank_name", VStr "Central Bank of India Golmuri, Jamshedpur")])].

Definition DEFAULT_CUSTOMER_GSTIN : pyval := VStr "20AAATC2716R2ZS".
Definition DEFAULT_CGST_RATE : pyval := VInt 9.
Definition DEFAULT_SGST_RATE : pyval := VInt 9.

End Config.

(** ** Utility functions of [invoice_generator.py] *)

(** [except (ValueError, AttributeError): return default] *)
Definition or_default (r : result F.float) (default : F.float) : result F.float :=
  match r with
  | Raise ValueError | Raise AttributeError => Ok default
  | _ => r
  end.

Definition safe_float (value : pyval) (default : F.float) : result F.float :=
  match value with
  | VNone | VStr EmptyString => Ok default
  | VStr s => or_default (py_float (VStr (remove_char "," s))) default
  | _ => or_default (py_float value) default
  end.

(** A number handed to [format_amount]: an [int] or a [float]. *)
Inductive number : Type :=
| Int (n : Z)
| Float (x : F.float).

(** [int(x)] of a float has at most 309 digits, below the limit of [str]. *)
Definition format_amount (amount : number) : result string :=
  match amount with
  | Int n =>
      if negb (n mod 1 =? 0) then x <- F.of_Z n ;; Ok (format_fixed x 2)
      else str_int n
  | Float x =>
      if negb (F.eqb (F.mod_one x) F.zero) then Ok (format_fixed x 2)
      else n <- F.trunc x ;; Ok (string_of_Z n)
  end.

(** ** The input normaliser ([InvoiceGenerator._transform_input]) *)

Record Customer : Type := {
  name : string;
  address : string;
  gstin : pyval
}.

Record Item : Type := {
  description : pyval;
  hsn_code : pyval;
  quantity : string;
  rate : string;
  amount : F.float
}.

Record TaxSummary : Type := {
  taxable_amount : F.float;
  cgst_rate : pyval;
  cgst_amount : F.float;
  sgst_rate : pyval;
  sgst_amount : F.float;
  igst_rate : pyval;
  round_off : pyval;
  invoice_total : pyval
}.

Record Invoice : Type := {
  company : pyval;
  invoice_number : pyval;
  invoice_date : pyval;
  customer : Customer;
  job_description : pyval;
  event_name : pyval;
  items : list Item;
  tax_summary : TaxSummary
}.

(** What the service takes from its environment: the [str()] of a value,
    the message of an exception, the JSON decoder, the base64 codec and the
    page layout engine that turns a normalised invoice into a PDF. *)
Record runtime : Type := {
  py_str : pyval -> string;
  exn_str : exn -> string;
  json_loads : string -> result pyval;
  b64decode_utf8 : string -> result string;
  b64encode : list Byte.byte -> string;
  build_pdf : Invoice -> result (list Byte.byte)
}.

Definition parse_customer_info (to_field : pyval) : result (string * string) :=
  match to_field with
  | VStr s =>
      let to_parts := split_once "," s in
      let customer_name :=
        match to_parts with
        | p0 :: _ => strip p0
        | [] => EmptyString
        end in
      let customer_address :=
        match to_parts with
        | _ :: p1 :: _ => strip p1
        | _ => s
        end in
      Ok (customer_name, customer_address)
  | _ => Raise AttributeError
  end.

Fixpoint chars_of (s : string) : list pyval :=
  match s with
  | EmptyString => []
  | String c r => VStr (String c EmptyString) :: chars_of r
  end.

(** The elements a [for] loop over [v] visits. *)
Definition py_iter (v : pyval) : result (list pyval) :=
  match v with
  | VList l => Ok l
  | VDict d => Ok (map (fun kv => VStr (fst kv)) d)
  | VStr s => Ok (chars_of s)
  | VNone | VBool _ | VInt _ | VFloat _ => Raise TypeError
  end.

Section Normaliser.

Variable rt : runtime.

Definition transform_item (item : pyval) : result Item :=
  d <- py_get item "name" (VStr EmptyString) ;;
  h <- py_get item "hsn" (VStr EmptyString) ;;
  q <- py_get item "qty" (VStr EmptyString) ;;
  r <- py_get item "rate" (VStr EmptyString) ;;
  a <- py_get item "amount" (VInt 0) ;;
  a <- safe_float a F.zero ;;
  Ok {| description := d; hsn_code := h; quantity := py_str rt q;
        rate := py_str rt r; amount := a |}.

Fixpoint transform_each (l : list pyval) (transformed : list Item)
  : result (list Item) :=
  match l with
  | [] => Ok transformed
  | item :: rest =>
      t <- transform_item item ;; transform_each rest (append transformed t)
  end.

Definition transform_items (items : pyval) : result (list Item) :=
  l <- py_iter items ;; transform_each l [].

(** [x / y] on floats *)
Definition truediv (x y : F.float) : result F.float :=
  if F.is_zero y then Raise ZeroDivisionError else Ok (F.div x y).

Definition hundred : F.float := F.nearest_Z 100.

Definition calculate_tax_rate (tax_amount taxable : F.float) (default_rate : pyval)
  : result pyval :=
  if F.ltb F.zero taxable && F.ltb F.zero tax_amount then
    q <- truediv tax_amount taxable ;;
    Ok (VFloat (F.round_digits (F.mul q hundred) 2))
  else Ok default_rate.

(** The literal [0.01] *)
Definition cent : F.float := F.of_decimal false 1 (-2).

(** [safe_float(invoice_data.get(key, '0'))] *)
Definition amount_field (invoice_data : pyval) (key : string) : result F.float :=
  v <- py_get invoice_data key (VStr "0") ;; safe_float v F.zero.

Definition transform_input (company_config : pyval) (invoice_data : pyval)
  : result Invoice :=
  to <- py_get invoice_data "to" (VStr EmptyString) ;;
  cust <- parse_customer_info to ;;
  let '(customer_name, customer_address) := cust in
  its <- py_get invoice_data "items" (VList []) ;;
  transformed_items <- transform_items its ;;
  taxable <- amount_field invoice_data "taxable_amount" ;;
  cgst_amount <- amount_field invoice_data "cgst" ;;
  sgst_amount <- amount_field invoice_data "sgst" ;;
  total_input <- amount_field invoice_data "total" ;;
  cgst_rate <- calculate_tax_rate cgst_amount taxable Config.DEFAULT_CGST_RATE ;;
  sgst_rate <- calculate_tax_rate sgst_amount taxable Config.DEFAULT_SGST_RATE ;;
  let actual_total := F.add (F.add taxable cgst_amount) sgst_amount in
  rounded_total <- F.round_int actual_total ;;
  rounded_as_float <- F.of_Z rounded_total ;;
  let round_off := F.abs (F.sub rounded_as_float actual_total) in
  let final_total :=
    if F.ltb F.zero total_input then VFloat total_input
    else VInt rounded_total in
  invoice_no <- py_get invoice_data "invoice_no" (VStr EmptyString) ;;
  invoice_date <- py_get invoice_data "invoice_date" (VStr EmptyString) ;;
  customer_gstin <-
    py_get invoice_data "customer_gstin" Config.DEFAULT_CUSTOMER_GSTIN ;;
  job <- py_get invoice_data "job_description" (VStr EmptyString) ;;
  event <- py_get invoice_data "event_name" (VStr EmptyString) ;;
  igst <- py_get invoice_data "igst_rate" (VStr EmptyString) ;;
  Ok {| company := company_config;
        invoice_number := invoice_no;
        invoice_date := invoice_date;
        customer := {| name := customer_name; address := customer_address;
                       gstin := customer_gstin |};
        job_description := job;
        event_name := event;
        items := transformed_items;
        tax_summary :=
          {| taxable_amount := taxable;
             cgst_rate := cgst_rate;
             cgst_amount := cgst_amount;
             sgst_rate := sgst_rate;
             sgst_amount := sgst_amount;
             igst_rate := igst;
             round_off :=
               if F.ltb cent (F.abs round_off)
               then VFloat (F.round_digits round_off 2)
               else VStr EmptyString;
             invoice_total := final_total |} |}.

(** [InvoiceGenerator().generate_invoice(invoice_data)]: normalise, then lay
    the pages out. *)
Definition generate_invoice (invoice_data : pyval) : result (list Byte.byte) :=
  transformed_data <- transform_input Config.COMPANY_CONFIG invoice_data ;;
  build_pdf rt transformed_data.

End Normaliser.

(** ** The Lambda handler ([lambda_function.py]) *)

Module Json.

Definition dquote : ascii := "034"%char.
Definition backslash : ascii := "092"%char.

Definition hex_digit (d : Z) : ascii :=
  if d <? 10 then digit_char d else ascii_of_N (Z.to_N (87 + d)).

(** One character of a JSON string, as [json.dumps] writes it with its
    default [ensure_ascii=True]. *)
Definition escape_char (c : ascii) : string :=
  let n := code c in
  if n =? 34 then String backslash (String dquote EmptyString)
  else if n =? 92 then String backslash (String backslash EmptyString)
  else if n =? 10 then String backslash "n"
  else if n =? 13 then String backslash "r"
  else if n =? 9 then String backslash "t"
  else if n =? 12 then String backslash "f"
  else if n =? 8 then String backslash "b"
  else if (32 <=? n) && (n <=? 126) then String c EmptyString
  else String backslash
         (String "u" (String "0" (String "0"
           (String (hex_digit (n / 16)) (String (hex_digit (n mod 16)) EmptyString))))).

Fixpoint escape (s : string) : string :=
  match s with
  | EmptyString => EmptyString
  | String c r => escape_char c ++ escape r
  end.

Definition quoted (s : string) : string :=
  String dquote (escape s ++ String dquote EmptyString).

(** [json.dumps(d)] for a dict [d] whose values are strings *)
Definition dumps (d : list (string * string)) : string :=
  "{" ++ join ", " (map (fun kv => quoted (fst kv) ++ ": " ++ quoted (snd kv)) d)
      ++ "}".

End Json.

Record response : Type := {
  statusCode : Z;
  headers : option (list (string * string));
  body : string;
  isBase64Encoded : option bool
}.

Definition required_fields : list string :=
  ["invoice_no"; "invoice_date"; "to"; "items"; "taxable_amount"; "total"].

(** [[field for field in fields if field not in invoice_data]] *)
Fixpoint fields_not_in (fields : list string) (invoice_data : pyval)
  : result (list string) :=
  match fields with
  | [] => Ok []
  | field :: rest =>
      present <- py_in field invoice_data ;;
      others <- fields_not_in rest invoice_data ;;
      Ok (if negb present then field :: others else others)
  end.

(** [v[k]] for a string [k] *)
Definition py_getitem (v : pyval) (k : string) : result pyval :=
  match v with
  | VDict d =>
      match lookup d k with
      | Some x => Ok x
      | None => Raise KeyError
      end
  | _ => Raise TypeError
  end.

Definition error_response (status : Z) (fields : list (string * string))
  : response :=
  {| statusCode := status; headers := None; body := Json.dumps fields;
     isBase64Encoded := None |}.

Definition missing_fields_message (missing_fields : list string) : string :=
  "Missing required fields: " ++ join ", " missing_fields.

Section Handler.

Variable rt : runtime.

(** The record the handler works on: the event's body, base64- and
    JSON-decoded when it is a string, or the event itself when it has no
    body. *)
Definition parse_event (event : pyval) : result pyval :=
  has_body <- py_in "body" event ;;
  if has_body then
    body <- py_getitem event "body" ;;
    flag <- py_get event "isBase64Encoded" (VBool false) ;;
    body <-
      match body with
      | VStr b =>
          if truthy flag then b' <- b64decode_utf8 rt b ;; Ok (VStr b')
          else Ok body
      | _ => Ok body
      end ;;
    match body with
    | VStr (String c r) => json_loads rt (String c r)
    | _ => Ok body
    end
  else Ok event.

(** Whether the [import base64] of the base64 branch ran.  That statement
    makes [base64] a local name of the whole handler, which is bound only
    once the branch has been taken: the body is a string and the event's
    [isBase64Encoded] is true. *)
Definition base64_bound (event : pyval) : bool :=
  match py_in "body" event, py_getitem event "body",
        py_get event "isBase64Encoded" (VBool false) with
  | Ok true, Ok (VStr _), Ok flag => truthy flag
  | _, _, _ => false
  end.

(** The body of the [try] block.  Its debug prints are left out: on an event
    that the JSON decoder produced they cannot fail.  [base64.b64encode]
    reads the handler's local name [base64]. *)
Definition handle (event : pyval) : result response :=
  invoice_data <- parse_event event ;;
  missing_fields <- fields_not_in required_fields invoice_data ;;
  match missing_fields with
  | _ :: _ =>
      Ok (error_response 400 [("error", missing_fields_message missing_fields)])
  | [] =>
      pdf_bytes <- generate_invoice rt invoice_data ;;
      pdf_base64 <-
        (if base64_bound event then Ok (b64encode rt pdf_bytes)
         else Raise UnboundLocalError) ;;
      invoice_number <- py_get invoice_data "invoice_no" (VStr "unknown") ;;
      let filename := "invoice_" ++ py_str rt invoice_number ++ ".pdf" in
      Ok {| statusCode := 200;
            headers := Some [("Content-Type", "application/pdf");
                             ("Content-Disposition",
                              "attachment; filename=" ++ filename)];
            body := pdf_base64;
            isBase64Encoded := Some true |}
  end.

Definition lambda_handler (event : pyval) : response :=
  match handle event with
  | Ok r => r
  | Raise JSONDecodeError =>
      error_response 400 [("error", "Invalid JSON format");
                          ("details", exn_str rt JSONDecodeError)]
  | Raise e =>
      error_response 500 [("error", "Internal server error");
                          ("details", exn_str rt e)]
  end.

End Handler.

(** A runtime for the worked examples: [str()] of the scalar values they
    use, decoders that reject their input and a layout engine that yields an
    empty document. *)
Definition example_runtime : runtime :=
  {| py_str := fun v =>
       match v with
       | VStr s => s
       | VInt n => string_of_Z n
       | VBool true => "True"
       | VBool false => "False"
       | _ => "None"
       end;
     exn_str := fun _ => "error";
     json_loads := fun _ => Raise JSONDecodeError;
     b64decode_utf8 := fun _ => Raise ValueError;
     b64encode := fun _ => EmptyString;
     build_pdf := fun _ => Ok [] |}.

(** The invoice of [test_decimal.py] and the one of [test_invoice.py]. *)
Definition decimal_invoice : pyval :=
  VDict
    [("invoice_no", VStr "TEST-DECIMAL-001");
     ("invoice_date", VStr "09-Dec-2025");
     ("to", VStr "The Director, CSIR - National Metallurgical Laboratory");
     ("job_description", VStr "Test Invoice with Decimals");
     ("items",
       VList [VDict [("name", VStr "Test Service Item");
                     ("hsn", VStr "997329");
                     ("qty", VInt 1);
                     ("rate", VStr "25401");
                     ("amount", VStr "25401")]]);
     ("taxable_amount", VStr "25401");
     ("cgst", VStr "2286.09");
     ("sgst", VStr "2286.09");
     ("total", VStr "29973.18")].

Definition basic_invoice (total : pyval) : pyval :=
  VDict
    [("invoice_no", VStr "134");
     ("invoice_date", VStr "05-Dec-2025");
     ("to", VStr "The Director, CSIR - National Metallurgical Laboratory, Jamshedpur - 831017");
     ("job_description", VStr "Platinum Jubilee");
     ("items",
       VList [VDict [("name", VStr "Stage Programme PA System");
                     ("hsn", VStr "997329");
                     ("qty", VInt 1);
                     ("rate", VStr "25400");
                     ("amount", VStr "25400")]]);
     ("taxable_amount", VStr "25400");
     ("cgst", VStr "2286");
     ("sgst", VStr "2286");
     ("total", total)].

(** What the claims about [format_amount] speak of: a float with a non-zero
    fractional part, and strings made of decimal digits. *)
Definition has_fraction (x : F.float) : bool :=
  match x with
  | S754_finite _ m e => (e <? 0) && negb (Zpos m mod 2 ^ (- e) =? 0)
  | _ => false
  end.

Fixpoint all_digits (s : string) : bool :=
  match s with
  | EmptyString => true
  | String c r => is_digit c && all_digits r
  end.

(** What rendering an amount means.  [integer_value x n]: the finite float
    [x] is exactly the integer [n]. *)
Definition integer_value (x : F.float) (n : Z) : Prop :=
  match x with
  | S754_zero _ => n = 0
  | S754_finite s m e =>
      (if s then - n else n) * 2 ^ Z.max 0 (- e) = Zpos m * 2 ^ Z.max 0 e
  | _ => False
  end.

(** [hundredths x k]: [k] is the integer nearest to [|x| * 100], the even one
    of the two when [|x| * 100] lies halfway between them.  For
    [|x| = m * 2 ^ e], [|x| * 100] is the fraction [n / d] below. *)
Definition hundredths (x : F.float) (k : Z) : Prop :=
  match x with
  | S754_zero _ => k = 0
  | S754_finite _ m e =>
      let n := 100 * Zpos m * 2 ^ Z.max 0 e in
      let d := 2 ^ Z.max 0 (- e) in
      Z.abs (2 * (n - k * d)) <= d /\
      (Z.abs (2 * (n - k * d)) = d -> Z.even k = true)
  | _ => False
  end.

(** A numeral without a redundant leading zero. *)
Definition no_leading_zero (s : string) : bool :=
  match s with
  | String c (String _ _) => negb (Ascii.eqb c "0")
  | _ => true
  end.

(** Spacing of a rendered phrase: [well_spaced s] holds when [s] is not
    empty, neither starts nor ends with a space and has no two spaces in a row.
    [prev] tells whether the previous character was a space (or the start). *)
Fixpoint spaced_from (prev : bool) (s : string) : bool :=
  match s with
  | EmptyString => negb prev
  | String c r =>
      if Ascii.eqb c space then (if prev then false else spaced_from true r)
      else spaced_from false r
  end.

Definition well_spaced (s : string) : bool := spaced_from true s.

(** The phrase for [k] is produced and well spaced. *)
Definition phrase_ok (k : nat) : bool :=
  match Words.convert_below_thousand (Z.of_nat k) with
  | Ok w => well_spaced w
  | Raise _ => false
  end.

(** ** A reference reader for amounts in words

    Not part of the service: it reads a phrase back to a number, so that the
    phrases of [number_to_words] can be shown to be unambiguous. *)

Module WordsRef.

Fixpoint index_of (w : string) (l : list string) (i : Z) : option Z :=
  match l with
  | [] => None
  | x :: rest => if String.eqb x w then Some i else index_of w rest (i + 1)
  end.

(** The value of a number word: a unit, a teen or a multiple of ten. *)
Definition word_value (w : string) : option Z :=
  match w with
  | EmptyString => None
  | _ =>
      match index_of w Words.ones 0 with
      | Some i => Some i
      | None =>
          match index_of w Words.teens 0 with
          | Some i => Some (10 + i)
          | None =>
              match index_of w Words.tens 0 with
              | Some i => Some (10 * i)
              | None => None
              end
          end
      end
  end.

(** The reader's state is the total of the groups closed so far and the
    value of the group being read. *)
Definition step (st : Z * Z) (w : string) : option (Z * Z) :=
  let '(total, cur) := st in
  if String.eqb w "Hundred" then Some (total, cur * 100)
  else if String.eqb w "Thousand" then Some (total + cur * 1000, 0)
  else if String.eqb w "Lakh" then Some (total + cur * 100000, 0)
  else if String.eqb w "Crore" then Some (total + cur * 10000000, 0)
  else match word_value w with
       | Some v => Some (total, cur + v)
       | None => None
       end.

(** The pieces of [s] between single spaces. *)
Fixpoint split_spaces (s : string) : list string :=
  match s with
  | EmptyString => [EmptyString]
  | String c r =>
      if Ascii.eqb c space then EmptyString :: split_spaces r
      else match split_spaces r with
           | h :: t => String c h :: t
           | [] => [String c EmptyString]
           end
  end.

Fixpoint read_words (ws : list string) (st : Z * Z) : option (Z * Z) :=
  match ws with
  | [] => Some st
  | w :: rest =>
      match step st w with
      | Some st' => read_words rest st'
      | None => None
      end
  end.

Definition read_from (st : Z * Z) (s : string) : option (Z * Z) :=
  read_words (split_spaces s) st.

Definition words_to_number (s : string) : option Z :=
  if String.eqb s "Zero" then Some 0
  else match read_from (0, 0) s with
       | Some (total, cur) => Some (total + cur)
       | None => None
       end.

(** The phrase for [k] is produced and reads back as the group value [k]. *)
Definition group_reads_back (k : nat) : bool :=
  match Words.convert_below_thousand (Z.of_nat k) with
  | Ok w =>
      match read_from (0, 0) w with
      | Some (t, c) => (t =? 0) && (c =? Z.of_nat k)
      | None => false
      end
  | Raise _ => false
  end.

(** Moving the running total by [a]. *)
Definition shift (a : Z) (r : option (Z * Z)) : option (Z * Z) :=
  match r with
  | Some (t, c) => Some (t + a, c)
  | None => None
  end.

(** What the pieces collected so far read as: nothing yet, or the total
    [T] with no group open. *)
Definition reads (acc : list string) (T : Z) : Prop :=
  match acc with
  | [] => T = 0
  | _ => read_from (0, 0) (join " " acc) = Some (T, 0)
  end.

End WordsRef.

(** [all_chars p s]: every character of [s] satisfies [p]. *)
Fixpoint all_chars (p : ascii -> bool) (s : string) : bool :=
  match s with
  | EmptyString => true
  | String c r => p c && all_chars p r
  end.

(** The characters of a plain decimal numeral: digits, a minus sign and a
    decimal point. *)
Definition numeral_char (c : ascii) : bool :=
  is_digit c || Ascii.eqb c "-" || Ascii.eqb c ".".

(** [head_ok p s]: [s] does not start with a character satisfying [p]. *)
Definition head_ok (p : ascii -> bool) (s : string) : Prop :=
  match s with
  | EmptyString => True
  | String c _ => p c = false
  end.

(** [in_range x]: the mantissa of [x] fits the precision and its exponent
    does not exceed the largest one, as for every float an operation
    returns. *)
Definition in_range (x : F.float) : Prop :=
  match x with
  | S754_finite _ m e => Z.pos (digits2_pos m) <= F.prec /\ e <= F.emax - F.prec
  | _ => True
  end.

(** ** The page sections: the texts handed to the layout engine

    [_build_items_table], the tax rows of [_build_footer] and
    [_build_amount_in_words] compute the texts of their cells and hand them
    to the layout library; the definitions below are those computations, on
    the record [_transform_input] builds. *)

Definition MAX_ITEMS_ROWS : Z := 12.

(** [range(a, b)] *)
Definition py_range (a b : Z) : list Z :=
  map (fun k => a + Z.of_nat k) (seq 0 (Z.to_nat (b - a))).

Section ItemsTable.

Variable rt : runtime.

Definition items_header : list pyval :=
  [VStr "<b>Sl. No.</b>"; VStr "<b>Description of Goods / Services</b>";
   VStr "<b>HSN Code</b>"; VStr "<b>Qty</b>"; VStr "<b>Rate</b>";
   VStr "<b>Amount (Rs.)</b>"].

(** The row of the item numbered [idx]; [quantity] and [rate] are strings
    already, which [str] returns as they are. *)
Definition item_row (idx : Z) (item : Item) : list pyval :=
  [VStr (string_of_Z idx); description item; hsn_code item;
   VStr (quantity item); VStr (rate item);
   VStr (py_str rt (VFloat (amount item)))].

(** [for idx, item in enumerate(items, idx)] *)
Fixpoint item_rows (idx : Z) (items : list Item) : list (list pyval) :=
  match items with
  | [] => []
  | item :: rest => item_row idx item :: item_rows (idx + 1) rest
  end.

Definition filler_row (i max_rows : Z) : list pyval :=
  if i =? max_rows - 1 then
    [VStr (string_of_Z i); VStr "Extra Item Total Amount"; VStr EmptyString;
     VStr EmptyString; VStr EmptyString; VStr EmptyString]
  else
    [VStr (string_of_Z i); VStr EmptyString; VStr EmptyString;
     VStr EmptyString; VStr EmptyString; VStr EmptyString].

(** [table_data] of [_build_items_table] *)
Definition items_table_data (items : list Item) : list (list pyval) :=
  let table_data := items_header :: item_rows 1 items in
  let current_rows := Z.of_nat (List.length table_data) in
  let max_rows := MAX_ITEMS_ROWS + 1 in
  (table_data ++ map (fun i => filler_row i max_rows) (py_range current_rows max_rows))%list.

End ItemsTable.

(** [v == ''] *)
Definition is_empty_str (v : pyval) : bool :=
  match v with
  | VStr EmptyString => true
  | _ => false
  end.

(** Truth value, [a % 1 != 0], [f"{a:.<digits>f}"] and [int(a)] of a number. *)
Definition number_truthy (a : number) : bool :=
  match a with
  | Int n => negb (n =? 0)
  | Float x => negb (F.is_zero x)
  end.

Definition number_fraction (a : number) : bool :=
  match a with
  | Int n => negb (n mod 1 =? 0)
  | Float x => negb (F.eqb (F.mod_one x) F.zero)
  end.

Definition number_fixed (a : number) (digits : nat) : result string :=
  match a with
  | Int n => x <- F.of_Z n ;; Ok (format_fixed x digits)
  | Float x => Ok (format_fixed x digits)
  end.

Definition number_int (a : number) : result Z :=
  match a with
  | Int n => Ok n
  | Float x => F.trunc x
  end.

(** [float(v) if v else 0] *)
Definition float_or_zero (v : pyval) : result number :=
  if truthy v then x <- py_float v ;; Ok (Float x) else Ok (Int 0).

(** [f"{a:.2f}" if a and a % 1 != 0 else (str(int(a)) if a else "")] *)
Definition amount_text (a : number) : result string :=
  if number_truthy a && number_fraction a then number_fixed a 2
  else if number_truthy a then n <- number_int a ;; Ok (string_of_Z n)
  else Ok EmptyString.

(** [f"{r:.0f}%" if r else ""] *)
Definition rate_text (r : number) : result string :=
  if number_truthy r then s <- number_fixed r 0 ;; Ok (s ++ "%")
  else Ok EmptyString.

(** [f'CGST ({display})' if display else 'CGST'] *)
Definition tax_label (name display : string) : string :=
  if nonempty display then name ++ " (" ++ display ++ ")" else name.

(** The round-off cell *)
Definition round_off_text (round_off_val : pyval) : result string :=
  if truthy round_off_val && negb (is_empty_str round_off_val) then
    x <- py_float round_off_val ;; Ok (format_fixed (F.abs x) 2)
  else Ok EmptyString.

Section Footer.

(** [int(s)] for a string [s], left to the interpreter. *)
Variable int_of_str : string -> result Z.

(** [int(v)] *)
Definition py_int (v : pyval) : result Z :=
  match v with
  | VInt n => Ok n
  | VBool b => Ok (if b then 1 else 0)
  | VFloat x => F.trunc x
  | VStr s => int_of_str s
  | VNone | VList _ | VDict _ => Raise TypeError
  end.

(** [tax_data] of [_build_footer]: the six rows of the tax summary, a label
    and a cell each.  The record [_transform_input] builds has no
    [igst_amount], so that [tax.get('igst_amount')] is [None]. *)
Definition footer_tax_data (tax : TaxSummary) : result (list (string * string)) :=
  let taxable := taxable_amount tax in
  cgst_rate <- float_or_zero (cgst_rate tax) ;;
  sgst_rate <- float_or_zero (sgst_rate tax) ;;
  let igst_rate_val := igst_rate tax in
  igst_rate <-
    (if truthy igst_rate_val && negb (is_empty_str igst_rate_val)
     then x <- py_float igst_rate_val ;; Ok (Float x) else Ok (Int 0)) ;;
  cgst_amt <- float_or_zero (VFloat (cgst_amount tax)) ;;
  sgst_amt <- float_or_zero (VFloat (sgst_amount tax)) ;;
  igst_amt <- float_or_zero VNone ;;
  cgst_amount <- amount_text cgst_amt ;;
  sgst_amount <- amount_text sgst_amt ;;
  igst_amount <- amount_text igst_amt ;;
  cgst_display <- rate_text cgst_rate ;;
  sgst_display <- rate_text sgst_rate ;;
  igst_display <- rate_text igst_rate ;;
  round_off_display <- round_off_text (round_off tax) ;;
  taxable_int <- F.trunc taxable ;;
  total <- py_int (invoice_total tax) ;;
  Ok [("TAXABLE AMOUNT", string_of_Z taxable_int);
      (tax_label "CGST" cgst_display, cgst_amount);
      (tax_label "SGST" sgst_display, sgst_amount);
      (tax_label "IGST" igst_display, igst_amount);
      ("Round off", round_off_display);
      ("Invoice Total", string_of_Z total)].

(** The text of the 'In Words' row of [_build_amount_in_words] *)
Definition amount_in_words (tax : TaxSummary) : result string :=
  n <- py_int (invoice_total tax) ;;
  words <- Words.number_to_words n ;;
  Ok (words ++ " only.").

End Footer.

(** A second runtime for the worked examples, whose decoders know one
    request: the base64 text of a JSON object with string values. *)
Definition encoded_fields : list (string * string) :=
  [("invoice_no", "134"); ("invoice_date", "05-Dec-2025");
   ("to", "ABC, 123 Street"); ("items", EmptyString);
   ("taxable_amount", "25400"); ("cgst", "2286"); ("sgst", "2286");
   ("total", "29972")].

Definition encoded_body : string :=
  "eyJpbnZvaWNlX25vIjogIjEzNCIsICJpbnZvaWNlX2RhdGUiOiAiMDUtRGVjLTIwMjUiLCAidG8iOiAiQUJDLCAxMjMgU3RyZWV0IiwgIml0ZW1zIjogIiIsICJ0YXhhYmxlX2Ftb3VudCI6ICIyNTQwMCIsICJjZ3N0IjogIjIyODYiLCAic2dzdCI6ICIyMjg2IiwgInRvdGFsIjogIjI5OTcyIn0=".

Definition decoding_runtime : runtime :=
  {| py_str := py_str example_runtime;
     exn_str := exn_str example_runtime;
     json_loads := fun s =>
       if String.eqb s (Json.dumps encoded_fields)
       then Ok (VDict (map (fun kv => (fst kv, VStr (snd kv))) encoded_fields))
       else Raise JSONDecodeError;
     b64decode_utf8 := fun s =>
       if String.eqb s encoded_body then Ok (Json.dumps encoded_fields)
       else Raise ValueError;
     b64encode := b64encode example_runtime;
     build_pdf := build_pdf example_runtime |}.

(* ===================================================================== *)
(** * Properties *)
(* ===================================================================== *)

Lemma bind_Ok_inv {A B : Type} (r : result A) (k : A -> result B) (b : B) :
  bind r k = Ok b -> exists a, r = Ok a /\ k a = Ok b.
Proof.
  destruct r as [a|e]; simpl; intros H.
  - exists a. split; [reflexivity | exact H].
  - discriminate H.
Qed.

(** ** Number to words *)

Module WordsFacts.
Import Words.

Lemma groups_bounds (n : Z) :
  1 <= n <= 99999999 ->
  let '(crore, lakh, thousand, rest) := groups n in
  0 <= crore <= 9 /\ 0 <= lakh <= 99 /\ 0 <= thousand <= 99 /\
  0 <= rest <= 999.
Proof.
  intros Hn. unfold groups.
  pose proof (Z.mod_pos_bound n 10000000 ltac:(lia)) as H1.
  pose proof (Z.mod_pos_bound (n mod 10000000) 100000 ltac:(lia)) as H2.
  pose proof (Z.mod_pos_bound ((n mod 10000000) mod 100000) 1000 ltac:(lia))
    as H3.
  repeat split; try lia.
  - apply Z.div_pos; lia.
  - apply Z.lt_succ_r. apply Z.div_lt_upper_bound; lia.
  - apply Z.div_pos; lia.
  - apply Z.lt_succ_r. apply Z.div_lt_upper_bound; lia.
  - apply Z.div_pos; lia.
  - apply Z.lt_succ_r. apply Z.div_lt_upper_bound; lia.
Qed.

(** The groups are the digits of [num] in the mixed radix 1000, 100, 100:
    weighted by their magnitudes they add up to [num]. *)
Lemma groups_sum (num : Z) :
  let '(crore, lakh, thousand, rest) := groups num in
  crore * 10000000 + lakh * 100000 + thousand * 1000 + rest = num.
Proof.
  unfold groups.
  pose proof (Z.div_mod num 10000000 ltac:(lia)) as H1.
  pose proof (Z.div_mod (num mod 10000000) 100000 ltac:(lia)) as H2.
  pose proof (Z.div_mod ((num mod 10000000) mod 100000) 1000 ltac:(lia)) as H3.
  lia.
Qed.

(** C1: for every n in [1, 99999999] the crore, lakh, thousand and ones
    groups that number_to_words derives from n add back up to n. *)
Theorem groups_reconstruct (n : Z) :
  1 <= n <= 99999999 ->
  let '(crore, lakh, thousand, ones_group) := groups n in
  crore * 10000000 + lakh * 100000 + thousand * 1000 + ones_group = n.
Proof.
  intros _. exact (groups_sum n).
Qed.

Lemma groups_reconstruct_witness :
  1 <= 29972 <= 99999999 /\
  (let '(crore, lakh, thousand, ones_group) := groups 29972 in
   crore * 10000000 + lakh * 100000 + thousand * 1000 + ones_group = 29972).
Proof.
  split; [lia | apply (groups_reconstruct 29972); lia].
Defined.

(** C2: the four fixed vectors of the specification. *)
Theorem number_to_words_vectors :
  number_to_words 0 = Ok "Zero" /\
  number_to_words 29972 = Ok "Twenty Nine Thousand Nine Hundred Seventy Two" /\
  number_to_words 1000000 = Ok "Ten Lakh" /\
  number_to_words 10000000 = Ok "One Crore".
Proof.
  repeat split; vm_compute; reflexivity.
Qed.

(** *** Spacing *)

Lemma spaced_from_app (w t : string) (b : bool) :
  spaced_from b w = true -> spaced_from true t = true ->
  spaced_from b (w ++ String space t) = true.
Proof.
  revert b. induction w as [|c w IH]; intros b Hw Ht; simpl in *.
  - destruct b; [discriminate Hw | exact Ht].
  - destruct (Ascii.eqb c space).
    + destruct b; [discriminate Hw | apply IH; assumption].
    + apply IH; assumption.
Qed.

Lemma well_spaced_join (r : list string) :
  r <> [] -> Forall (fun w => well_spaced w = true) r ->
  well_spaced (join " " r) = true.
Proof.
  induction r as [|p r IH]; intros Hne Hall; [congruence|].
  inversion Hall as [|? ? Hp Hr]; subst.
  destruct r as [|q r]; [exact Hp|].
  change (join " " (p :: q :: r)) with (p ++ String space (join " " (q :: r))).
  apply spaced_from_app; [exact Hp|].
  apply IH; [discriminate | exact Hr].
Qed.

Lemma spaced_from_no_trailing (t s : string) (b : bool) :
  spaced_from b s = true -> s <> t ++ String space EmptyString.
Proof.
  revert s b. induction t as [|c t IH]; intros s b Hs Heq; subst s; simpl in Hs.
  - destruct b; discriminate Hs.
  - destruct (Ascii.eqb c space); [destruct b; [discriminate Hs|]|];
      exact (IH _ _ Hs eq_refl).
Qed.

Lemma spaced_from_no_double (a s t : string) (b : bool) :
  spaced_from b s = true -> s <> a ++ String space (String space t).
Proof.
  revert s b. induction a as [|c a IH]; intros s b Hs Heq; subst s; simpl in Hs.
  - destruct b; discriminate Hs.
  - destruct (Ascii.eqb c space); [destruct b; [discriminate Hs|]|];
      exact (IH _ _ Hs eq_refl).
Qed.

(** *** The below-thousand converter *)

Lemma convert_below_thousand_at_S (d : nat) (n : Z) :
  convert_below_thousand_at (S d) n =
  if n =? 0 then Ok EmptyString
  else if n <? 10 then py_index ones n
  else if n <? 20 then py_index teens (n - 10)
  else if n <? 100 then
    t <- py_index tens (n / 10) ;;
    if negb (n mod 10 =? 0)
    then o <- py_index ones (n mod 10) ;; Ok (t ++ (" " ++ o))%string
    else Ok (t ++ EmptyString)%string
  else
    h <- py_index ones (n / 100) ;;
    remainder <- convert_below_thousand_at d (n mod 100) ;;
    Ok ((h ++ " Hundred") ++
        (if nonempty remainder then " " ++ remainder else EmptyString))%string.
Proof. reflexivity. Qed.

Lemma convert_below_hundred_depth (d : nat) (m : Z) :
  m < 100 ->
  convert_below_thousand_at (S d) m = convert_below_thousand_at 1 m.
Proof.
  intros Hm. rewrite !convert_below_thousand_at_S.
  destruct (m =? 0); [reflexivity|].
  destruct (m <? 10); [reflexivity|].
  destruct (m <? 20); [reflexivity|].
  destruct (m <? 100) eqn:E; [reflexivity | lia].
Qed.

(** Two nested calls are all [convert_below_thousand] ever needs: a larger
    allowance gives the same answer. *)
Lemma convert_below_thousand_depth (d : nat) (n : Z) :
  (2 <= d)%nat ->
  convert_below_thousand_at d n = convert_below_thousand n.
Proof.
  intros Hd. destruct d as [|[|d]]; try lia.
  unfold convert_below_thousand, call_depth.
  rewrite (convert_below_thousand_at_S (S d)), (convert_below_thousand_at_S 1).
  rewrite (convert_below_hundred_depth d (n mod 100)); [reflexivity|].
  pose proof (Z.mod_pos_bound n 100 ltac:(lia)). lia.
Qed.

Lemma py_index_no_recursion_error {A : Type} (l : list A) (i : Z) :
  py_index l i <> Raise RecursionError.
Proof.
  unfold py_index.
  destruct ((_ <? 0) || (_ <=? _)); [discriminate|].
  destruct (nth_error _ _); discriminate.
Qed.

Lemma bind_index_no_recursion_error {A B : Type} (l : list A) (i : Z)
      (k : A -> result B) :
  (forall a, k a <> Raise RecursionError) ->
  bind (py_index l i) k <> Raise RecursionError.
Proof.
  intros Hk. pose proof (py_index_no_recursion_error l i) as Hi.
  destruct (py_index l i) as [a|e]; simpl; [apply Hk|].
  intros H. injection H as ->. apply Hi. reflexivity.
Qed.

Lemma convert_below_hundred_no_recursion_error (m : Z) :
  m < 100 -> convert_below_thousand_at 1 m <> Raise RecursionError.
Proof.
  intros Hm. rewrite convert_below_thousand_at_S.
  destruct (m =? 0); [discriminate|].
  destruct (m <? 10); [apply py_index_no_recursion_error|].
  destruct (m <? 20); [apply py_index_no_recursion_error|].
  destruct (m <? 100) eqn:E; [|lia].
  apply bind_index_no_recursion_error. intros t.
  destruct (negb (m mod 10 =? 0)); [|discriminate].
  apply bind_index_no_recursion_error. discriminate.
Qed.

(** The allowance of two nested calls is never exhausted. *)
Lemma convert_below_thousand_no_recursion_error (n : Z) :
  convert_below_thousand n <> Raise RecursionError.
Proof.
  unfold convert_below_thousand, call_depth.
  rewrite convert_below_thousand_at_S.
  destruct (n =? 0); [discriminate|].
  destruct (n <? 10); [apply py_index_no_recursion_error|].
  destruct (n <? 20); [apply py_index_no_recursion_error|].
  destruct (n <? 100).
  - apply bind_index_no_recursion_error. intros t.
    destruct (negb (n mod 10 =? 0)); [|discriminate].
    apply bind_index_no_recursion_error. discriminate.
  - apply bind_index_no_recursion_error. intros h.
    pose proof (convert_below_hundred_no_recursion_error (n mod 100)) as Hm.
    pose proof (Z.mod_pos_bound n 100 ltac:(lia)) as Hb.
    destruct (convert_below_thousand_at 1 (n mod 100)) as [w|e];
      simpl; [discriminate|].
    intros H. injection H as ->. apply Hm; [lia | reflexivity].
Qed.

Lemma phrases_checked : forallb phrase_ok (seq 1 999) = true.
Proof. vm_compute. reflexivity. Qed.

Lemma convert_below_thousand_spaced (k : Z) :
  1 <= k <= 999 ->
  exists w, convert_below_thousand k = Ok w /\ well_spaced w = true.
Proof.
  intros Hk.
  pose proof (proj1 (forallb_forall phrase_ok (seq 1 999)) phrases_checked
                (Z.to_nat k)) as H.
  unfold phrase_ok in H. rewrite Z2Nat.id in H by lia.
  destruct (convert_below_thousand k) as [w|e].
  - exists w. split; [reflexivity|]. apply H. apply in_seq. lia.
  - discriminate H. apply in_seq. lia.
Qed.

Lemma convert_below_thousand_empty (k : Z) :
  0 <= k <= 999 -> (convert_below_thousand k = Ok EmptyString <-> k = 0).
Proof.
  intros Hk. split.
  - intros He. destruct (Z.eq_dec k 0) as [|Hnz]; [assumption|].
    destruct (convert_below_thousand_spaced k ltac:(lia)) as (w & Hw & Hs).
    rewrite Hw in He. injection He as ->. discriminate Hs.
  - intros ->. reflexivity.
Qed.

Lemma append_group_spaced (g : Z) (suffix : string) (acc : list string) :
  0 <= g <= 999 ->
  well_spaced suffix = true ->
  Forall (fun w => well_spaced w = true) acc ->
  exists acc', append_group g (String space suffix) acc = Ok acc' /\
               Forall (fun w => well_spaced w = true) acc' /\
               (g <> 0 \/ acc <> [] -> acc' <> []).
Proof.
  intros Hg Hsuf Hacc. unfold append_group.
  destruct (g =? 0) eqn:E.
  - exists acc. repeat split; [assumption|]. intros [H|H]; [lia | exact H].
  - destruct (convert_below_thousand_spaced g ltac:(lia)) as (w & Hw & Hs).
    rewrite Hw. simpl. exists (append acc (w ++ String space suffix)).
    repeat split.
    + unfold append. apply Forall_app. split; [assumption|].
      constructor; [|constructor]. apply spaced_from_app; assumption.
    + intros _. unfold append. destruct acc; discriminate.
Qed.

(** C10: for every n in [1, 99999999], number_to_words returns a phrase
    that is not empty, has no leading space, no trailing space and no two
    consecutive spaces; and the below-thousand converter returns the empty
    string for 0 only. *)
Theorem number_to_words_spacing (n : Z) :
  1 <= n <= 99999999 ->
  (exists s, number_to_words n = Ok s /\
     s <> EmptyString /\
     (forall t, s <> String space t) /\
     (forall t, s <> t ++ String space EmptyString) /\
     (forall a b, s <> a ++ String space (String space b))) /\
  (forall k, 0 <= k <= 999 ->
     (convert_below_thousand k = Ok EmptyString <-> k = 0)).
Proof.
  intros Hn. split; [|exact convert_below_thousand_empty].
  pose proof (groups_bounds n Hn) as Hb.
  pose proof (groups_sum n) as Hsum.
  unfold number_to_words.
  destruct (n =? 0) eqn:E0; [lia|].
  destruct (groups n) as [[[crore lakh] thousand] rest].
  destruct Hb as (Hc & Hl & Ht & Hr).
  destruct (append_group_spaced crore "Crore" [] ltac:(lia) eq_refl (Forall_nil _))
    as (r1 & E1 & F1 & N1).
  destruct (append_group_spaced lakh "Lakh" r1 ltac:(lia) eq_refl F1)
    as (r2 & E2 & F2 & N2).
  destruct (append_group_spaced thousand "Thousand" r2 ltac:(lia) eq_refl F2)
    as (r3 & E3 & F3 & N3).
  change (String space "Crore") with " Crore" in E1.
  change (String space "Lakh") with " Lakh" in E2.
  change (String space "Thousand") with " Thousand" in E3.
  rewrite E1; simpl. rewrite E2; simpl. rewrite E3; simpl.
  assert (exists r4,
    (if rest =? 0 then Ok r3
     else w <- convert_below_thousand rest ;; Ok (append r3 w)) = Ok r4 /\
    Forall (fun w => well_spaced w = true) r4 /\ r4 <> [])
    as (r4 & E4 & F4 & N4).
  { destruct (rest =? 0) eqn:Er.
    - exists r3. repeat split; [assumption|].
      apply N3. destruct (Z.eq_dec thousand 0) as [Ht0|]; [|left; assumption].
      right. apply N2. destruct (Z.eq_dec lakh 0) as [Hl0|]; [|left; assumption].
      right. apply N1. left. lia.
    - destruct (convert_below_thousand_spaced rest ltac:(lia)) as (w & Hw & Hs).
      rewrite Hw. simpl. exists (append r3 w). repeat split.
      + unfold append. apply Forall_app. split; [assumption|].
        constructor; [assumption | constructor].
      + unfold append. destruct r3; discriminate. }
  rewrite E4; simpl.
  exists (join " " r4). split; [reflexivity|].
  pose proof (well_spaced_join r4 N4 F4) as Hws. unfold well_spaced in Hws.
  repeat split.
  - intros He. rewrite He in Hws. discriminate Hws.
  - intros t He. rewrite He in Hws. discriminate Hws.
  - intros t. exact (spaced_from_no_trailing t _ _ Hws).
  - intros a b. exact (spaced_from_no_double a _ b _ Hws).
Qed.

Lemma number_to_words_spacing_witness :
  1 <= 29972 <= 99999999 /\
  exists s, number_to_words 29972 = Ok s /\ s <> EmptyString.
Proof.
  split; [lia|].
  destruct (number_to_words_spacing 29972 ltac:(lia)) as [(s & Hs & Hne & _) _].
  exists s. split; assumption.
Defined.

End WordsFacts.

(** ** Customer parsing *)

Lemma split_once_absent (sep : ascii) (s : string) :
  has_char sep s = false -> split_once sep s = [s].
Proof.
  induction s as [|a r IH]; simpl; intros H; [reflexivity|].
  apply orb_false_iff in H. destruct H as [Ha Hr].
  rewrite Ha, (IH Hr). reflexivity.
Qed.

Lemma split_once_first (sep : ascii) (before after : string) :
  has_char sep before = false ->
  split_once sep (before ++ String sep after) = [before; after].
Proof.
  induction before as [|a r IH]; simpl; intros H.
  - rewrite Ascii.eqb_refl. reflexivity.
  - apply orb_false_iff in H. destruct H as [Ha Hr].
    rewrite Ha, (IH Hr). reflexivity.
Qed.

(** C5: the 'to' string is cut at its first comma; the trimmed left part is
    the name and the trimmed remainder the address; without a comma the name
    is the trimmed string and the address is the string as given. *)
Theorem parse_customer_info_split (s : string) :
  (forall before after,
      s = before ++ String "," after -> has_char "," before = false ->
      parse_customer_info (VStr s) = Ok (strip before, strip after)) /\
  (has_char "," s = false ->
      parse_customer_info (VStr s) = Ok (strip s, s)) /\
  parse_customer_info (VStr "ABC, 123 Street") = Ok ("ABC", "123 Street") /\
  parse_customer_info (VStr "Just A Name") = Ok ("Just A Name", "Just A Name").
Proof.
  repeat split.
  - intros before after -> Hb. unfold parse_customer_info.
    rewrite (split_once_first _ _ _ Hb). reflexivity.
  - intros Hs. unfold parse_customer_info.
    rewrite (split_once_absent _ _ Hs). reflexivity.
Qed.

Lemma parse_customer_info_split_witness :
  parse_customer_info (VStr " Acme Ltd , 12 High St, Pune ")
    = Ok ("Acme Ltd", "12 High St, Pune") /\
  parse_customer_info (VStr " Acme Ltd ") = Ok ("Acme Ltd", " Acme Ltd ").
Proof.
  split.
  - exact (proj1 (parse_customer_info_split " Acme Ltd , 12 High St, Pune ")
             " Acme Ltd " " 12 High St, Pune " eq_refl eq_refl).
  - exact (proj1 (proj2 (parse_customer_info_split " Acme Ltd ")) eq_refl).
Defined.

(** ** Tax rate *)

Lemma positive_not_zero (x : F.float) : F.ltb F.zero x = true -> F.is_zero x = false.
Proof. destruct x as [s|s| |s m e]; simpl; intros H; try reflexivity.
  discriminate H. Qed.

(** C4: the rate is round(tax_amount / taxable * 100, 2) when both amounts
    are positive and the configured default otherwise; a tax amount of zero
    gives the default whatever the taxable amount is. *)
Theorem calculate_tax_rate_cases (tax_amount taxable : F.float) (default_rate : pyval) :
  (F.ltb F.zero taxable = true -> F.ltb F.zero tax_amount = true ->
   calculate_tax_rate tax_amount taxable default_rate
     = Ok (VFloat (F.round_digits (F.mul (F.div tax_amount taxable) hundred) 2))) /\
  (F.ltb F.zero taxable = false \/ F.ltb F.zero tax_amount = false ->
   calculate_tax_rate tax_amount taxable default_rate = Ok default_rate) /\
  (F.is_zero tax_amount = true ->
   calculate_tax_rate tax_amount taxable default_rate = Ok default_rate).
Proof.
  unfold calculate_tax_rate, truediv. repeat split.
  - intros H1 H2. rewrite H1, H2, (positive_not_zero _ H1). reflexivity.
  - intros [H|H]; rewrite H; [|rewrite andb_false_r]; reflexivity.
  - intros H. destruct tax_amount; try discriminate H.
    rewrite andb_false_r. reflexivity.
Qed.

Lemma calculate_tax_rate_cases_witness :
  calculate_tax_rate (F.nearest_Z 2286) (F.nearest_Z 25400) Config.DEFAULT_CGST_RATE
    = Ok (VFloat (F.nearest_Z 9)) /\
  calculate_tax_rate (F.nearest_Z 2286) F.zero Config.DEFAULT_CGST_RATE = Ok (VInt 9) /\
  calculate_tax_rate F.zero F.zero Config.DEFAULT_CGST_RATE = Ok (VInt 9).
Proof.
  pose proof (calculate_tax_rate_cases (F.nearest_Z 2286) (F.nearest_Z 25400)
                Config.DEFAULT_CGST_RATE) as (H1 & _).
  pose proof (calculate_tax_rate_cases (F.nearest_Z 2286) F.zero
                Config.DEFAULT_CGST_RATE) as (_ & H2 & _).
  pose proof (calculate_tax_rate_cases F.zero F.zero
                Config.DEFAULT_CGST_RATE) as (_ & _ & H3).
  split; [|split].
  - rewrite (H1 eq_refl eq_refl). vm_compute. reflexivity.
  - exact (H2 (or_introl eq_refl)).
  - exact (H3 eq_refl).
Defined.

(** ** Numeric coercion *)

Lemma safe_float_vectors (default : F.float) :
  safe_float (VStr "25,401") default = Ok (F.nearest_Z 25401) /\
  safe_float (VStr EmptyString) default = Ok default /\
  safe_float VNone default = Ok default /\
  safe_float (VStr "abc") default = Ok default.
Proof. repeat split. Qed.

(** A string never makes [safe_float] raise: it parses or gives the default. *)
Lemma safe_float_str (s : string) (default : F.float) :
  safe_float (VStr s) default = Ok default \/
  exists x, FloatParse.float_of_string (remove_char "," s) = Some x /\
            safe_float (VStr s) default = Ok x.
Proof.
  destruct s as [|c r]; [left; reflexivity|].
  unfold safe_float, py_float.
  destruct (FloatParse.float_of_string (remove_char "," (String c r))) as [x|].
  - right. exists x. split; reflexivity.
  - left. reflexivity.
Qed.

Lemma safe_float_float (x default : F.float) :
  safe_float (VFloat x) default = Ok x.
Proof. reflexivity. Qed.

(** C6 fails on the code: an [int] beyond the range of a float makes
    [float(value)] raise [OverflowError], which the [except] clause of
    [safe_float] does not list, so the call raises instead of returning the
    default. *)
Theorem safe_float_huge_int_raises :
  safe_float (VInt (10 ^ 309)) F.zero = Raise OverflowError.
Proof. vm_compute. reflexivity. Qed.

(** At the boundary the escaped exception becomes a 500 answer: an invoice
    whose total is such an integer is not rendered. *)
Lemma huge_total_internal_error :
  statusCode
    (lambda_handler example_runtime
       (VDict [("body", basic_invoice (VInt (10 ^ 309)))])) = 500.
Proof. vm_compute. reflexivity. Qed.

(** ** Missing fields *)

Lemma fields_not_in_dict (fields : list string) (d : dict) :
  fields_not_in fields (VDict d)
    = Ok (filter (fun f => negb (has_key d f)) fields).
Proof.
  induction fields as [|f fs IH]; simpl; [reflexivity|].
  rewrite IH. simpl. reflexivity.
Qed.

Lemma handle_missing (rt : runtime) (event : pyval) (d : dict) :
  parse_event rt event = Ok (VDict d) ->
  forall f fs, filter (fun f => negb (has_key d f)) required_fields = f :: fs ->
  lambda_handler rt event
    = error_response 400 [("error", missing_fields_message (f :: fs))].
Proof.
  intros Hp f fs Hm. unfold lambda_handler, handle.
  rewrite Hp. cbn [bind]. rewrite fields_not_in_dict. cbn [bind].
  rewrite Hm. reflexivity.
Qed.

Lemma not_missing_fields_error (rt : runtime) (event : pyval) (d : dict) :
  parse_event rt event = Ok (VDict d) ->
  filter (fun f => negb (has_key d f)) required_fields = [] ->
  forall fields,
    lambda_handler rt event
      <> error_response 400 [("error", missing_fields_message fields)].
Proof.
  intros Hp Hm fields. unfold lambda_handler, handle.
  rewrite Hp. cbn [bind]. rewrite fields_not_in_dict. cbn [bind].
  rewrite Hm.
  destruct (generate_invoice rt (VDict d)) as [pdf|e]; simpl.
  - destruct (base64_bound event); simpl; intros H;
      apply (f_equal statusCode) in H; discriminate H.
  - destruct e; intros H;
      try (apply (f_equal statusCode) in H; discriminate H).
    apply (f_equal body) in H. discriminate H.
Qed.

(** C8: when the parsed record lacks a required key the handler answers 400
    with a message naming every absent required key, in the order of the
    required-keys list; when no required key is absent it never gives that
    answer. *)
Theorem lambda_handler_missing_fields (rt : runtime) (event : pyval) (d : dict) :
  parse_event rt event = Ok (VDict d) ->
  let missing := filter (fun f => negb (has_key d f)) required_fields in
  (forall f, In f missing <-> In f required_fields /\ has_key d f = false) /\
  ((exists f, In f required_fields /\ has_key d f = false) ->
     lambda_handler rt event
       = error_response 400
           [("error", "Missing required fields: " ++ join ", " missing)]) /\
  ((forall f, In f required_fields -> has_key d f = true) ->
     forall fields,
       lambda_handler rt event
         <> error_response 400
              [("error", "Missing required fields: " ++ join ", " fields)]).
Proof.
  intros Hp missing.
  assert (Hin : forall f, In f missing <->
                          In f required_fields /\ has_key d f = false).
  { intros f. unfold missing. rewrite filter_In, negb_true_iff. reflexivity. }
  split; [exact Hin|]. split.
  - intros (f & Hf). apply Hin in Hf.
    destruct missing as [|f0 fs] eqn:Em; [destruct Hf|].
    exact (handle_missing rt event d Hp f0 fs Em).
  - intros Hall fields. apply (not_missing_fields_error rt event d Hp).
    fold missing. destruct missing as [|f0 fs]; [reflexivity|].
    destruct (proj1 (Hin f0) (or_introl eq_refl)) as [Hr Hk].
    rewrite (Hall f0 Hr) in Hk. discriminate Hk.
Qed.

Lemma lambda_handler_missing_fields_witness :
  lambda_handler example_runtime
    (VDict [("body", VDict [("invoice_no", VStr "134");
                            ("invoice_date", VStr "05-Dec-2025");
                            ("to", VStr "The Director, CSIR");
                            ("taxable_amount", VStr "25400")])])
  = error_response 400 [("error", "Missing required fields: items, total")].
Proof.
  exact (proj1 (proj2 (lambda_handler_missing_fields example_runtime
           (VDict [("body", VDict [("invoice_no", VStr "134");
                                   ("invoice_date", VStr "05-Dec-2025");
                                   ("to", VStr "The Director, CSIR");
                                   ("taxable_amount", VStr "25400")])])
           [("invoice_no", VStr "134");
            ("invoice_date", VStr "05-Dec-2025");
            ("to", VStr "The Director, CSIR");
            ("taxable_amount", VStr "25400")]
           eq_refl))
         (ex_intro _ "total" (conj (or_intror (or_intror (or_intror (or_intror
            (or_intror (or_introl eq_refl)))))) eq_refl))).
Defined.

(** ** Floats: sign and absence of NaN in rounded results *)

Module FloatFacts.

Lemma signed_number (s : bool) (x : F.float) : F.signed s x -> F.is_number x.
Proof. destruct x; simpl; auto. Qed.

Lemma shr_1_nonneg (mrs : shr_record) :
  0 <= shr_m mrs -> 0 <= shr_m (shr_1 mrs).
Proof.
  destruct mrs as [m r s]. destruct m as [|p|p]; simpl; intros H; try lia;
    destruct p; simpl; lia.
Qed.

Lemma iter_shr_1_nonneg (p : positive) :
  forall mrs, 0 <= shr_m mrs -> 0 <= shr_m (iter_pos shr_1 p mrs).
Proof.
  induction p as [p IH|p IH|]; simpl; intros mrs H.
  - apply IH, IH, shr_1_nonneg, H.
  - apply IH, IH, H.
  - apply shr_1_nonneg, H.
Qed.

Lemma shr_record_of_loc_m (m : Z) (l : location) :
  shr_m (shr_record_of_loc m l) = m.
Proof. destruct l as [|[| |]]; reflexivity. Qed.

Lemma shr_fexp_nonneg (m e : Z) (l : location) :
  0 <= m -> 0 <= shr_m (fst (shr_fexp F.prec F.emax m e l)).
Proof.
  intros H. unfold shr_fexp, shr.
  destruct (fexp F.prec F.emax (Zdigits2 m + e) - e) as [|p|p]; simpl;
    try (rewrite shr_record_of_loc_m; exact H).
  apply iter_shr_1_nonneg. rewrite shr_record_of_loc_m. exact H.
Qed.

Lemma round_nearest_even_nonneg (m : Z) (l : location) :
  0 <= m -> 0 <= round_nearest_even m l.
Proof.
  intros H. destruct l as [|[| |]]; simpl; try lia.
  destruct (Z.even m); lia.
Qed.

Lemma binary_round_aux_signed (s : bool) (m e : Z) (l : location) :
  0 <= m -> F.signed s (binary_round_aux F.prec F.emax s m e l).
Proof.
  intros H. unfold binary_round_aux.
  pose proof (shr_fexp_nonneg m e l H) as H1.
  destruct (shr_fexp F.prec F.emax m e l) as [mrs1 e1]. simpl in H1.
  pose proof (shr_fexp_nonneg _ e1 loc_Exact
                (round_nearest_even_nonneg _ (loc_of_shr_record mrs1) H1)) as H2.
  destruct (shr_fexp F.prec F.emax
              (round_nearest_even (shr_m mrs1) (loc_of_shr_record mrs1)) e1
              loc_Exact) as [mrs2 e2]. simpl in H2.
  destruct (shr_m mrs2) as [|p|p]; try lia; [reflexivity|].
  destruct (e2 <=? F.emax - F.prec); reflexivity.
Qed.

Lemma binary_round_signed (s : bool) (m : positive) (e : Z) :
  F.signed s (binary_round F.prec F.emax s m e).
Proof.
  unfold binary_round.
  destruct (shl_align m e _) as [mz ez].
  apply binary_round_aux_signed. lia.
Qed.

Lemma binary_normalize_number (m e : Z) (sz : bool) :
  F.is_number (binary_normalize F.prec F.emax m e sz).
Proof.
  destruct m as [|p|p]; simpl; [exact I| |];
    exact (signed_number _ _ (binary_round_signed _ _ _)).
Qed.

Lemma div_signed (sx sy : bool) (mx my : positive) (ex ey : Z) :
  F.signed (xorb sx sy)
    (F.div (S754_finite sx mx ex) (S754_finite sy my ey)).
Proof.
  unfold F.div, SFdiv.
  destruct (SFdiv_core_binary F.prec F.emax (Z.pos mx) ex (Z.pos my) ey)
    as [[mz ez] lz] eqn:E.
  apply binary_round_aux_signed.
  unfold SFdiv_core_binary in E.
  set (sh := ex - ey - _) in E.
  set (m' := match sh with Z0 => Z.pos mx | Zpos _ => Z.shiftl (Z.pos mx) sh
             | Zneg _ => 0 end) in E.
  assert (Hm' : 0 <= m').
  { unfold m'. destruct sh; try lia. apply Z.shiftl_nonneg. lia. }
  pose proof (Z_div_mod m' (Z.pos my) ltac:(lia)) as Hd.
  destruct (Z.div_eucl m' (Z.pos my)) as [q r].
  injection E as <- _ _. nia.
Qed.

Lemma nearest_ratio_signed (s : bool) (n d : Z) :
  F.signed s (F.nearest_ratio s n d).
Proof.
  unfold F.nearest_ratio. destruct n as [|p|p]; try reflexivity.
  pose proof (div_signed s false p (Z.to_pos d) 0 0) as H.
  rewrite xorb_false_r in H. exact H.
Qed.

(** Rounding to a number of decimals keeps the sign and never makes a NaN. *)
Lemma round_digits_signed (s : bool) (x : F.float) (ndigits : Z) :
  F.signed s x -> F.signed s (F.round_digits x ndigits).
Proof.
  destruct x as [s'|s'| |s' m e]; simpl; intros H; try exact H.
  subst s'. apply nearest_ratio_signed.
Qed.

Lemma signed_false_nonneg (x : F.float) :
  F.signed false x -> F.leb F.zero x = true.
Proof.
  destruct x as [s|s| |s m e]; simpl; intros H; try subst s; try reflexivity.
  destruct H.
Qed.

Lemma abs_signed (x : F.float) : F.is_number x -> F.signed false (F.abs x).
Proof. destruct x; simpl; auto. Qed.

Lemma round_int_finite (x : F.float) (n : Z) :
  F.round_int x = Ok n -> F.is_finite x.
Proof. destruct x; simpl; intros H; try discriminate H; exact I. Qed.

Lemma of_Z_finite (n : Z) (x : F.float) : F.of_Z n = Ok x -> F.is_finite x.
Proof.
  unfold F.of_Z, F.nearest_Z. intros H.
  pose proof (binary_normalize_number n 0 false) as Hn.
  destruct (binary_normalize F.prec F.emax n 0 false);
    try discriminate H; injection H as <-; simpl in *; auto.
Qed.

Lemma sub_number (x y : F.float) :
  F.is_finite x -> F.is_finite y -> F.is_number (F.sub x y).
Proof.
  destruct x as [sx|sx| |sx mx ex], y as [sy|sy| |sy my ey]; simpl;
    intros Hx Hy; try contradiction; try exact I.
  - destruct sx, sy; exact I.
  - apply binary_normalize_number.
Qed.

Lemma abs_abs (x : F.float) : F.abs (F.abs x) = F.abs x.
Proof. destruct x; reflexivity. Qed.

Lemma compare_antisym (x y : F.float) :
  SFcompare y x =
  match SFcompare x y with
  | Some c => Some (CompOpp c)
  | None => None
  end.
Proof.
  destruct x as [sx|sx| |sx mx ex], y as [sy|sy| |sy my ey]; simpl;
    try reflexivity;
    try (destruct sx; reflexivity); try (destruct sy; reflexivity);
    try (destruct sx, sy; reflexivity).
  destruct sx, sy; try reflexivity;
    rewrite (Z.compare_antisym ey ex);
    destruct (ey ?= ex) eqn:E; simpl; try reflexivity;
    rewrite (Pos.compare_cont_antisym mx my Eq); reflexivity.
Qed.

(** On numbers, [y > x] is the negation of [x <= y]... *)
Lemma ltb_negb_leb (x y : F.float) :
  F.is_number x -> F.is_number y -> F.ltb y x = negb (F.leb x y).
Proof.
  intros Hx Hy. unfold F.ltb, F.leb, SFltb, SFleb.
  rewrite (compare_antisym x y).
  destruct (SFcompare x y) as [[| |]|] eqn:E; try reflexivity.
  destruct x, y; simpl in *; try contradiction; discriminate E.
Qed.

Lemma shr_1_div2 (mrs : shr_record) :
  0 <= shr_m mrs -> shr_m (shr_1 mrs) = shr_m mrs / 2.
Proof.
  destruct mrs as [m r s]. rewrite <- Z.div2_div.
  destruct m as [|p|p]; simpl; intros H; try lia; destruct p; reflexivity.
Qed.

Lemma iter_shr_1_div (p : positive) :
  forall mrs, 0 <= shr_m mrs ->
    shr_m (iter_pos shr_1 p mrs) = shr_m mrs / 2 ^ Z.pos p.
Proof.
  induction p as [p IH|p IH|]; simpl iter_pos; intros mrs H.
  - rewrite IH, IH, shr_1_div2 by auto using iter_shr_1_nonneg, shr_1_nonneg.
    rewrite !Z.div_div by lia.
    replace (Z.pos p~1) with (1 + Z.pos p + Z.pos p) by lia.
    rewrite !Z.pow_add_r by lia. f_equal. change (2 ^ 1) with 2. lia.
  - rewrite IH, IH by auto using iter_shr_1_nonneg.
    rewrite Z.div_div by lia.
    replace (Z.pos p~0) with (Z.pos p + Z.pos p) by lia.
    rewrite Z.pow_add_r by lia. reflexivity.
  - rewrite shr_1_div2 by assumption. reflexivity.
Qed.

Lemma digits2_pos_lower (p : positive) :
  2 ^ (Z.pos (digits2_pos p) - 1) <= Z.pos p.
Proof.
  induction p as [p IH|p IH|]; simpl digits2_pos.
  - rewrite Pos2Z.inj_succ.
    replace (Z.succ (Z.pos (digits2_pos p)) - 1)
      with (1 + (Z.pos (digits2_pos p) - 1)) by lia.
    rewrite Z.pow_add_r by lia. lia.
  - rewrite Pos2Z.inj_succ.
    replace (Z.succ (Z.pos (digits2_pos p)) - 1)
      with (1 + (Z.pos (digits2_pos p) - 1)) by lia.
    rewrite Z.pow_add_r by lia. lia.
  - simpl. lia.
Qed.

Lemma iter_xO_mul (m d : positive) :
  Z.pos (Pos.iter xO m d) = Z.pos m * 2 ^ Z.pos d.
Proof.
  induction d as [|d IH] using Pos.peano_ind.
  - simpl. lia.
  - rewrite Pos.iter_succ, Pos2Z.inj_xO, IH, Pos2Z.inj_succ, Z.pow_succ_r by lia.
    lia.
Qed.

Lemma iter_xO_digits (m d : positive) :
  Z.pos (digits2_pos (Pos.iter xO m d)) = Z.pos (digits2_pos m) + Z.pos d.
Proof.
  induction d as [|d IH] using Pos.peano_ind.
  - simpl. lia.
  - rewrite Pos.iter_succ. simpl digits2_pos. rewrite Pos2Z.inj_succ, IH. lia.
Qed.

(** Shifting right to the format's exponent leaves a positive mantissa
    positive, as long as the exponent is not below the least one. *)
Lemma shr_fexp_positive (m e : Z) (l : location) :
  0 < m -> emin F.prec F.emax <= e ->
  0 < shr_m (fst (shr_fexp F.prec F.emax m e l)) /\
  emin F.prec F.emax <= snd (shr_fexp F.prec F.emax m e l).
Proof.
  intros Hm He. unfold shr_fexp, shr.
  destruct (fexp F.prec F.emax (Zdigits2 m + e) - e) as [|q|q] eqn:En; simpl;
    try (rewrite shr_record_of_loc_m; split; assumption).
  destruct m as [|p|p]; try lia.
  rewrite iter_shr_1_div, shr_record_of_loc_m
    by (rewrite shr_record_of_loc_m; lia).
  simpl Zdigits2 in En. unfold fexp in En.
  pose proof (digits2_pos_lower p) as Hd.
  assert (Hq : Z.pos q <= Z.pos (digits2_pos p) - 1).
  { unfold F.prec in *. lia. }
  split; [|lia].
  apply Z.div_str_pos. split; [apply Z.pow_pos_nonneg; lia|].
  apply Z.le_trans with (2 ^ (Z.pos (digits2_pos p) - 1)); [|exact Hd].
  apply Z.pow_le_mono_r; lia.
Qed.

Lemma round_nearest_even_positive (m : Z) (l : location) :
  0 < m -> 0 < round_nearest_even m l.
Proof.
  intros H. destruct l as [|[| |]]; simpl; try lia.
  destruct (Z.even m); lia.
Qed.

(** A positive mantissa at a representable exponent never rounds to zero. *)
Lemma binary_round_aux_nonzero (s : bool) (m e : Z) (l : location) :
  0 < m -> emin F.prec F.emax <= e ->
  F.is_zero (binary_round_aux F.prec F.emax s m e l) = false.
Proof.
  intros Hm He. unfold binary_round_aux.
  pose proof (shr_fexp_positive m e l Hm He) as [H1 H1e].
  destruct (shr_fexp F.prec F.emax m e l) as [mrs1 e1]. simpl in H1, H1e.
  pose proof (shr_fexp_positive _ e1 loc_Exact
                (round_nearest_even_positive _ (loc_of_shr_record mrs1) H1) H1e)
    as [H2 _].
  destruct (shr_fexp F.prec F.emax
              (round_nearest_even (shr_m mrs1) (loc_of_shr_record mrs1)) e1
              loc_Exact) as [mrs2 e2]. simpl in H2.
  destruct (shr_m mrs2) as [|p|p]; try lia.
  destruct (e2 <=? F.emax - F.prec); reflexivity.
Qed.

Lemma shl_align_spec (m : positive) (e e' : Z) :
  e' <= e ->
  Z.pos (fst (shl_align m e e')) = Z.pos m * 2 ^ (e - e') /\
  snd (shl_align m e e') = e' /\
  Z.pos (digits2_pos (fst (shl_align m e e')))
    = Z.pos (digits2_pos m) + (e - e').
Proof.
  intros H. unfold shl_align.
  destruct (e' - e) as [|d|d] eqn:E; simpl; try lia.
  - replace (e - e') with 0 by lia. rewrite Z.pow_0_r. lia.
  - replace (e - e') with (Z.pos d) by lia.
    rewrite iter_xO_mul, iter_xO_digits. repeat split; reflexivity.
Qed.

Lemma fexp_bounds (k : Z) :
  emin F.prec F.emax <= fexp F.prec F.emax k /\
  k - F.prec <= fexp F.prec F.emax k /\
  (fexp F.prec F.emax k = k - F.prec \/
   fexp F.prec F.emax k = emin F.prec F.emax).
Proof. unfold fexp. lia. Qed.

Lemma binary_round_nonzero (s : bool) (m : positive) (e : Z) :
  emin F.prec F.emax <= e ->
  F.is_zero (binary_round F.prec F.emax s m e) = false.
Proof.
  intros He. unfold binary_round.
  pose proof (fexp_bounds (Z.pos (digits2_pos m) + e)) as (Hf & _).
  set (f := fexp F.prec F.emax (Z.pos (digits2_pos m) + e)) in *.
  destruct (Z_le_gt_dec f e) as [Hle|Hgt].
  - pose proof (shl_align_spec m e f Hle) as (_ & Hs & _).
    destruct (shl_align m e f) as [mz ez]. simpl in Hs. subst ez.
    apply binary_round_aux_nonzero; lia.
  - assert (Hsh : shl_align m e f = (m, e)).
    { unfold shl_align. destruct (f - e) eqn:E; try reflexivity. lia. }
    rewrite Hsh. apply binary_round_aux_nonzero; lia.
Qed.

(** A mantissa that fits the precision, at a representable exponent, is
    stored exactly: it is only shifted to its canonical exponent. *)
Lemma binary_round_exact (s : bool) (m : positive) (e : Z) :
  Z.pos (digits2_pos m) <= F.prec ->
  emin F.prec F.emax <= e -> e <= F.emax - F.prec ->
  exists mz f,
    binary_round F.prec F.emax s m e = S754_finite s mz f /\
    Z.pos mz = Z.pos m * 2 ^ (e - f) /\
    emin F.prec F.emax <= f <= e.
Proof.
  intros Hd He Hmax. unfold binary_round.
  pose proof (fexp_bounds (Z.pos (digits2_pos m) + e)) as (Hf & _ & Hcase).
  set (f := fexp F.prec F.emax (Z.pos (digits2_pos m) + e)) in *.
  assert (Hle : f <= e) by lia.
  pose proof (shl_align_spec m e f Hle) as (Hm & Hs & Hdig).
  destruct (shl_align m e f) as [mz ez]. cbn [fst snd] in Hm, Hs, Hdig.
  subst ez. exists mz, f. split; [|split; [exact Hm | lia]].
  assert (Hz : fexp F.prec F.emax (Zdigits2 (Z.pos mz) + f) - f = 0).
  { change (Zdigits2 (Z.pos mz)) with (Z.pos (digits2_pos mz)).
    rewrite Hdig.
    replace (Z.pos (digits2_pos m) + (e - f) + f)
      with (Z.pos (digits2_pos m) + e) by lia.
    fold f. lia. }
  unfold binary_round_aux, shr_fexp.
  rewrite Hz. cbn [shr shr_record_of_loc shr_m loc_of_shr_record round_nearest_even].
  rewrite Hz. cbn [shr shr_record_of_loc shr_m].
  destruct (f <=? F.emax - F.prec) eqn:E; [reflexivity|].
  apply Z.leb_gt in E. lia.
Qed.

Lemma digits2_pos_upper (p : positive) :
  Z.pos p < 2 ^ Z.pos (digits2_pos p).
Proof.
  induction p as [p IH|p IH|]; simpl digits2_pos.
  - rewrite Pos2Z.inj_succ, Z.pow_succ_r by lia. lia.
  - rewrite Pos2Z.inj_succ, Z.pow_succ_r by lia. lia.
  - simpl. lia.
Qed.

Lemma digits2_pos_le (p q : positive) :
  Z.pos p <= Z.pos q -> Z.pos (digits2_pos p) <= Z.pos (digits2_pos q).
Proof.
  intros H.
  pose proof (digits2_pos_lower p) as Hl.
  pose proof (digits2_pos_upper q) as Hu.
  destruct (Z_le_gt_dec (Z.pos (digits2_pos p)) (Z.pos (digits2_pos q)))
    as [|Hgt]; [assumption|].
  assert (2 ^ Z.pos (digits2_pos q) <= 2 ^ (Z.pos (digits2_pos p) - 1))
    by (apply Z.pow_le_mono_r; lia).
  lia.
Qed.

Lemma valid_bounds (s : bool) (m : positive) (e : Z) :
  valid_binary F.prec F.emax (S754_finite s m e) = true ->
  Z.pos (digits2_pos m) <= F.prec /\
  emin F.prec F.emax <= e <= F.emax - F.prec.
Proof.
  unfold valid_binary, bounded, canonical_mantissa. intros H.
  apply andb_true_iff in H. destruct H as [Hc He].
  apply Z.eqb_eq in Hc. apply Z.leb_le in He.
  pose proof (fexp_bounds (Z.pos (digits2_pos m) + e)) as (H1 & H2 & _).
  lia.
Qed.

Lemma eqb_zero (x : F.float) : F.eqb x F.zero = F.is_zero x.
Proof. destruct x as [s|s| |s m e]; try reflexivity; destruct s; reflexivity. Qed.

(** The fractional part of a float that is not an integer is stored
    exactly, with the float's sign. *)
Lemma fmod_one_fraction (s : bool) (m : positive) (e : Z) :
  valid_binary F.prec F.emax (S754_finite s m e) = true ->
  e < 0 -> Z.pos m mod 2 ^ (- e) <> 0 ->
  exists mz f,
    F.fmod_one (S754_finite s m e) = S754_finite s mz f /\
    Z.pos mz = (Z.pos m mod 2 ^ (- e)) * 2 ^ (e - f) /\
    emin F.prec F.emax <= f <= e.
Proof.
  intros Hv He Hr.
  destruct (valid_bounds s m e Hv) as (Hd & Hemin & Hemax).
  assert (Hpow : 0 < 2 ^ (- e)) by (apply Z.pow_pos_nonneg; lia).
  pose proof (Z.mod_pos_bound (Z.pos m) (2 ^ (- e)) Hpow) as Hb.
  pose proof (Z.mod_le (Z.pos m) (2 ^ (- e)) ltac:(lia) Hpow) as Hle.
  unfold F.fmod_one.
  destruct (0 <=? e) eqn:E0; [apply Z.leb_le in E0; lia|].
  destruct (Z.pos m mod 2 ^ (- e)) as [|r|r] eqn:Er; try lia.
  simpl (Z.pos r =? 0).
  assert (Hdr : Z.pos (digits2_pos r) <= F.prec).
  { pose proof (digits2_pos_le r m Hle). lia. }
  destruct (binary_round_exact s r e Hdr Hemin Hemax)
    as (mz & f & Hround & Hmz & Hf).
  exists mz, f. split; [|split; assumption].
  destruct s; simpl; exact Hround.
Qed.

Lemma mod_one_fraction (s : bool) (m : positive) (e : Z) :
  valid_binary F.prec F.emax (S754_finite s m e) = true ->
  e < 0 -> Z.pos m mod 2 ^ (- e) <> 0 ->
  F.eqb (F.mod_one (S754_finite s m e)) F.zero = false.
Proof.
  intros Hv He Hr.
  destruct (fmod_one_fraction s m e Hv He Hr) as (mz & f & Hfm & Hmz & Hf).
  assert (Hpow : 0 < 2 ^ (- e)) by (apply Z.pow_pos_nonneg; lia).
  pose proof (Z.mod_pos_bound (Z.pos m) (2 ^ (- e)) Hpow) as Hb.
  rewrite eqb_zero. unfold F.mod_one. rewrite Hfm.
  cbn [F.is_zero]. destruct s; [|reflexivity].
  change (F.ltb (S754_finite true mz f) F.zero) with true. cbv iota.
  unfold F.add, F.one, SFadd.
  set (ez := Z.min f (-52)).
  assert (Hez : emin F.prec F.emax <= ez)
    by (unfold ez, emin, F.prec, F.emax in *; lia).
  destruct (shl_align_spec mz f ez ltac:(unfold ez; lia)) as (H1 & _ & _).
  destruct (shl_align_spec 4503599627370496 (-52) ez ltac:(unfold ez; lia))
    as (H2 & _ & _).
  unfold cond_Zopp. rewrite H1, H2.
  assert (Hlt : Z.pos mz * 2 ^ (f - ez) < 4503599627370496 * 2 ^ (-52 - ez)).
  { rewrite Hmz, <- Z.mul_assoc, <- Z.pow_add_r by (unfold ez; lia).
    replace (e - f + (f - ez)) with (e - ez) by lia.
    change 4503599627370496 with (2 ^ 52).
    rewrite <- Z.pow_add_r by (unfold ez; lia).
    replace (52 + (-52 - ez)) with (- e + (e - ez)) by lia.
    rewrite Z.pow_add_r by (unfold ez; lia).
    apply Z.mul_lt_mono_pos_r; [apply Z.pow_pos_nonneg; unfold ez; lia | lia]. }
  destruct (- (Z.pos mz * 2 ^ (f - ez)) + 4503599627370496 * 2 ^ (-52 - ez))
    as [|n|n] eqn:En; try lia.
  cbn [binary_normalize]. apply binary_round_nonzero. exact Hez.
Qed.

End FloatFacts.

(** ** The tax summary of the normalised invoice *)

Ltac bind_inv H :=
  let a := fresh "a" in
  let E := fresh "E" in
  apply bind_Ok_inv in H; destruct H as (a & E & H).

Lemma transform_input_tax_summary (rt : runtime) (cfg data : pyval) (inv : Invoice) :
  transform_input rt cfg data = Ok inv ->
  exists taxable cgst sgst total rounded rounded_f,
    amount_field data "taxable_amount" = Ok taxable /\
    amount_field data "cgst" = Ok cgst /\
    amount_field data "sgst" = Ok sgst /\
    amount_field data "total" = Ok total /\
    F.round_int (F.add (F.add taxable cgst) sgst) = Ok rounded /\
    F.of_Z rounded = Ok rounded_f /\
    round_off (tax_summary inv)
      = (let magnitude :=
           F.abs (F.sub rounded_f (F.add (F.add taxable cgst) sgst)) in
         if F.ltb cent (F.abs magnitude)
         then VFloat (F.round_digits magnitude 2)
         else VStr EmptyString) /\
    invoice_total (tax_summary inv)
      = (if F.ltb F.zero total then VFloat total else VInt rounded).
Proof.
  intros H. unfold transform_input in H.
  bind_inv H. bind_inv H. destruct a0 as [customer_name customer_address].
  do 16 bind_inv H.
  injection H as <-. simpl.
  do 6 eexists. repeat split; eassumption || reflexivity.
Qed.

(** C3: in the record built by _transform_input the round-off is the
    magnitude of round(total) - total for total = taxable + cgst + sgst; it
    is stored as the empty string when that magnitude is at most 0.01 and
    otherwise as the magnitude rounded to two decimals, so a numeric
    round-off is never negative. *)
Theorem round_off_magnitude (rt : runtime) (cfg data : pyval) (inv : Invoice) :
  transform_input rt cfg data = Ok inv ->
  exists taxable cgst sgst rounded rounded_f,
    amount_field data "taxable_amount" = Ok taxable /\
    amount_field data "cgst" = Ok cgst /\
    amount_field data "sgst" = Ok sgst /\
    F.round_int (F.add (F.add taxable cgst) sgst) = Ok rounded /\
    F.of_Z rounded = Ok rounded_f /\
    let magnitude := F.abs (F.sub rounded_f (F.add (F.add taxable cgst) sgst)) in
    (F.leb magnitude cent = true ->
       round_off (tax_summary inv) = VStr EmptyString) /\
    (F.leb magnitude cent = false ->
       round_off (tax_summary inv) = VFloat (F.round_digits magnitude 2)) /\
    (forall v, round_off (tax_summary inv) = VFloat v -> F.leb F.zero v = true).
Proof.
  intros H.
  destruct (transform_input_tax_summary rt cfg data inv H)
    as (taxable & cgst & sgst & total & rounded & rounded_f &
        Ht & Hc & Hs & _ & Hr & Hf & Hoff & _).
  exists taxable, cgst, sgst, rounded, rounded_f.
  repeat (split; [assumption|]).
  cbv zeta in Hoff |- *.
  set (magnitude := F.abs (F.sub rounded_f (F.add (F.add taxable cgst) sgst)))
    in *.
  assert (Hnum : F.is_number
                   (F.sub rounded_f (F.add (F.add taxable cgst) sgst))).
  { apply FloatFacts.sub_number.
    - exact (FloatFacts.of_Z_finite _ _ Hf).
    - exact (FloatFacts.round_int_finite _ _ Hr). }
  assert (Hsign : F.signed false magnitude)
    by exact (FloatFacts.abs_signed _ Hnum).
  assert (Hcmp : F.ltb cent (F.abs magnitude) = negb (F.leb magnitude cent)).
  { unfold magnitude at 1. rewrite FloatFacts.abs_abs. fold magnitude.
    apply FloatFacts.ltb_negb_leb.
    - exact (FloatFacts.signed_number _ _ Hsign).
    - exact I. }
  rewrite Hcmp in Hoff. repeat split.
  - intros Hle. rewrite Hle in Hoff. exact Hoff.
  - intros Hle. rewrite Hle in Hoff. exact Hoff.
  - intros v Hv. rewrite Hv in Hoff.
    destruct (F.leb magnitude cent); simpl in Hoff; [discriminate Hoff|].
    injection Hoff as ->.
    apply FloatFacts.signed_false_nonneg, FloatFacts.round_digits_signed, Hsign.
Qed.

Lemma round_off_magnitude_witness :
  exists inv,
    transform_input example_runtime Config.COMPANY_CONFIG decimal_invoice = Ok inv /\
    round_off (tax_summary inv) = VFloat (F.of_decimal false 18 (-2)) /\
    F.leb F.zero (F.of_decimal false 18 (-2)) = true.
Proof.
  destruct (transform_input example_runtime Config.COMPANY_CONFIG decimal_invoice)
    as [inv|e] eqn:E; [|vm_compute in E; discriminate E].
  exists inv. split; [reflexivity|].
  destruct (round_off_magnitude example_runtime Config.COMPANY_CONFIG
              decimal_invoice inv E)
    as (taxable & cgst & sgst & rounded & rounded_f &
        Ht & Hc & Hs & Hr & Hf & _ & Hnum & Hpos).
  vm_compute in Ht. injection Ht as <-.
  vm_compute in Hc. injection Hc as <-.
  vm_compute in Hs. injection Hs as <-.
  vm_compute in Hr. injection Hr as <-.
  vm_compute in Hf. injection Hf as <-.
  assert (Hoff : round_off (tax_summary inv) = VFloat (F.of_decimal false 18 (-2)))
    by (rewrite (Hnum eq_refl); vm_compute; reflexivity).
  split; [exact Hoff | exact (Hpos _ Hoff)].
Defined.

(** C7: the invoice total of the record is the supplied total, coerced by
    safe_float, when that is strictly positive, and otherwise the rounded
    sum of the taxable amount and the two tax amounts. *)
Theorem invoice_total_choice (rt : runtime) (cfg data : pyval) (inv : Invoice) :
  transform_input rt cfg data = Ok inv ->
  exists total_input taxable cgst sgst rounded,
    amount_field data "total" = Ok total_input /\
    amount_field data "taxable_amount" = Ok taxable /\
    amount_field data "cgst" = Ok cgst /\
    amount_field data "sgst" = Ok sgst /\
    F.round_int (F.add (F.add taxable cgst) sgst) = Ok rounded /\
    (F.ltb F.zero total_input = true ->
       invoice_total (tax_summary inv) = VFloat total_input) /\
    (F.ltb F.zero total_input = false ->
       invoice_total (tax_summary inv) = VInt rounded).
Proof.
  intros H.
  destruct (transform_input_tax_summary rt cfg data inv H)
    as (taxable & cgst & sgst & total & rounded & rounded_f &
        Ht & Hc & Hs & Htot & Hr & _ & _ & Htotal).
  exists total, taxable, cgst, sgst, rounded.
  repeat (split; [assumption|]).
  split; intros Hpos; rewrite Hpos in Htotal; exact Htotal.
Qed.

Lemma invoice_total_choice_witness :
  (exists inv,
     transform_input example_runtime Config.COMPANY_CONFIG
       (basic_invoice (VStr "29972")) = Ok inv /\
     invoice_total (tax_summary inv) = VFloat (F.nearest_Z 29972)) /\
  (exists inv,
     transform_input example_runtime Config.COMPANY_CONFIG
       (basic_invoice (VStr EmptyString)) = Ok inv /\
     invoice_total (tax_summary inv) = VInt 29972).
Proof.
  split.
  - destruct (transform_input example_runtime Config.COMPANY_CONFIG
                (basic_invoice (VStr "29972"))) as [inv|e] eqn:E;
      [|vm_compute in E; discriminate E].
    exists inv. split; [reflexivity|].
    destruct (invoice_total_choice _ _ _ inv E)
      as (total & taxable & cgst & sgst & rounded &
          Htot & _ & _ & _ & _ & Hpos & _).
    vm_compute in Htot. injection Htot as <-.
    exact (Hpos eq_refl).
  - destruct (transform_input example_runtime Config.COMPANY_CONFIG
                (basic_invoice (VStr EmptyString))) as [inv|e] eqn:E;
      [|vm_compute in E; discriminate E].
    exists inv. split; [reflexivity|].
    destruct (invoice_total_choice _ _ _ inv E)
      as (total & taxable & cgst & sgst & rounded &
          Htot & Ht & Hc & Hs & Hr & _ & Hneg).
    vm_compute in Htot. injection Htot as <-.
    vm_compute in Ht. injection Ht as <-.
    vm_compute in Hc. injection Hc as <-.
    vm_compute in Hs. injection Hs as <-.
    vm_compute in Hr. injection Hr as <-.
    exact (Hneg eq_refl).
Defined.

(** ** Amount formatting *)

Lemma is_digit_digit_char (d : Z) :
  0 <= d <= 9 -> is_digit (digit_char d) = true.
Proof.
  intros H.
  assert (Hd : d = 0 \/ d = 1 \/ d = 2 \/ d = 3 \/ d = 4 \/ d = 5 \/ d = 6 \/
               d = 7 \/ d = 8 \/ d = 9) by lia.
  repeat (destruct Hd as [->|Hd]; [reflexivity|]). subst d. reflexivity.
Qed.

Lemma is_digit_last (n : Z) : is_digit (digit_char (n mod 10)) = true.
Proof.
  apply is_digit_digit_char.
  pose proof (Z.mod_pos_bound n 10 ltac:(lia)). lia.
Qed.

Lemma digits_of_all_digits (fuel : nat) :
  forall n acc, all_digits acc = true ->
                all_digits (digits_of fuel n acc) = true.
Proof.
  induction fuel as [|fuel IH]; intros n acc Hacc; simpl; [exact Hacc|].
  assert (H : all_digits (String (digit_char (n mod 10)) acc) = true)
    by (simpl; rewrite is_digit_last; exact Hacc).
  destruct (n <? 10); [exact H | apply IH, H].
Qed.

Lemma digits_of_nonempty (fuel : nat) :
  forall n acc, acc <> EmptyString -> digits_of fuel n acc <> EmptyString.
Proof.
  induction fuel as [|fuel IH]; intros n acc Hacc; simpl; [exact Hacc|].
  destruct (n <? 10); [discriminate | apply IH; discriminate].
Qed.

Lemma string_of_Z_shape (n : Z) :
  exists sign ip,
    string_of_Z n = sign ++ ip /\
    (sign = EmptyString \/ sign = "-") /\
    (sign = EmptyString <-> 0 <= n) /\
    ip <> EmptyString /\ all_digits ip = true.
Proof.
  unfold string_of_Z.
  set (m := Z.abs n).
  set (ds := digits_of (S (Z.to_nat (Z.log2 m))) m EmptyString).
  assert (Hne : ds <> EmptyString).
  { unfold ds. simpl. destruct (m <? 10); [discriminate|].
    apply digits_of_nonempty. discriminate. }
  assert (Hall : all_digits ds = true)
    by (apply digits_of_all_digits; reflexivity).
  destruct (n <? 0) eqn:E.
  - apply Z.ltb_lt in E. exists "-", ds. repeat split; auto.
    + discriminate.
    + lia.
  - apply Z.ltb_ge in E. exists EmptyString, ds. repeat split; auto.
Qed.

Lemma code_digit_char (d : Z) : 0 <= d <= 9 -> code (digit_char d) - 48 = d.
Proof.
  intros H.
  assert (Hd : d = 0 \/ d = 1 \/ d = 2 \/ d = 3 \/ d = 4 \/ d = 5 \/ d = 6 \/
               d = 7 \/ d = 8 \/ d = 9) by lia.
  repeat (destruct Hd as [->|Hd]; [reflexivity|]). subst d. reflexivity.
Qed.

Lemma Z_of_digits_shift (s : string) (a b : Z) :
  FloatParse.Z_of_digits (a + b) s
    = a * 10 ^ Z.of_nat (String.length s) + FloatParse.Z_of_digits b s.
Proof.
  revert a b. induction s as [|c r IH]; intros a b.
  - simpl. lia.
  - cbn [FloatParse.Z_of_digits String.length].
    replace (10 * (a + b) + (code c - 48))
      with (10 * a + (10 * b + (code c - 48))) by lia.
    rewrite IH, Nat2Z.inj_succ, Z.pow_succ_r by lia. lia.
Qed.

Lemma digits_of_value (fuel : nat) :
  forall n acc, 0 <= n < 2 ^ Z.of_nat fuel ->
    FloatParse.Z_of_digits 0 (digits_of fuel n acc)
      = n * 10 ^ Z.of_nat (String.length acc) + FloatParse.Z_of_digits 0 acc.
Proof.
  induction fuel as [|fuel IH]; intros n acc Hn.
  - simpl in *. replace n with 0 by lia. lia.
  - rewrite Nat2Z.inj_succ, Z.pow_succ_r in Hn by lia.
    pose proof (Z.mod_pos_bound n 10 ltac:(lia)) as Hm.
    pose proof (Z.div_mod n 10 ltac:(lia)) as Hdm.
    assert (Hstep : FloatParse.Z_of_digits 0 (String (digit_char (n mod 10)) acc)
                    = n mod 10 * 10 ^ Z.of_nat (String.length acc)
                      + FloatParse.Z_of_digits 0 acc).
    { cbn [FloatParse.Z_of_digits]. rewrite code_digit_char by lia.
      replace (10 * 0 + n mod 10) with (n mod 10 + 0) by lia.
      apply Z_of_digits_shift. }
    cbn [digits_of]. destruct (n <? 10) eqn:E.
    + apply Z.ltb_lt in E. rewrite Hstep, Z.mod_small by lia. reflexivity.
    + apply Z.ltb_ge in E.
      rewrite IH, Hstep.
      * cbn [String.length]. rewrite Nat2Z.inj_succ, Z.pow_succ_r by lia. lia.
      * split; [apply Z.div_pos; lia|].
        apply Z.div_lt_upper_bound; lia.
Qed.

(** [string_of_Z] writes the decimal numeral of its argument: reading the
    digits back gives the number. *)
Lemma string_of_Z_value (n : Z) :
  0 <= n -> FloatParse.Z_of_digits 0 (string_of_Z n) = n.
Proof.
  intros Hn. unfold string_of_Z.
  destruct (n <? 0) eqn:E; [apply Z.ltb_lt in E; lia|].
  rewrite Z.abs_eq by lia.
  rewrite digits_of_value.
  - simpl. lia.
  - rewrite Nat2Z.inj_succ, Z2Nat.id by apply Z.log2_nonneg.
    destruct (Z.eq_dec n 0) as [->|Hnz]; [simpl; lia|].
    pose proof (Z.log2_spec n ltac:(lia)). lia.
Qed.

Lemma div_half_even_nonneg (n d : Z) :
  0 <= n -> 0 < d -> 0 <= F.div_half_even n d.
Proof.
  intros Hn Hd. unfold F.div_half_even.
  pose proof (Z.div_pos n d Hn Hd).
  destruct (2 * (n mod d) ?= d); [destruct (Z.even (n / d))| |]; lia.
Qed.

Lemma scaled_half_even_nonneg (m : positive) (e scale : Z) :
  0 <= scale -> 0 <= F.scaled_half_even m e scale.
Proof.
  intros Hs. unfold F.scaled_half_even.
  destruct (0 <=? e) eqn:E.
  - apply Z.leb_le in E. apply Z.mul_nonneg_nonneg; [|exact Hs].
    apply Z.mul_nonneg_nonneg; [lia | apply Z.pow_nonneg; lia].
  - apply Z.leb_gt in E. apply div_half_even_nonneg; [nia|].
    apply Z.pow_pos_nonneg; lia.
Qed.

(** [f"{x:.2f}"] of a finite float: an optional minus sign, digits, a point
    and exactly two digits. *)
Lemma format_fixed_two_decimals (x : F.float) :
  F.is_finite x ->
  exists sign ip d1 d2,
    format_fixed x 2 = sign ++ ip ++ String "." (String d1 (String d2 EmptyString)) /\
    (sign = EmptyString \/ sign = "-") /\
    ip <> EmptyString /\ all_digits ip = true /\
    is_digit d1 = true /\ is_digit d2 = true.
Proof.
  intros Hfin.
  assert (Hrender : forall (s : bool) (k : Z), 0 <= k ->
    exists ip d1 d2,
      string_of_Z (k / 100) ++ String "." (fraction_digits 2 (k mod 100))
        = ip ++ String "." (String d1 (String d2 EmptyString)) /\
      ip <> EmptyString /\ all_digits ip = true /\
      is_digit d1 = true /\ is_digit d2 = true).
  { intros s k Hk.
    destruct (string_of_Z_shape (k / 100)) as (sg & ip & Heq & _ & Hsg & Hne & Hall).
    assert (Hq : 0 <= k / 100) by (apply Z.div_pos; lia).
    rewrite (proj2 Hsg Hq) in Heq. simpl in Heq.
    exists ip, (digit_char ((k mod 100) / 10 mod 10)),
           (digit_char ((k mod 100) mod 10)).
    rewrite Heq. repeat split; auto using is_digit_last. }
  destruct x as [s|s| |s m e]; try contradiction.
  - destruct (Hrender s 0 ltac:(lia)) as (ip & d1 & d2 & Heq & H).
    exists (if s then "-" else EmptyString), ip, d1, d2.
    split; [|split; [destruct s; auto | exact H]].
    unfold format_fixed. change (10 ^ Z.of_nat 2) with 100.
    rewrite Heq. reflexivity.
  - destruct (Hrender s (F.scaled_half_even m e 100)
                (scaled_half_even_nonneg m e 100 ltac:(lia)))
      as (ip & d1 & d2 & Heq & H).
    exists (if s then "-" else EmptyString), ip, d1, d2.
    split; [|split; [destruct s; auto | exact H]].
    unfold format_fixed. change (10 ^ Z.of_nat 2) with 100.
    rewrite Heq. reflexivity.
Qed.

Lemma mod_one_integer (x : F.float) :
  F.is_finite x -> has_fraction x = false ->
  F.eqb (F.mod_one x) F.zero = true.
Proof.
  destruct x as [s|s| |s m e]; simpl; intros Hfin Hfrac; try contradiction.
  - reflexivity.
  - unfold F.mod_one, F.fmod_one.
    destruct (0 <=? e) eqn:E0; [reflexivity|].
    apply Z.leb_gt in E0. apply Z.ltb_lt in E0. rewrite E0 in Hfrac.
    simpl in Hfrac. apply negb_false_iff in Hfrac. rewrite Hfrac. reflexivity.
Qed.

Lemma digit_char_nonzero (d : Z) :
  1 <= d <= 9 -> Ascii.eqb (digit_char d) "0" = false.
Proof.
  intros H.
  assert (Hd : d = 1 \/ d = 2 \/ d = 3 \/ d = 4 \/ d = 5 \/ d = 6 \/
               d = 7 \/ d = 8 \/ d = 9) by lia.
  repeat (destruct Hd as [->|Hd]; [reflexivity|]). subst d. reflexivity.
Qed.

Lemma digits_of_head (fuel : nat) :
  forall n acc, 0 < n < 2 ^ Z.of_nat fuel ->
    exists c r, digits_of fuel n acc = String c r /\ Ascii.eqb c "0" = false.
Proof.
  induction fuel as [|fuel IH]; intros n acc Hn.
  - simpl in Hn. lia.
  - cbn [digits_of]. destruct (n <? 10) eqn:E.
    + apply Z.ltb_lt in E. exists (digit_char (n mod 10)), acc.
      split; [reflexivity|]. rewrite Z.mod_small by lia.
      apply digit_char_nonzero. lia.
    + apply Z.ltb_ge in E. apply IH.
      rewrite Nat2Z.inj_succ, Z.pow_succ_r in Hn by lia.
      split.
      * apply Z.div_str_pos. lia.
      * apply Z.div_lt_upper_bound; lia.
Qed.

Lemma log2_fuel (m : Z) : 0 <= m -> m < 2 ^ Z.of_nat (S (Z.to_nat (Z.log2 m))).
Proof.
  intros Hm. rewrite Nat2Z.inj_succ, Z2Nat.id by apply Z.log2_nonneg.
  destruct (Z.eq_dec m 0) as [->|Hnz]; [reflexivity|].
  apply Z.log2_spec. lia.
Qed.

(** The numeral of an integer: an optional minus sign, then the digits of
    its magnitude without a redundant leading zero. *)
Lemma string_of_Z_canonical (n : Z) :
  exists ip,
    string_of_Z n = (if n <? 0 then "-" else EmptyString) ++ ip /\
    ip <> EmptyString /\ all_digits ip = true /\
    no_leading_zero ip = true /\
    FloatParse.Z_of_digits 0 ip = Z.abs n.
Proof.
  pose proof (string_of_Z_value (Z.abs n) (Z.abs_nonneg n)) as Hval.
  unfold string_of_Z in *. rewrite Z.abs_idemp in Hval.
  set (m := Z.abs n) in *.
  set (ds := digits_of (S (Z.to_nat (Z.log2 m))) m EmptyString) in *.
  assert (Hm : 0 <= m) by apply Z.abs_nonneg.
  destruct (m <? 0) eqn:Em; [apply Z.ltb_lt in Em; lia|].
  assert (Hne : ds <> EmptyString).
  { unfold ds. simpl. destruct (m <? 10); [discriminate|].
    apply digits_of_nonempty. discriminate. }
  assert (Hall : all_digits ds = true)
    by (apply digits_of_all_digits; reflexivity).
  assert (Hlz : no_leading_zero ds = true).
  { destruct (Z.eq_dec m 0) as [E0|Hnz].
    - unfold ds. rewrite E0. reflexivity.
    - destruct (digits_of_head (S (Z.to_nat (Z.log2 m))) m EmptyString)
        as (c & r & Hd & Hc); [pose proof (log2_fuel m Hm); lia|].
      fold ds in Hd. rewrite Hd. unfold no_leading_zero.
      destruct r; [reflexivity | rewrite Hc; reflexivity]. }
  exists ds. destruct (n <? 0); repeat split; assumption.
Qed.

Lemma Z_of_digits_append (x y : string) (a : Z) :
  FloatParse.Z_of_digits a (x ++ y)
    = FloatParse.Z_of_digits (FloatParse.Z_of_digits a x) y.
Proof.
  revert a. induction x as [|c x IH]; intros a; simpl; [reflexivity | apply IH].
Qed.

(** Rounding a quotient to the nearest integer, ties to even. *)
Lemma div_half_even_nearest (n d : Z) :
  0 <= n -> 0 < d ->
  let k := F.div_half_even n d in
  Z.abs (2 * (n - k * d)) <= d /\
  (Z.abs (2 * (n - k * d)) = d -> Z.even k = true).
Proof.
  intros Hn Hd. unfold F.div_half_even.
  pose proof (Z.div_mod n d ltac:(lia)) as Hdm.
  pose proof (Z.mod_pos_bound n d Hd) as Hr.
  set (q := n / d) in *. set (r := n mod d) in *.
  destruct (Z.compare_spec (2 * r) d) as [He|Hl|Hg]; cbv zeta.
  - destruct (Z.even q) eqn:Eq.
    + split; [nia | intros _; exact Eq].
    + split; [nia|]. intros _. rewrite Z.add_1_r, Z.even_succ, <- Z.negb_even, Eq.
      reflexivity.
  - split; [nia | nia].
  - split; [nia | nia].
Qed.

Lemma scaled_half_even_hundredths (s : bool) (m : positive) (e : Z) :
  hundredths (S754_finite s m e) (F.scaled_half_even m e 100).
Proof.
  unfold hundredths, F.scaled_half_even. cbv zeta.
  destruct (0 <=? e) eqn:E.
  - apply Z.leb_le in E.
    rewrite (Z.max_r 0 e), (Z.max_l 0 (- e)) by lia.
    change (2 ^ 0) with 1.
    replace (100 * Z.pos m * 2 ^ e - Z.pos m * 2 ^ e * 100 * 1) with 0 by lia.
    split; [simpl; lia | simpl; lia].
  - apply Z.leb_gt in E.
    rewrite (Z.max_l 0 e), (Z.max_r 0 (- e)) by lia.
    change (2 ^ 0) with 1.
    replace (100 * Z.pos m * 1) with (Z.pos m * 100) by lia.
    apply div_half_even_nearest; [lia|].
    apply Z.pow_pos_nonneg; lia.
Qed.

(** The text of [f"{x:.2f}"] for a finite float: its digits read as the
    number of hundredths nearest to the magnitude of [x]. *)
Lemma format_fixed_hundredths (s : bool) (m : positive) (e : Z) :
  exists ip d1 d2,
    format_fixed (S754_finite s m e) 2
      = (if s then "-" else EmptyString) ++ ip ++
        String "." (String d1 (String d2 EmptyString)) /\
    ip <> EmptyString /\ all_digits ip = true /\ no_leading_zero ip = true /\
    is_digit d1 = true /\ is_digit d2 = true /\
    FloatParse.Z_of_digits 0 (ip ++ String d1 (String d2 EmptyString))
      = F.scaled_half_even m e 100.
Proof.
  set (k := F.scaled_half_even m e 100).
  assert (Hk : 0 <= k) by (apply scaled_half_even_nonneg; lia).
  assert (Hq : 0 <= k / 100) by (apply Z.div_pos; lia).
  pose proof (Z.mod_pos_bound k 100 ltac:(lia)) as Hr.
  pose proof (Z.div_mod k 100 ltac:(lia)) as Hdm.
  destruct (string_of_Z_canonical (k / 100)) as (ip & Heq & Hne & Hall & Hlz & Hval).
  destruct (k / 100 <? 0) eqn:Eneg; [apply Z.ltb_lt in Eneg; lia|].
  cbn [String.append] in Heq. rewrite Z.abs_eq in Hval by lia.
  set (r := k mod 100) in *.
  exists ip, (digit_char (r / 10 mod 10)), (digit_char (r mod 10)).
  assert (H1 : 0 <= r / 10 mod 10 <= 9)
    by (pose proof (Z.mod_pos_bound (r / 10) 10 ltac:(lia)); lia).
  assert (H2 : 0 <= r mod 10 <= 9)
    by (pose proof (Z.mod_pos_bound r 10 ltac:(lia)); lia).
  split; [|repeat split; auto using is_digit_digit_char].
  - unfold format_fixed. change (10 ^ Z.of_nat 2) with 100.
    fold k. fold r. rewrite Heq. reflexivity.
  - rewrite Z_of_digits_append, Hval. cbn [FloatParse.Z_of_digits].
    rewrite !code_digit_char by assumption.
    pose proof (Z.div_mod r 10 ltac:(lia)) as Hr10.
    assert (Hsmall : r / 10 mod 10 = r / 10).
    { apply Z.mod_small. split; [apply Z.div_pos; lia|].
      apply Z.div_lt_upper_bound; lia. }
    rewrite Hsmall. lia.
Qed.

Lemma trunc_integer_value (x : F.float) :
  F.is_finite x -> has_fraction x = false ->
  exists n, F.trunc x = Ok n /\ integer_value x n.
Proof.
  destruct x as [s|s| |s m e]; try contradiction; intros _ Hfrac.
  - exists 0. split; reflexivity.
  - cbn [F.trunc]. eexists. split; [reflexivity|].
    unfold integer_value, has_fraction in *.
    set (k := if 0 <=? e then Z.pos m * 2 ^ e else Z.pos m / 2 ^ (- e)).
    replace (if s then - (if s then - k else k) else if s then - k else k)
      with k by (destruct s; lia).
    unfold k. destruct (0 <=? e) eqn:E.
    + apply Z.leb_le in E. rewrite (Z.max_r 0 e), (Z.max_l 0 (- e)) by lia.
      change (2 ^ 0) with 1. lia.
    + apply Z.leb_gt in E. rewrite (Z.max_l 0 e), (Z.max_r 0 (- e)) by lia.
      change (2 ^ 0) with 1.
      assert (El : (e <? 0) = true) by (apply Z.ltb_lt; lia).
      rewrite El in Hfrac. cbn [andb] in Hfrac.
      apply negb_false_iff, Z.eqb_eq in Hfrac.
      assert (Hd : 0 < 2 ^ (- e)) by (apply Z.pow_pos_nonneg; lia).
      pose proof (Z.div_mod (Z.pos m) (2 ^ (- e)) ltac:(lia)) as Hdm.
      rewrite Hfrac in Hdm. lia.
Qed.

(** C9: format_amount renders an amount.  A float with a non-zero fractional
    part is printed with exactly two decimals: a minus sign when it is
    negative, then the digits, without a redundant leading zero, of the
    number of hundredths nearest to its magnitude (ties to even), with a
    point before the last two.  A float without a fractional part is printed
    as the plain numeral of the integer it equals, and so is an int, up to
    the interpreter's limit of 4300 digits for str; that numeral is an
    optional minus sign followed by digits only.  format_amount(2286) is
    "2286" and format_amount(2286.09) is "2286.09". *)
Theorem format_amount_decimals :
  (forall x, valid_binary F.prec F.emax x = true -> has_fraction x = true ->
     exists ip d1 d2 k,
       format_amount (Float x)
         = Ok ((if F.ltb x F.zero then "-" else EmptyString) ++ ip ++
               String "." (String d1 (String d2 EmptyString))) /\
       ip <> EmptyString /\ all_digits ip = true /\ no_leading_zero ip = true /\
       is_digit d1 = true /\ is_digit d2 = true /\
       FloatParse.Z_of_digits 0 (ip ++ String d1 (String d2 EmptyString)) = k /\
       hundredths x k) /\
  (forall x, F.is_finite x -> has_fraction x = false ->
     exists n, F.trunc x = Ok n /\ integer_value x n /\
               format_amount (Float x) = Ok (string_of_Z n)) /\
  (forall n, Z.abs n < 10 ^ max_str_digits ->
     format_amount (Int n) = Ok (string_of_Z n)) /\
  (forall n, exists ip,
     string_of_Z n = (if n <? 0 then "-" else EmptyString) ++ ip /\
     ip <> EmptyString /\ all_digits ip = true /\ no_leading_zero ip = true /\
     FloatParse.Z_of_digits 0 ip = Z.abs n) /\
  format_amount (Int 2286) = Ok "2286" /\
  format_amount (Float (F.of_decimal false 228609 (-2))) = Ok "2286.09".
Proof.
  split; [|split; [|split; [|split; [|split]]]].
  - intros x Hv Hfrac.
    destruct x as [s|s| |s m e]; try discriminate Hfrac.
    pose proof Hfrac as Hfrac'.
    simpl in Hfrac. apply andb_true_iff in Hfrac. destruct Hfrac as [He Hr].
    apply Z.ltb_lt in He. apply negb_true_iff, Z.eqb_neq in Hr.
    destruct (format_fixed_hundredths s m e)
      as (ip & d1 & d2 & Heq & Hne & Hall & Hlz & H1 & H2 & Hval).
    exists ip, d1, d2, (F.scaled_half_even m e 100).
    split; [|repeat split; auto using scaled_half_even_hundredths;
             apply (scaled_half_even_hundredths s m e)].
    unfold format_amount.
    rewrite (FloatFacts.mod_one_fraction s m e Hv He Hr). simpl negb. cbv iota.
    rewrite Heq. destruct s; reflexivity.
  - intros x Hfin Hfrac. unfold format_amount.
    rewrite (mod_one_integer x Hfin Hfrac). simpl negb. cbv iota.
    destruct (trunc_integer_value x Hfin Hfrac) as (n & Hn & Hv).
    exists n. rewrite Hn. repeat split; assumption.
  - intros n Hn. unfold format_amount, str_int. rewrite Z.mod_1_r.
    apply Z.ltb_lt in Hn. simpl negb. cbv iota. rewrite Hn. reflexivity.
  - intros n. apply string_of_Z_canonical.
  - vm_compute. reflexivity.
  - vm_compute. reflexivity.
Qed.

Lemma format_amount_decimals_witness :
  (exists s, format_amount (Float (F.of_decimal true 5 (-1))) = Ok s) /\
  format_amount (Float (F.nearest_Z 2286)) = Ok "2286" /\
  format_amount (Int (-2286)) = Ok "-2286".
Proof.
  destruct format_amount_decimals as (Hfrac & Hint & Hz & _).
  split; [|split].
  - destruct (Hfrac (F.of_decimal true 5 (-1)) eq_refl eq_refl)
      as (ip & d1 & d2 & k & Heq & _).
    eexists. exact Heq.
  - destruct (Hint (F.nearest_Z 2286) I eq_refl) as (n & Hn & _ & Heq).
    vm_compute in Hn. injection Hn as <-. exact Heq.
  - apply (Hz (-2286)). vm_compute. reflexivity.
Defined.

(** ** Number to words: the whole domain *)

Module WordsDomain.
Import Words WordsFacts.

Lemma groups_bounds_crores (n : Z) :
  0 <= n <= 9999999999 ->
  let '(crore, lakh, thousand, rest) := groups n in
  0 <= crore <= 999 /\ 0 <= lakh <= 99 /\ 0 <= thousand <= 99 /\
  0 <= rest <= 999.
Proof.
  intros Hn. unfold groups.
  pose proof (Z.mod_pos_bound n 10000000 ltac:(lia)) as H1.
  pose proof (Z.mod_pos_bound (n mod 10000000) 100000 ltac:(lia)) as H2.
  pose proof (Z.mod_pos_bound ((n mod 10000000) mod 100000) 1000 ltac:(lia))
    as H3.
  repeat split; try lia.
  - apply Z.div_pos; lia.
  - apply Z.lt_succ_r. apply Z.div_lt_upper_bound; lia.
  - apply Z.div_pos; lia.
  - apply Z.lt_succ_r. apply Z.div_lt_upper_bound; lia.
  - apply Z.div_pos; lia.
  - apply Z.lt_succ_r. apply Z.div_lt_upper_bound; lia.
Qed.

Lemma convert_below_thousand_out_of_range (g : Z) :
  1000 <= g -> convert_below_thousand g = Raise IndexError.
Proof.
  intros Hg. unfold convert_below_thousand, call_depth.
  rewrite convert_below_thousand_at_S.
  destruct (g =? 0) eqn:E0; [apply Z.eqb_eq in E0; lia|].
  destruct (g <? 10) eqn:E1; [apply Z.ltb_lt in E1; lia|].
  destruct (g <? 20) eqn:E2; [apply Z.ltb_lt in E2; lia|].
  destruct (g <? 100) eqn:E3; [apply Z.ltb_lt in E3; lia|].
  assert (H : 10 <= g / 100) by (apply Z.div_le_lower_bound; lia).
  unfold py_index. simpl List.length.
  destruct (g / 100 <? 0) eqn:E4; [apply Z.ltb_lt in E4; lia|].
  destruct (Z.of_nat 10 <=? g / 100) eqn:E5; [|apply Z.leb_gt in E5; lia].
  rewrite orb_true_r. reflexivity.
Qed.

Lemma number_to_words_too_large (n : Z) :
  10000000000 <= n -> number_to_words n = Raise IndexError.
Proof.
  intros Hn. unfold number_to_words.
  destruct (n =? 0) eqn:E0; [apply Z.eqb_eq in E0; lia|].
  assert (Hc : 1000 <= n / 10000000) by (apply Z.div_le_lower_bound; lia).
  assert (Ha : append_group (n / 10000000) " Crore" [] = Raise IndexError).
  { unfold append_group.
    destruct (n / 10000000 =? 0) eqn:Ec; [apply Z.eqb_eq in Ec; lia|].
    rewrite (convert_below_thousand_out_of_range _ Hc). reflexivity. }
  unfold groups. rewrite Ha. reflexivity.
Qed.

(** X1: number_to_words succeeds exactly up to 9,999,999,999: on
    [0, 9999999999] it returns a well-spaced phrase, and from
    10,000,000,000 on it raises IndexError. *)
Theorem number_to_words_domain (n : Z) :
  (0 <= n <= 9999999999 ->
   exists s, number_to_words n = Ok s /\ well_spaced s = true) /\
  (10000000000 <= n -> number_to_words n = Raise IndexError).
Proof.
  split.
  - intros Hn. unfold number_to_words.
    destruct (n =? 0) eqn:E0; [exists "Zero"; split; reflexivity|].
    apply Z.eqb_neq in E0.
    pose proof (groups_bounds_crores n Hn) as Hb.
    pose proof (groups_sum n) as Hsum.
    destruct (groups n) as [[[crore lakh] thousand] rest].
    destruct Hb as (Hc & Hl & Ht & Hr).
    destruct (append_group_spaced crore "Crore" [] Hc eq_refl (Forall_nil _))
      as (r1 & E1 & F1 & N1).
    destruct (append_group_spaced lakh "Lakh" r1 ltac:(lia) eq_refl F1)
      as (r2 & E2 & F2 & N2).
    destruct (append_group_spaced thousand "Thousand" r2 ltac:(lia) eq_refl F2)
      as (r3 & E3 & F3 & N3).
    change (String space "Crore") with " Crore" in E1.
    change (String space "Lakh") with " Lakh" in E2.
    change (String space "Thousand") with " Thousand" in E3.
    rewrite E1; simpl. rewrite E2; simpl. rewrite E3; simpl.
    destruct (rest =? 0) eqn:Er.
    + simpl. eexists. split; [reflexivity|].
      apply well_spaced_join; [|exact F3].
      apply Z.eqb_eq in Er.
      apply N3. destruct (Z.eq_dec thousand 0) as [Ht0|]; [|left; assumption].
      right. apply N2. destruct (Z.eq_dec lakh 0) as [Hl0|]; [|left; assumption].
      right. apply N1. left. lia.
    + apply Z.eqb_neq in Er.
      destruct (convert_below_thousand_spaced rest ltac:(lia)) as (w & Hw & Hs).
      rewrite Hw. simpl. eexists. split; [reflexivity|].
      apply well_spaced_join.
      * unfold append. destruct r3; discriminate.
      * unfold append. apply Forall_app. split; [assumption|].
        constructor; [assumption | constructor].
  - apply number_to_words_too_large.
Qed.

Lemma number_to_words_domain_witness :
  (exists s, number_to_words 9999999999 = Ok s /\ well_spaced s = true) /\
  number_to_words 10000000000 = Raise IndexError.
Proof.
  split.
  - exact (proj1 (number_to_words_domain 9999999999) ltac:(lia)).
  - exact (proj2 (number_to_words_domain 10000000000) ltac:(lia)).
Defined.

Lemma append_group_keeps_head (g : Z) (suffix h : string) (tl : list string) :
  0 <= g <= 999 ->
  exists tl', append_group g suffix (h :: tl) = Ok (h :: tl').
Proof.
  intros Hg. unfold append_group. destruct (g =? 0) eqn:E.
  - exists tl. reflexivity.
  - apply Z.eqb_neq in E.
    destruct (convert_below_thousand_spaced g ltac:(lia)) as (w & Hw & _).
    rewrite Hw. simpl. eexists. reflexivity.
Qed.

Lemma join_head_space (sep t : string) (tl : list string) :
  exists s, join sep (String space t :: tl) = String space s.
Proof. destruct tl; simpl; eexists; reflexivity. Qed.

(** X2: a negative number is not rejected.  From -90,000,000 to -1 it is
    rendered as the number 100,000,000 larger; from -100,000,000 to
    -90,000,001 the phrase starts with a space; below that the call raises
    IndexError. *)
Theorem number_to_words_negative (n : Z) :
  (-90000000 <= n <= -1 ->
   number_to_words n = number_to_words (n + 100000000)) /\
  (-100000000 <= n < -90000000 ->
   exists s, number_to_words n = Ok (String space s)) /\
  (n < -100000000 -> number_to_words n = Raise IndexError).
Proof.
  assert (Hg : groups (n + 100000000)
               = let '(c, l, t, r) := groups n in (c + 10, l, t, r)).
  { unfold groups. replace (n + 100000000) with (n + 10 * 10000000) by lia.
    rewrite Z.div_add, Z.mod_add by lia. reflexivity. }
  pose proof (Z.mod_pos_bound n 10000000 ltac:(lia)) as H1.
  pose proof (Z.mod_pos_bound (n mod 10000000) 100000 ltac:(lia)) as H2.
  pose proof (Z.mod_pos_bound ((n mod 10000000) mod 100000) 1000 ltac:(lia))
    as H3.
  pose proof (Z.div_mod n 10000000 ltac:(lia)) as Hdm.
  split; [|split].
  - intros Hn. unfold number_to_words. rewrite Hg.
    destruct (n =? 0) eqn:E0; [apply Z.eqb_eq in E0; lia|].
    destruct (n + 100000000 =? 0) eqn:E1; [apply Z.eqb_eq in E1; lia|].
    unfold groups.
    set (c := n / 10000000) in *.
    assert (Hc : c = -9 \/ c = -8 \/ c = -7 \/ c = -6 \/ c = -5 \/ c = -4 \/
                 c = -3 \/ c = -2 \/ c = -1) by lia.
    assert (Ha : append_group c " Crore" [] = append_group (c + 10) " Crore" []).
    { clearbody c.
      repeat (destruct Hc as [->|Hc]; [reflexivity|]). subst c. reflexivity. }
    rewrite Ha. reflexivity.
  - intros Hn. unfold number_to_words.
    destruct (n =? 0) eqn:E0; [apply Z.eqb_eq in E0; lia|].
    unfold groups.
    assert (Hc : n / 10000000 = -10) by lia.
    rewrite Hc.
    change (append_group (-10) " Crore" []) with (Ok [" Crore"]).
    cbn [bind].
    set (l := n mod 10000000 / 100000).
    set (t := n mod 10000000 mod 100000 / 1000).
    set (r := n mod 10000000 mod 100000 mod 1000).
    assert (Hl : 0 <= l <= 999).
    { unfold l. split; [apply Z.div_pos; lia|].
      apply Z.lt_succ_r, Z.div_lt_upper_bound; lia. }
    assert (Ht : 0 <= t <= 999).
    { unfold t. split; [apply Z.div_pos; lia|].
      apply Z.lt_succ_r, Z.div_lt_upper_bound; lia. }
    destruct (append_group_keeps_head l " Lakh" " Crore" [] Hl) as (tl1 & E1).
    rewrite E1. cbn [bind].
    destruct (append_group_keeps_head t " Thousand" " Crore" tl1 Ht) as (tl2 & E2).
    rewrite E2. cbn [bind].
    destruct (r =? 0) eqn:Er; cbn [bind].
    + destruct (join_head_space " " "Crore" tl2) as (s & Hs).
      exists s. f_equal. exact Hs.
    + apply Z.eqb_neq in Er.
      destruct (convert_below_thousand_spaced r ltac:(unfold r in *; lia))
        as (w & Hw & _).
      rewrite Hw. cbn [bind]. unfold append.
      destruct (join_head_space " " "Crore" (tl2 ++ [w])%list) as (s & Hs).
      exists s. f_equal. exact Hs.
  - intros Hn. unfold number_to_words.
    destruct (n =? 0) eqn:E0; [apply Z.eqb_eq in E0; lia|].
    assert (Hc : n / 10000000 <= -11) by lia.
    assert (Ha : append_group (n / 10000000) " Crore" [] = Raise IndexError).
    { unfold append_group.
      destruct (n / 10000000 =? 0) eqn:Ec; [apply Z.eqb_eq in Ec; lia|].
      unfold convert_below_thousand, call_depth.
      rewrite convert_below_thousand_at_S. rewrite Ec.
      destruct (n / 10000000 <? 10) eqn:E1; [|apply Z.ltb_ge in E1; lia].
      unfold py_index. simpl List.length.
      destruct (n / 10000000 <? 0) eqn:E2; [|apply Z.ltb_ge in E2; lia].
      destruct (n / 10000000 + Z.of_nat 10 <? 0) eqn:E3;
        [reflexivity | apply Z.ltb_ge in E3; lia]. }
    unfold groups. rewrite Ha. reflexivity.
Qed.

Lemma number_to_words_negative_witness :
  number_to_words (-5) = number_to_words 99999995 /\
  (exists s, number_to_words (-95000000) = Ok (String space s)) /\
  number_to_words (-100000001) = Raise IndexError.
Proof.
  split; [|split].
  - exact (proj1 (number_to_words_negative (-5)) ltac:(lia)).
  - exact (proj1 (proj2 (number_to_words_negative (-95000000))) ltac:(lia)).
  - exact (proj2 (proj2 (number_to_words_negative (-100000001))) ltac:(lia)).
Defined.

(** *** Reading the phrases back *)

Import WordsRef.

Lemma split_spaces_nonempty (s : string) : split_spaces s <> [].
Proof.
  destruct s as [|c r]; simpl; [discriminate|].
  destruct (Ascii.eqb c space); [discriminate|].
  destruct (split_spaces r); discriminate.
Qed.

Lemma split_spaces_app (a b : string) :
  split_spaces (a ++ String space b) = (split_spaces a ++ split_spaces b)%list.
Proof.
  induction a as [|c a IH]; simpl.
  - reflexivity.
  - destruct (Ascii.eqb c space); [rewrite IH; reflexivity|].
    rewrite IH. pose proof (split_spaces_nonempty a) as Hne.
    destruct (split_spaces a) as [|h t]; [congruence | reflexivity].
Qed.

Lemma read_words_app (a b : list string) (st : Z * Z) :
  read_words (a ++ b) st =
  match read_words a st with
  | Some st' => read_words b st'
  | None => None
  end.
Proof.
  revert st. induction a as [|w a IH]; intros st; simpl; [reflexivity|].
  destruct (step st w); [apply IH | reflexivity].
Qed.

Lemma read_from_app (a b : string) (st : Z * Z) :
  read_from st (a ++ String space b) =
  match read_from st a with
  | Some st' => read_from st' b
  | None => None
  end.
Proof. unfold read_from. rewrite split_spaces_app. apply read_words_app. Qed.

Lemma step_shift (a t c : Z) (w : string) :
  step (t + a, c) w = shift a (step (t, c) w).
Proof.
  unfold step.
  repeat match goal with
         | |- context [String.eqb w ?k] => destruct (String.eqb w k)
         end; simpl; try (f_equal; f_equal; lia).
  destruct (word_value w); reflexivity.
Qed.

Lemma read_words_shift (ws : list string) (a t c : Z) :
  read_words ws (t + a, c) = shift a (read_words ws (t, c)).
Proof.
  revert t c. induction ws as [|w ws IH]; intros t c; cbn [read_words];
    [reflexivity|].
  rewrite step_shift. destruct (step (t, c) w) as [[t' c']|]; simpl;
    [apply IH | reflexivity].
Qed.

Lemma groups_read_back : forallb group_reads_back (seq 1 999) = true.
Proof. vm_compute. reflexivity. Qed.

Lemma group_read (k : Z) :
  1 <= k <= 999 ->
  exists w, convert_below_thousand k = Ok w /\
            forall t, read_from (t, 0) w = Some (t, k).
Proof.
  intros Hk.
  pose proof (proj1 (forallb_forall group_reads_back (seq 1 999))
                groups_read_back (Z.to_nat k)) as H.
  unfold group_reads_back in H. rewrite Z2Nat.id in H by lia.
  specialize (H ltac:(apply in_seq; lia)).
  destruct (convert_below_thousand k) as [w|e]; [|discriminate H].
  exists w. split; [reflexivity|]. intros t.
  destruct (read_from (0, 0) w) as [[t0 c0]|] eqn:E; [|discriminate H].
  apply andb_true_iff in H. destruct H as [H0 Hc].
  apply Z.eqb_eq in H0. apply Z.eqb_eq in Hc. subst t0 c0.
  unfold read_from in *.
  pose proof (read_words_shift (split_spaces w) t 0 0) as Hs.
  rewrite E in Hs. simpl in Hs. exact Hs.
Qed.

Lemma string_app_assoc (a b c : string) :
  ((a ++ b) ++ c = a ++ (b ++ c))%string.
Proof. induction a as [|x a IH]; simpl; [reflexivity | rewrite IH; reflexivity]. Qed.

Lemma join_snoc (sep p q : string) (acc : list string) :
  join sep ((p :: acc) ++ [q]) = (join sep (p :: acc) ++ sep ++ q)%string.
Proof.
  revert p. induction acc as [|a acc IH]; intros p.
  - reflexivity.
  - change (join sep ((p :: a :: acc) ++ [q]))
      with (p ++ sep ++ join sep ((a :: acc) ++ [q]))%string.
    rewrite IH.
    change (join sep (p :: a :: acc)) with (p ++ sep ++ join sep (a :: acc))%string.
    rewrite !string_app_assoc. reflexivity.
Qed.

Lemma reads_snoc (acc : list string) (T : Z) (p : string) (st : Z * Z) :
  reads acc T -> read_from (T, 0) p = Some st ->
  read_from (0, 0) (join " " (append acc p)) = Some st.
Proof.
  intros Hacc Hp. unfold append. destruct acc as [|a acc].
  - simpl in Hacc. subst T. exact Hp.
  - rewrite join_snoc.
    change (" " ++ p)%string with (String space p).
    rewrite read_from_app.
    change (read_from (0, 0) (join " " (a :: acc)) = Some (T, 0)) in Hacc.
    rewrite Hacc. exact Hp.
Qed.

Lemma append_group_reads (g mag : Z) (suffix : string) (acc : list string) (T : Z) :
  0 <= g <= 999 ->
  (forall t c, read_from (t, c) suffix = Some (t + c * mag, 0)) ->
  reads acc T ->
  exists acc', append_group g (String space suffix) acc = Ok acc' /\
               reads acc' (T + g * mag).
Proof.
  intros Hg Hsuf Hacc. unfold append_group. destruct (g =? 0) eqn:E.
  - apply Z.eqb_eq in E. subst g. exists acc. split; [reflexivity|].
    replace (T + 0 * mag) with T by lia. exact Hacc.
  - apply Z.eqb_neq in E.
    destruct (group_read g ltac:(lia)) as (w & Hw & Hread).
    rewrite Hw. simpl. eexists. split; [reflexivity|].
    assert (Hp : read_from (T, 0) (w ++ String space suffix)
                 = Some (T + g * mag, 0)).
    { rewrite read_from_app, Hread. apply Hsuf. }
    pose proof (reads_snoc acc T _ _ Hacc Hp) as H.
    unfold reads. destruct (append acc (w ++ String space suffix)) eqn:Ea;
      [unfold append in Ea; destruct acc; discriminate Ea | exact H].
Qed.

Lemma number_to_words_reads_back (k : Z) :
  0 <= k <= 9999999999 ->
  exists s, number_to_words k = Ok s /\ words_to_number s = Some k.
Proof.
  intros Hk. unfold number_to_words.
  destruct (k =? 0) eqn:E0;
    [apply Z.eqb_eq in E0; subst k; exists "Zero"; split; reflexivity|].
  apply Z.eqb_neq in E0.
  pose proof (groups_bounds_crores k Hk) as Hb.
  pose proof (groups_sum k) as Hsum.
  destruct (groups k) as [[[crore lakh] thousand] rest].
  destruct Hb as (Hc & Hl & Ht & Hr).
  destruct (append_group_reads crore 10000000 "Crore" [] 0 Hc
              ltac:(reflexivity) eq_refl) as (r1 & E1 & R1).
  destruct (append_group_reads lakh 100000 "Lakh" r1 _ ltac:(lia)
              ltac:(reflexivity) R1) as (r2 & E2 & R2).
  destruct (append_group_reads thousand 1000 "Thousand" r2 _ ltac:(lia)
              ltac:(reflexivity) R2) as (r3 & E3 & R3).
  change (String space "Crore") with " Crore" in E1.
  change (String space "Lakh") with " Lakh" in E2.
  change (String space "Thousand") with " Thousand" in E3.
  rewrite E1; cbn [bind]. rewrite E2; cbn [bind]. rewrite E3; cbn [bind].
  set (T := 0 + crore * 10000000 + lakh * 100000 + thousand * 1000) in *.
  assert (Hfinal : exists r4 c,
    (if rest =? 0 then Ok r3
     else w <- convert_below_thousand rest ;; Ok (append r3 w)) = Ok r4 /\
    read_from (0, 0) (join " " r4) = Some (T, c) /\ T + c = k).
  { destruct (rest =? 0) eqn:Er.
    - apply Z.eqb_eq in Er. exists r3, 0. split; [reflexivity|].
      split; [|unfold T; lia].
      unfold reads in R3. destruct r3; [unfold T in *; lia | exact R3].
    - apply Z.eqb_neq in Er.
      destruct (group_read rest ltac:(lia)) as (w & Hw & Hread).
      rewrite Hw. cbn [bind]. exists (append r3 w), rest.
      split; [reflexivity|]. split; [|unfold T; lia].
      exact (reads_snoc r3 T w _ R3 (Hread T)). }
  destruct Hfinal as (r4 & c & E4 & Hread & Hk4).
  rewrite E4. cbn [bind]. eexists. split; [reflexivity|].
  unfold words_to_number.
  destruct (String.eqb (join " " r4) "Zero") eqn:Ez.
  - apply String.eqb_eq in Ez. rewrite Ez in Hread. discriminate Hread.
  - rewrite Hread. f_equal. exact Hk4.
Qed.

(** X3: on [0, 9999999999] the phrase of number_to_words reads back, with
    the reference reader, as the number it was made from; hence two
    different amounts never get the same phrase. *)
Theorem number_to_words_unambiguous (n m : Z) :
  0 <= n <= 9999999999 -> 0 <= m <= 9999999999 ->
  (exists s, number_to_words n = Ok s /\ words_to_number s = Some n) /\
  (number_to_words n = number_to_words m -> n = m).
Proof.
  pose proof number_to_words_reads_back as Hback.
  intros Hn Hm. split; [exact (Hback n Hn)|].
  intros Heq.
  destruct (Hback n Hn) as (s & Hs & Hsn).
  destruct (Hback m Hm) as (s' & Hs' & Hsm).
  rewrite Hs, Hs' in Heq. injection Heq as ->.
  rewrite Hsn in Hsm. injection Hsm as ->. reflexivity.
Qed.

Lemma number_to_words_unambiguous_witness :
  words_to_number "Twenty Nine Thousand Nine Hundred Seventy Two" = Some 29972.
Proof.
  destruct (number_to_words_unambiguous 29972 29972 ltac:(lia) ltac:(lia))
    as ((s & Hs & Hback) & _).
  vm_compute in Hs. injection Hs as <-. exact Hback.
Defined.

End WordsDomain.

(** ** Customer parsing: the shape of the name *)

Module StripFacts.

Lemma lstrip_by_head (p : ascii -> bool) (s : string) :
  head_ok p (lstrip_by p s).
Proof.
  induction s as [|c r IH]; simpl; [exact I|].
  destruct (p c) eqn:E; [exact IH | exact E].
Qed.

Lemma lstrip_by_id (p : ascii -> bool) (s : string) :
  head_ok p s -> lstrip_by p s = s.
Proof. destruct s as [|c r]; simpl; intros H; [|rewrite H]; reflexivity. Qed.

Lemma rstrip_by_head (p : ascii -> bool) (s : string) :
  head_ok p s -> head_ok p (rstrip_by p s).
Proof.
  destruct s as [|c r]; simpl; intros H; [exact I|].
  destruct (rstrip_by p r); [rewrite H|]; exact H.
Qed.

Lemma rstrip_by_cons (p : ascii -> bool) (c : ascii) (r : string) :
  rstrip_by p (String c r) =
  match rstrip_by p r with
  | EmptyString => if p c then EmptyString else String c EmptyString
  | r' => String c r'
  end.
Proof. reflexivity. Qed.

Lemma rstrip_by_idem (p : ascii -> bool) (s : string) :
  rstrip_by p (rstrip_by p s) = rstrip_by p s.
Proof.
  induction s as [|c r IH]; simpl; [reflexivity|].
  destruct (rstrip_by p r) as [|c' r'] eqn:E.
  - destruct (p c) eqn:Ec; simpl; [reflexivity | rewrite Ec; reflexivity].
  - rewrite rstrip_by_cons, IH. reflexivity.
Qed.

Lemma strip_idem (s : string) : strip (strip s) = strip s.
Proof.
  unfold strip.
  rewrite (lstrip_by_id is_space (rstrip_by is_space (lstrip_by is_space s))).
  - apply rstrip_by_idem.
  - apply rstrip_by_head, lstrip_by_head.
Qed.

Lemma lstrip_by_has_char (p : ascii -> bool) (c : ascii) (s : string) :
  has_char c s = false -> has_char c (lstrip_by p s) = false.
Proof.
  induction s as [|a r IH]; simpl; intros H; [reflexivity|].
  apply orb_false_iff in H. destruct H as [Ha Hr].
  destruct (p a); [apply IH, Hr | simpl; rewrite Ha, Hr; reflexivity].
Qed.

Lemma rstrip_by_has_char (p : ascii -> bool) (c : ascii) (s : string) :
  has_char c s = false -> has_char c (rstrip_by p s) = false.
Proof.
  induction s as [|a r IH]; simpl; intros H; [reflexivity|].
  apply orb_false_iff in H. destruct H as [Ha Hr].
  specialize (IH Hr).
  destruct (rstrip_by p r) as [|c' r'].
  - destruct (p a); simpl; [reflexivity | rewrite Ha; reflexivity].
  - cbn [has_char] in *. rewrite Ha. exact IH.
Qed.

Lemma strip_has_char (c : ascii) (s : string) :
  has_char c s = false -> has_char c (strip s) = false.
Proof.
  intros H. unfold strip. apply rstrip_by_has_char, lstrip_by_has_char, H.
Qed.

Lemma split_once_head (sep : ascii) (s : string) :
  exists p rest, split_once sep s = p :: rest /\ has_char sep p = false.
Proof.
  induction s as [|a r IH]; simpl.
  - exists EmptyString, []. split; reflexivity.
  - destruct (Ascii.eqb a sep) eqn:E.
    + exists EmptyString, [r]. split; reflexivity.
    + destruct IH as (p & rest & Hs & Hp). rewrite Hs.
      exists (String a p), rest. split.
      * destruct rest; reflexivity.
      * simpl. rewrite E, Hp. reflexivity.
Qed.

End StripFacts.

(** X4: whatever the 'to' string is, the customer name contains no comma
    and carries no white space at either end. *)
Theorem customer_name_clean (s name addr : string) :
  parse_customer_info (VStr s) = Ok (name, addr) ->
  has_char "," name = false /\ strip name = name.
Proof.
  unfold parse_customer_info. intros H.
  destruct (StripFacts.split_once_head "," s) as (p & rest & Hs & Hp).
  rewrite Hs in H. injection H as <- _. split.
  - apply StripFacts.strip_has_char, Hp.
  - apply StripFacts.strip_idem.
Qed.

Lemma customer_name_clean_witness :
  has_char "," "Acme Ltd" = false /\ strip "Acme Ltd" = "Acme Ltd".
Proof.
  exact (customer_name_clean "  Acme Ltd , 12 High St, Pune" "Acme Ltd"
           "12 High St, Pune" eq_refl).
Defined.

(** ** Numeric coercion: commas and numerals *)

Lemma remove_char_absent (c : ascii) (s : string) :
  has_char c s = false -> remove_char c s = s.
Proof.
  induction s as [|a r IH]; simpl; intros H; [reflexivity|].
  apply orb_false_iff in H. destruct H as [Ha Hr].
  rewrite Ha, (IH Hr). reflexivity.
Qed.

Lemma remove_char_has_char (c : ascii) (s : string) :
  has_char c (remove_char c s) = false.
Proof.
  induction s as [|a r IH]; simpl; [reflexivity|].
  destruct (Ascii.eqb a c) eqn:E; [exact IH|].
  simpl. rewrite E, IH. reflexivity.
Qed.

(** X5: safe_float drops every comma of a string before reading it, so a
    string and the same string without its commas coerce alike. *)
Theorem safe_float_ignores_commas (s : string) (default : F.float) :
  safe_float (VStr s) default
    = safe_float (VStr (remove_char "," s)) default.
Proof.
  destruct s as [|c r]; [reflexivity|].
  cbn [safe_float].
  destruct (remove_char "," (String c r)) as [|c' r'] eqn:E.
  - reflexivity.
  - cbn [safe_float]. rewrite <- E.
    rewrite (remove_char_absent "," (remove_char "," (String c r)))
      by apply remove_char_has_char.
    reflexivity.
Qed.

(** *** Reading plain numerals *)

Module NumeralFacts.
Import FloatParse.

Lemma numeral_char_plain (c : ascii) :
  numeral_char c = true ->
  fold_char c = c /\ Ascii.eqb c "_" = false /\ Ascii.eqb c "," = false /\
  is_space_ascii c = false.
Proof.
  destruct c as [[] [] [] [] [] [] [] []]; intros H; try discriminate H;
    repeat split; reflexivity.
Qed.

Lemma map_fold_numeral (s : string) :
  all_chars numeral_char s = true -> map_chars fold_char s = s.
Proof.
  induction s as [|c r IH]; simpl; intros H; [reflexivity|].
  apply andb_true_iff in H. destruct H as [Hc Hr].
  rewrite (proj1 (numeral_char_plain c Hc)), (IH Hr). reflexivity.
Qed.

Lemma drop_underscores_numeral (s : string) :
  forall prev, all_chars numeral_char s = true -> Ascii.eqb prev "_" = false ->
               drop_underscores prev s = Some s.
Proof.
  induction s as [|c r IH]; simpl; intros prev H Hp.
  - rewrite Hp. reflexivity.
  - apply andb_true_iff in H. destruct H as [Hc Hr].
    destruct (numeral_char_plain c Hc) as (_ & Hu & _).
    rewrite Hu, Hp. simpl. rewrite (IH c Hr Hu). reflexivity.
Qed.

Lemma remove_comma_numeral (s : string) :
  all_chars numeral_char s = true -> remove_char "," s = s.
Proof.
  induction s as [|c r IH]; simpl; intros H; [reflexivity|].
  apply andb_true_iff in H. destruct H as [Hc Hr].
  destruct (numeral_char_plain c Hc) as (_ & _ & Hcomma & _).
  rewrite Hcomma, (IH Hr). reflexivity.
Qed.

Lemma rstrip_numeral (s : string) :
  all_chars numeral_char s = true -> rstrip_by is_space_ascii s = s.
Proof.
  induction s as [|c r IH]; intros H; [reflexivity|].
  simpl in H. apply andb_true_iff in H. destruct H as [Hc Hr].
  destruct (numeral_char_plain c Hc) as (_ & _ & _ & Hs).
  rewrite StripFacts.rstrip_by_cons, (IH Hr), Hs. destruct r; reflexivity.
Qed.

(** A non-empty plain numeral goes through folding, underscore checking and
    stripping unchanged. *)
Lemma float_of_string_numeral (c : ascii) (r : string) :
  all_chars numeral_char (String c r) = true ->
  float_of_string (String c r) =
  match parse_inf_nan (String c r) with
  | Some x => Some x
  | None => parse_decimal (String c r)
  end.
Proof.
  intros H. unfold float_of_string.
  rewrite (map_fold_numeral _ H).
  rewrite (drop_underscores_numeral _ "000" H eq_refl).
  assert (Hl : lstrip_by is_space_ascii (String c r) = String c r).
  { simpl in H. apply andb_true_iff in H. destruct H as [Hc _].
    destruct (numeral_char_plain c Hc) as (_ & _ & _ & Hs).
    simpl. rewrite Hs. reflexivity. }
  rewrite Hl, (rstrip_numeral _ H). reflexivity.
Qed.

Lemma all_digits_numeral (s : string) :
  all_digits s = true -> all_chars numeral_char s = true.
Proof.
  induction s as [|c r IH]; simpl; intros H; [reflexivity|].
  apply andb_true_iff in H. destruct H as [Hc Hr].
  unfold numeral_char at 1. rewrite Hc, (IH Hr). reflexivity.
Qed.

Lemma digit_numeral (c : ascii) : is_digit c = true -> numeral_char c = true.
Proof. intros H. unfold numeral_char. rewrite H. reflexivity. Qed.

Lemma all_chars_app (p : ascii -> bool) (a b : string) :
  all_chars p (a ++ b) = all_chars p a && all_chars p b.
Proof.
  induction a as [|c a IH]; simpl; [reflexivity|].
  rewrite IH, andb_assoc. reflexivity.
Qed.

Lemma parse_sign_digit (d : ascii) (r : string) :
  is_digit d = true -> parse_sign (String d r) = (false, String d r).
Proof.
  destruct d as [[] [] [] [] [] [] [] []]; intros H; try discriminate H;
    reflexivity.
Qed.

Lemma parse_inf_nan_digit (d : ascii) (r : string) :
  is_digit d = true ->
  parse_inf_nan (String d r) = None /\
  parse_inf_nan (String "-" (String d r)) = None.
Proof.
  destruct d as [[] [] [] [] [] [] [] []]; intros H; try discriminate H;
    split; reflexivity.
Qed.

Lemma take_digits_app (ip rest : string) :
  all_digits ip = true ->
  match rest with
  | EmptyString => True
  | String c _ => is_digit c = false
  end ->
  take_digits (ip ++ rest) = (ip, rest).
Proof.
  intros Hip Hrest. induction ip as [|c ip IH]; simpl.
  - destruct rest as [|c r]; [reflexivity|]. simpl. rewrite Hrest. reflexivity.
  - simpl in Hip. apply andb_true_iff in Hip. destruct Hip as [Hc Hr].
    rewrite Hc, (IH Hr). reflexivity.
Qed.

Lemma string_app_nil (s : string) : (s ++ EmptyString)%string = s.
Proof. induction s as [|c s IH]; simpl; [|rewrite IH]; reflexivity. Qed.

Lemma Z_of_digits_app (x y : string) (a : Z) :
  Z_of_digits a (x ++ y) = Z_of_digits (Z_of_digits a x) y.
Proof.
  revert a. induction x as [|c x IH]; intros a; simpl; [reflexivity | apply IH].
Qed.

(** A signed run of digits reads as the integer it denotes. *)
Lemma parse_integer_numeral (neg : bool) (d : ascii) (ip : string) :
  all_digits (String d ip) = true ->
  let s := ((if neg then "-" else EmptyString) ++ String d ip)%string in
  float_of_string s = Some (F.of_decimal neg (Z_of_digits 0 (String d ip)) 0).
Proof.
  intros Hip s.
  assert (Hd : is_digit d = true)
    by (simpl in Hip; apply andb_true_iff in Hip; tauto).
  assert (Hnum : all_chars numeral_char s = true).
  { unfold s. rewrite all_chars_app, (all_digits_numeral _ Hip).
    destruct neg; reflexivity. }
  assert (Hsign : parse_sign s = (neg, String d ip)).
  { unfold s. destruct neg; [reflexivity | apply parse_sign_digit, Hd]. }
  assert (Hinf : parse_inf_nan s = None).
  { unfold s. destruct neg; apply (parse_inf_nan_digit d ip Hd). }
  assert (Hs : exists c r, s = String c r)
    by (unfold s; destruct neg; simpl; eauto).
  destruct Hs as (c & r & Hs). rewrite Hs in Hnum.
  rewrite Hs, (float_of_string_numeral c r Hnum), <- Hs, Hinf.
  unfold parse_decimal. rewrite Hsign.
  pose proof (take_digits_app (String d ip) EmptyString Hip I) as Ht.
  rewrite string_app_nil in Ht. rewrite Ht.
  rewrite string_app_nil. reflexivity.
Qed.

(** A signed numeral with two decimals reads as the hundredths it denotes. *)
Lemma parse_fixed_numeral (neg : bool) (d : ascii) (ip : string) (d1 d2 : ascii) :
  all_digits (String d ip) = true ->
  is_digit d1 = true -> is_digit d2 = true ->
  let fp := String d1 (String d2 EmptyString) in
  let s := ((if neg then "-" else EmptyString) ++ String d ip ++ String "." fp)%string in
  float_of_string s
    = Some (F.of_decimal neg (Z_of_digits 0 (String d ip ++ fp)) (-2)).
Proof.
  intros Hip H1 H2 fp s.
  assert (Hd : is_digit d = true)
    by (simpl in Hip; apply andb_true_iff in Hip; tauto).
  assert (Hfp : all_digits fp = true) by (simpl; rewrite H1, H2; reflexivity).
  assert (Hnum : all_chars numeral_char s = true).
  { unfold s. rewrite !all_chars_app, (all_digits_numeral _ Hip).
    change (String "." fp) with ("." ++ fp)%string.
    rewrite all_chars_app, (all_digits_numeral _ Hfp).
    destruct neg; reflexivity. }
  assert (Hsign : parse_sign s = (neg, (String d ip ++ String "." fp)%string)).
  { unfold s. destruct neg; [reflexivity|]. simpl. apply parse_sign_digit, Hd. }
  assert (Hinf : parse_inf_nan s = None).
  { unfold s. destruct neg; simpl; apply (parse_inf_nan_digit d _ Hd). }
  assert (Hs : exists c r, s = String c r)
    by (unfold s; destruct neg; simpl; eauto).
  destruct Hs as (c & r & Hs). rewrite Hs in Hnum.
  rewrite Hs, (float_of_string_numeral c r Hnum), <- Hs, Hinf.
  unfold parse_decimal. rewrite Hsign.
  rewrite (take_digits_app (String d ip) (String "." fp) Hip eq_refl).
  pose proof (take_digits_app fp EmptyString Hfp I) as Ht.
  rewrite string_app_nil in Ht. rewrite Ht.
  reflexivity.
Qed.

End NumeralFacts.

Lemma string_of_Z_abs (n : Z) :
  string_of_Z n
    = (if n <? 0 then "-" else EmptyString) ++ string_of_Z (Z.abs n).
Proof.
  unfold string_of_Z. rewrite Z.abs_idemp.
  destruct (Z.abs n <? 0) eqn:E; [apply Z.ltb_lt in E; lia|].
  destruct (n <? 0); reflexivity.
Qed.

Lemma of_decimal_integer (n : Z) :
  F.of_decimal (n <? 0) (Z.abs n) 0 = F.nearest_Z n.
Proof.
  unfold F.of_decimal, F.nearest_Z.
  destruct (Z.abs n =? 0) eqn:E0.
  - apply Z.eqb_eq in E0. replace n with 0 by lia. reflexivity.
  - apply Z.eqb_neq in E0.
    assert (Hlog : 0 <= Z.log2 (Z.abs n) / 3)
      by (apply Z.div_pos; [apply Z.log2_nonneg | lia]).
    destruct (0 + Z.log2 (Z.abs n) / 3 + 1 <? -400) eqn:E1;
      [apply Z.ltb_lt in E1; lia|].
    cbn [Z.ltb Z.compare Z.leb]. rewrite Z.pow_0_r, Z.mul_1_r.
    destruct (n <? 0) eqn:En.
    + apply Z.ltb_lt in En. rewrite Z.abs_neq by lia.
      rewrite Z.opp_involutive. reflexivity.
    + apply Z.ltb_ge in En. rewrite Z.abs_eq by lia. reflexivity.
Qed.

(** The numeral of an integer reads back, through safe_float, as the float
    nearest to it. *)
Lemma numeral_reads_back (n : Z) (default : F.float) :
  safe_float (VStr (string_of_Z n)) default = Ok (F.nearest_Z n).
Proof.
  rewrite string_of_Z_abs.
  destruct (string_of_Z_shape (Z.abs n))
    as (sg & ip & Heq & _ & Hsg & Hne & Hall).
  rewrite (proj2 Hsg (Z.abs_nonneg n)) in Heq. simpl in Heq.
  pose proof (string_of_Z_value (Z.abs n) (Z.abs_nonneg n)) as Hval.
  rewrite Heq in *. destruct ip as [|d ip]; [congruence|].
  pose proof (NumeralFacts.parse_integer_numeral (n <? 0) d ip Hall) as Hparse.
  cbv zeta in Hparse. rewrite Hval, of_decimal_integer in Hparse.
  assert (Hnum : all_chars numeral_char
            ((if n <? 0 then "-" else EmptyString) ++ String d ip) = true).
  { rewrite NumeralFacts.all_chars_app, (NumeralFacts.all_digits_numeral _ Hall).
    destruct (n <? 0); reflexivity. }
  pose proof (NumeralFacts.remove_comma_numeral _ Hnum) as Hrm.
  destruct (n <? 0); cbn [append] in *; unfold safe_float, py_float;
    rewrite Hrm, Hparse; reflexivity.
Qed.

(** X6: for an int of at most 4300 digits, what format_amount prints reads
    back, through safe_float, as the float nearest to that int; for an int
    of more digits str raises, and format_amount raises ValueError. *)
Theorem int_amount_reads_back (n : Z) (default : F.float) :
  (Z.abs n < 10 ^ max_str_digits ->
   exists s, format_amount (Int n) = Ok s /\
             safe_float (VStr s) default = Ok (F.nearest_Z n)) /\
  (10 ^ max_str_digits <= Z.abs n ->
   format_amount (Int n) = Raise ValueError).
Proof.
  unfold format_amount, str_int. rewrite Z.mod_1_r. simpl negb. cbv iota.
  split; intros Hn.
  - apply Z.ltb_lt in Hn. rewrite Hn. exists (string_of_Z n).
    split; [reflexivity | apply numeral_reads_back].
  - apply Z.ltb_ge in Hn. rewrite Hn. reflexivity.
Qed.

Lemma int_amount_reads_back_witness :
  (exists s, format_amount (Int 29972) = Ok s /\
             safe_float (VStr s) F.zero = Ok (F.nearest_Z 29972)) /\
  format_amount (Int (10 ^ 4300)) = Raise ValueError.
Proof.
  split.
  - apply (proj1 (int_amount_reads_back 29972 F.zero)). vm_compute. reflexivity.
  - apply (proj2 (int_amount_reads_back (10 ^ 4300) F.zero)).
    vm_compute. discriminate.
Defined.

Lemma of_decimal_hundredths (neg : bool) (k : Z) :
  0 <= k -> F.of_decimal neg k (-2) = F.nearest_ratio neg k (10 ^ 2).
Proof.
  intros Hk. unfold F.of_decimal.
  destruct (k =? 0) eqn:E0.
  - apply Z.eqb_eq in E0. subst k. reflexivity.
  - assert (Hlog : 0 <= Z.log2 k / 3)
      by (apply Z.div_pos; [apply Z.log2_nonneg | lia]).
    destruct (-2 + Z.log2 k / 3 + 1 <? -400) eqn:E1;
      [apply Z.ltb_lt in E1; lia|].
    reflexivity.
Qed.

Lemma format_fixed_reads_back (s : bool) (k : Z) :
  0 <= k ->
  FloatParse.float_of_string
    ((if s then "-" else EmptyString) ++ string_of_Z (k / 100) ++
     String "." (fraction_digits 2 (k mod 100)))
  = Some (F.nearest_ratio s k (10 ^ 2)).
Proof.
  intros Hk.
  assert (Hq : 0 <= k / 100) by (apply Z.div_pos; lia).
  pose proof (Z.mod_pos_bound k 100 ltac:(lia)) as Hr.
  pose proof (Z.div_mod k 100 ltac:(lia)) as Hdm.
  destruct (string_of_Z_shape (k / 100)) as (sg & ip & Heq & _ & Hsg & Hne & Hall).
  rewrite (proj2 Hsg Hq) in Heq. simpl in Heq.
  pose proof (string_of_Z_value (k / 100) Hq) as Hval.
  rewrite Heq in *. destruct ip as [|d ip]; [congruence|].
  set (r := k mod 100) in *.
  change (fraction_digits 2 r)
    with (String (digit_char (r / 10 mod 10))
            (String (digit_char (r mod 10)) EmptyString)).
  rewrite (NumeralFacts.parse_fixed_numeral s d ip _ _ Hall
             (is_digit_last (r / 10)) (is_digit_last r)).
  rewrite NumeralFacts.Z_of_digits_app, Hval.
  cbn [FloatParse.Z_of_digits].
  pose proof (Z.mod_pos_bound (r / 10) 10 ltac:(lia)) as H1.
  pose proof (Z.mod_pos_bound r 10 ltac:(lia)) as H2.
  rewrite !code_digit_char by lia.
  assert (Hr10 : 0 <= r / 10 < 10).
  { split; [apply Z.div_pos; lia | apply Z.div_lt_upper_bound; lia]. }
  rewrite (Z.mod_small (r / 10) 10) by lia.
  pose proof (Z.div_mod r 10 ltac:(lia)) as Hdm2.
  replace (10 * (10 * (k / 100) + r / 10) + r mod 10) with k by lia.
  rewrite (of_decimal_hundredths s k Hk). reflexivity.
Qed.

(** X7: what format_amount prints for a float with a fractional part reads
    back, through safe_float, as that float rounded to two decimals. *)
Theorem fraction_amount_reads_back (x default : F.float) :
  valid_binary F.prec F.emax x = true -> has_fraction x = true ->
  exists s, format_amount (Float x) = Ok s /\
            safe_float (VStr s) default = Ok (F.round_digits x 2).
Proof.
  intros Hv Hfrac.
  destruct x as [sx|sx| |sx m e]; try discriminate Hfrac.
  simpl in Hfrac. apply andb_true_iff in Hfrac. destruct Hfrac as [He Hr].
  apply Z.ltb_lt in He. apply negb_true_iff, Z.eqb_neq in Hr.
  exists (format_fixed (S754_finite sx m e) 2). split.
  - unfold format_amount.
    rewrite (FloatFacts.mod_one_fraction sx m e Hv He Hr). reflexivity.
  - set (k := F.scaled_half_even m e (10 ^ 2)).
    assert (Hk : 0 <= k) by (apply scaled_half_even_nonneg; lia).
    pose proof (format_fixed_reads_back sx k Hk) as Hparse.
    assert (Hfmt : format_fixed (S754_finite sx m e) 2
                   = ((if sx then "-" else EmptyString) ++ string_of_Z (k / 100) ++
                      String "." (fraction_digits 2 (k mod 100)))%string)
      by reflexivity.
    rewrite Hfmt.
    destruct (string_of_Z_shape (k / 100)) as (sg & ip & Heq & _ & Hsg & Hne & Hall).
    rewrite (proj2 Hsg ltac:(apply Z.div_pos; lia)) in Heq. simpl in Heq.
    assert (Hnum : all_chars numeral_char
              ((if sx then "-" else EmptyString) ++ string_of_Z (k / 100) ++
               String "." (fraction_digits 2 (k mod 100))) = true).
    { change (fraction_digits 2 (k mod 100))
        with (String (digit_char (k mod 100 / 10 mod 10))
                (String (digit_char (k mod 100 mod 10)) EmptyString)).
      rewrite !NumeralFacts.all_chars_app, Heq,
        (NumeralFacts.all_digits_numeral _ Hall).
      cbn [all_chars].
      rewrite (NumeralFacts.digit_numeral _ (is_digit_last (k mod 100 / 10))),
        (NumeralFacts.digit_numeral _ (is_digit_last (k mod 100))).
      destruct sx; reflexivity. }
    pose proof (NumeralFacts.remove_comma_numeral _ Hnum) as Hrm.
    rewrite Heq in *. destruct ip as [|d ip]; [congruence|].
    destruct sx; cbn [append] in *; unfold safe_float, py_float;
      rewrite Hrm, Hparse; reflexivity.
Qed.

Lemma fraction_amount_reads_back_witness :
  exists s, format_amount (Float (F.of_decimal false 2675 (-3))) = Ok s /\
            safe_float (VStr s) F.zero = Ok (F.of_decimal false 267 (-2)).
Proof.
  destruct (fraction_amount_reads_back (F.of_decimal false 2675 (-3)) F.zero
              eq_refl eq_refl) as (s & Hs & Hback).
  exists s. split; [exact Hs|]. rewrite Hback. vm_compute. reflexivity.
Defined.

(** ** Item rows of the normalised invoice *)

Lemma transform_each_pointwise (rt : runtime) (l : list pyval) :
  forall acc its,
    transform_each rt l acc = Ok its ->
    exists ts, its = (acc ++ ts)%list /\
               Forall2 (fun item t => transform_item rt item = Ok t) l ts.
Proof.
  induction l as [|item l IH]; intros acc its H; simpl in H.
  - injection H as <-. exists []. split; [symmetry; apply app_nil_r | constructor].
  - apply bind_Ok_inv in H. destruct H as (t & Ht & H).
    destruct (IH _ _ H) as (ts & Heq & Hall).
    exists (t :: ts). split.
    + rewrite Heq. unfold append. rewrite <- app_assoc. reflexivity.
    + constructor; assumption.
Qed.

Lemma transform_item_dict (rt : runtime) (item : pyval) (t : Item) :
  transform_item rt item = Ok t ->
  exists d a,
    item = VDict d /\
    safe_float (get d "amount" (VInt 0)) F.zero = Ok a /\
    t = {| description := get d "name" (VStr EmptyString);
           hsn_code := get d "hsn" (VStr EmptyString);
           quantity := py_str rt (get d "qty" (VStr EmptyString));
           rate := py_str rt (get d "rate" (VStr EmptyString));
           amount := a |}.
Proof.
  intros H. destruct item; try discriminate H.
  unfold transform_item in H. cbn [py_get bind] in H.
  apply bind_Ok_inv in H. destruct H as (a & Ha & H).
  injection H as <-. exists d, a. repeat split. exact Ha.
Qed.

(** X8: when the items are a list and normalisation succeeds, there is one
    output item per input element, in the same order; every element is a
    dict, a key it lacks reads as the empty string, and its amount is
    coerced by safe_float with a missing amount counting as 0. *)
Theorem transform_items_pointwise (rt : runtime) (l : list pyval) (its : list Item) :
  transform_items rt (VList l) = Ok its ->
  Forall2
    (fun item t =>
       exists d a,
         item = VDict d /\
         safe_float (get d "amount" (VInt 0)) F.zero = Ok a /\
         t = {| description := get d "name" (VStr EmptyString);
                hsn_code := get d "hsn" (VStr EmptyString);
                quantity := py_str rt (get d "qty" (VStr EmptyString));
                rate := py_str rt (get d "rate" (VStr EmptyString));
                amount := a |})
    l its.
Proof.
  unfold transform_items. cbn [py_iter bind]. intros H.
  destruct (transform_each_pointwise rt l [] its H) as (ts & -> & Hall).
  simpl. clear H. induction Hall as [|item t l ts Ht Hall IH]; constructor.
  - exact (transform_item_dict rt item t Ht).
  - exact IH.
Qed.

Lemma transform_items_pointwise_witness :
  exists its,
    transform_items example_runtime
      (VList [VDict [("name", VStr "Stage"); ("qty", VInt 2)]; VDict []]) = Ok its /\
    List.length its = 2%nat.
Proof.
  eexists. split; [reflexivity|].
  exact (eq_sym (Forall2_length
           (transform_items_pointwise example_runtime
              [VDict [("name", VStr "Stage"); ("qty", VInt 2)]; VDict []] _
              eq_refl))).
Defined.

(** X9: items that are not a list.  An empty string or an empty dict counts
    as no items; a non-empty string or dict is iterated (characters, keys)
    and fails with AttributeError on its first element; None and numbers
    are not iterable and raise TypeError. *)
Theorem transform_items_not_a_list (rt : runtime) :
  transform_items rt (VStr EmptyString) = Ok [] /\
  transform_items rt (VDict []) = Ok [] /\
  (forall c r, transform_items rt (VStr (String c r)) = Raise AttributeError) /\
  (forall kv d, transform_items rt (VDict (kv :: d)) = Raise AttributeError) /\
  transform_items rt VNone = Raise TypeError /\
  (forall b, transform_items rt (VBool b) = Raise TypeError) /\
  (forall n, transform_items rt (VInt n) = Raise TypeError) /\
  (forall x, transform_items rt (VFloat x) = Raise TypeError).
Proof. repeat split. Qed.

(** ** What a normalised invoice guarantees *)

Module NormaliserFacts.

Lemma add_finite_inv (x y : F.float) :
  F.is_finite (F.add x y) -> F.is_finite x /\ F.is_finite y.
Proof.
  destruct x as [sx|sx| |sx mx ex], y as [sy|sy| |sy my ey]; simpl;
    intros H; try (split; exact I); try contradiction;
    destruct sx, sy; simpl in H; contradiction.
Qed.

Lemma positive_finite (x : F.float) :
  F.is_finite x -> F.ltb F.zero x = true ->
  exists m e, x = S754_finite false m e.
Proof.
  destruct x as [s|s| |s m e]; simpl; intros Hf Hp; try contradiction;
    try discriminate Hp.
  destruct s; [discriminate Hp | eauto].
Qed.

Lemma mul_hundred_signed (q : F.float) :
  F.signed false q -> F.signed false (F.mul q hundred).
Proof.
  change hundred with (S754_finite false 7036874417766400 (-46)).
  destruct q as [s|s| |s m e]; simpl; intros H; try contradiction;
    subst s; try reflexivity.
  apply FloatFacts.binary_round_aux_signed. lia.
Qed.

(** For finite amounts the rate is the default or a float that is neither
    negative nor a NaN. *)
Lemma calculate_tax_rate_sign (tax taxable : F.float) (default r : pyval) :
  F.is_finite tax -> F.is_finite taxable ->
  calculate_tax_rate tax taxable default = Ok r ->
  r = default \/ exists x, r = VFloat x /\ F.leb F.zero x = true.
Proof.
  intros Htax Htaxable H. unfold calculate_tax_rate in H.
  destruct (F.ltb F.zero taxable) eqn:E1; [|left; injection H as <-; reflexivity].
  destruct (F.ltb F.zero tax) eqn:E2; [|left; injection H as <-; reflexivity].
  destruct (positive_finite _ Htaxable E1) as (m1 & e1 & ->).
  destruct (positive_finite _ Htax E2) as (m2 & e2 & ->).
  simpl in H. injection H as <-. right. eexists. split; [reflexivity|].
  apply FloatFacts.signed_false_nonneg, FloatFacts.round_digits_signed,
    mul_hundred_signed.
  exact (FloatFacts.div_signed false false m2 m1 e2 e1).
Qed.

End NormaliserFacts.

(** X10: a record is produced only from finite amounts: if the taxable
    amount, the CGST or the SGST coerces to an infinity or a NaN (strings
    such as 'inf', 'nan' or '1e999' do), _transform_input raises. *)
Theorem normalised_amounts_finite (rt : runtime) (cfg data : pyval) (inv : Invoice) :
  transform_input rt cfg data = Ok inv ->
  F.is_finite (taxable_amount (tax_summary inv)) /\
  F.is_finite (cgst_amount (tax_summary inv)) /\
  F.is_finite (sgst_amount (tax_summary inv)).
Proof.
  intros H. unfold transform_input in H.
  bind_inv H. bind_inv H. destruct a0 as [customer_name customer_address].
  do 16 bind_inv H. injection H as <-. simpl.
  match goal with
  | Hr : F.round_int (F.add (F.add ?t ?c) ?s) = Ok _ |- _ =>
      pose proof (FloatFacts.round_int_finite _ _ Hr) as Hfin
  end.
  apply NormaliserFacts.add_finite_inv in Hfin. destruct Hfin as [Htc Hs].
  apply NormaliserFacts.add_finite_inv in Htc. destruct Htc as [Ht Hc].
  repeat split; assumption.
Qed.

Lemma normalised_amounts_finite_witness :
  exists inv,
    transform_input example_runtime Config.COMPANY_CONFIG decimal_invoice = Ok inv /\
    F.is_finite (taxable_amount (tax_summary inv)).
Proof.
  destruct (transform_input example_runtime Config.COMPANY_CONFIG decimal_invoice)
    as [inv|e] eqn:E; [|vm_compute in E; discriminate E].
  exists inv. split; [reflexivity|].
  exact (proj1 (normalised_amounts_finite _ _ _ inv E)).
Defined.

(** X11: in a produced record each of cgst_rate and sgst_rate is either the
    configured default or a float that is neither negative nor a NaN. *)
Theorem normalised_rates (rt : runtime) (cfg data : pyval) (inv : Invoice) :
  transform_input rt cfg data = Ok inv ->
  (cgst_rate (tax_summary inv) = Config.DEFAULT_CGST_RATE \/
   exists x, cgst_rate (tax_summary inv) = VFloat x /\ F.leb F.zero x = true) /\
  (sgst_rate (tax_summary inv) = Config.DEFAULT_SGST_RATE \/
   exists x, sgst_rate (tax_summary inv) = VFloat x /\ F.leb F.zero x = true).
Proof.
  intros H. unfold transform_input in H.
  bind_inv H. bind_inv H. destruct a0 as [customer_name customer_address].
  do 16 bind_inv H. injection H as <-. simpl.
  match goal with
  | Hr : F.round_int (F.add (F.add ?t ?c) ?s) = Ok _ |- _ =>
      pose proof (FloatFacts.round_int_finite _ _ Hr) as Hfin
  end.
  apply NormaliserFacts.add_finite_inv in Hfin. destruct Hfin as [Htc Hs].
  apply NormaliserFacts.add_finite_inv in Htc. destruct Htc as [Ht Hc].
  split; (eapply NormaliserFacts.calculate_tax_rate_sign;
          [| | eassumption]; assumption).
Qed.

Lemma normalised_rates_witness :
  exists inv,
    transform_input example_runtime Config.COMPANY_CONFIG decimal_invoice = Ok inv /\
    (cgst_rate (tax_summary inv) = Config.DEFAULT_CGST_RATE \/
     exists x, cgst_rate (tax_summary inv) = VFloat x /\ F.leb F.zero x = true).
Proof.
  destruct (transform_input example_runtime Config.COMPANY_CONFIG decimal_invoice)
    as [inv|e] eqn:E; [|vm_compute in E; discriminate E].
  exists inv. split; [reflexivity|].
  exact (proj1 (normalised_rates _ _ _ inv E)).
Defined.

(** ** Floats: results stay in range, and rounding to an integer converts back *)

Module RangeFacts.
Import FloatFacts.

Lemma digits_le_of_lt (p : positive) (k : Z) :
  0 <= k -> Z.pos p < 2 ^ k -> Z.pos (digits2_pos p) <= k.
Proof.
  intros Hk Hlt. pose proof (digits2_pos_lower p) as Hl.
  destruct (Z_le_gt_dec (Z.pos (digits2_pos p)) k) as [|Hgt]; [assumption|].
  assert (2 ^ k <= 2 ^ (Z.pos (digits2_pos p) - 1))
    by (apply Z.pow_le_mono_r; lia).
  lia.
Qed.

Lemma shr_fexp_digits (m e : Z) (l : location) :
  0 <= m ->
  match shr_m (fst (shr_fexp F.prec F.emax m e l)) with
  | Z.pos p => Z.pos (digits2_pos p) <= F.prec
  | _ => True
  end.
Proof.
  intros Hm. unfold shr_fexp, shr.
  pose proof (fexp_bounds (Zdigits2 m + e)) as (_ & Hf & _).
  destruct (fexp F.prec F.emax (Zdigits2 m + e) - e) as [|q|q] eqn:En;
    cbn [fst]; rewrite ?shr_record_of_loc_m.
  - destruct m as [|p|p]; try exact I. simpl Zdigits2 in *. lia.
  - rewrite iter_shr_1_div, shr_record_of_loc_m
      by (rewrite shr_record_of_loc_m; exact Hm).
    destruct m as [|p|p]; try lia.
    + rewrite Z.div_0_l by (apply Z.pow_nonzero; lia). exact I.
    + simpl Zdigits2 in *.
      destruct (Z.pos p / 2 ^ Z.pos q) as [|p'|p'] eqn:Ed; try exact I.
      apply digits_le_of_lt; [unfold F.prec; lia|].
      rewrite <- Ed. apply Z.div_lt_upper_bound; [apply Z.pow_pos_nonneg; lia|].
      rewrite <- Z.pow_add_r by (unfold F.prec; lia).
      pose proof (digits2_pos_upper p) as Hu.
      apply Z.lt_le_trans with (2 ^ Z.pos (digits2_pos p)); [exact Hu|].
      apply Z.pow_le_mono_r; lia.
  - destruct m as [|p|p]; try exact I. simpl Zdigits2 in *. lia.
Qed.

Lemma binary_round_aux_in_range (s : bool) (m e : Z) (l : location) :
  0 <= m -> in_range (binary_round_aux F.prec F.emax s m e l).
Proof.
  intros H. unfold binary_round_aux.
  pose proof (shr_fexp_nonneg m e l H) as H1.
  destruct (shr_fexp F.prec F.emax m e l) as [mrs1 e1]. simpl in H1.
  pose proof (shr_fexp_digits _ e1 loc_Exact
                (round_nearest_even_nonneg _ (loc_of_shr_record mrs1) H1)) as H2.
  destruct (shr_fexp F.prec F.emax
              (round_nearest_even (shr_m mrs1) (loc_of_shr_record mrs1)) e1
              loc_Exact) as [mrs2 e2]. simpl in H2.
  destruct (shr_m mrs2) as [|p|p]; try exact I.
  destruct (e2 <=? F.emax - F.prec) eqn:E; [|exact I].
  apply Z.leb_le in E. split; assumption.
Qed.

Lemma binary_normalize_in_range (m e : Z) (sz : bool) :
  in_range (binary_normalize F.prec F.emax m e sz).
Proof.
  destruct m as [|p|p]; simpl; [exact I| |]; unfold binary_round;
    destruct (shl_align p e _) as [mz ez];
    apply binary_round_aux_in_range; lia.
Qed.

Lemma div_in_range (sx sy : bool) (mx my : positive) (ex ey : Z) :
  in_range (F.div (S754_finite sx mx ex) (S754_finite sy my ey)).
Proof.
  unfold F.div, SFdiv.
  destruct (SFdiv_core_binary F.prec F.emax (Z.pos mx) ex (Z.pos my) ey)
    as [[mz ez] lz] eqn:E.
  apply binary_round_aux_in_range.
  unfold SFdiv_core_binary in E.
  set (sh := ex - ey - _) in E.
  set (m' := match sh with Z0 => Z.pos mx | Zpos _ => Z.shiftl (Z.pos mx) sh
             | Zneg _ => 0 end) in E.
  assert (Hm' : 0 <= m').
  { unfold m'. destruct sh; try lia. apply Z.shiftl_nonneg. lia. }
  pose proof (Z_div_mod m' (Z.pos my) ltac:(lia)) as Hd.
  destruct (Z.div_eucl m' (Z.pos my)) as [q r].
  injection E as <- _ _. nia.
Qed.

Lemma of_decimal_in_range (neg : bool) (m e10 : Z) :
  in_range (F.of_decimal neg m e10).
Proof.
  unfold F.of_decimal.
  destruct (m =? 0); [exact I|].
  destruct (400 <? e10); [exact I|].
  destruct (e10 + Z.log2 m / 3 + 1 <? -400); [exact I|].
  destruct (0 <=? e10); [apply binary_normalize_in_range|].
  unfold F.nearest_ratio. destruct m; try exact I. apply div_in_range.
Qed.

Lemma float_of_string_in_range (s : string) (x : F.float) :
  FloatParse.float_of_string s = Some x -> in_range x.
Proof.
  unfold FloatParse.float_of_string.
  destruct (FloatParse.drop_underscores _ _) as [s1|]; [|discriminate].
  destruct (rstrip_by _ _) as [|c s2]; [discriminate|].
  destruct (FloatParse.parse_inf_nan (String c s2)) as [y|] eqn:Einf.
  - intros H. injection H as <-. unfold FloatParse.parse_inf_nan in Einf.
    destruct (FloatParse.parse_sign (String c s2)) as [neg r].
    destruct (_ || _); [injection Einf as <-; exact I|].
    destruct (String.eqb _ _); [injection Einf as <-; exact I | discriminate].
  - unfold FloatParse.parse_decimal.
    destruct (FloatParse.parse_sign (String c s2)) as [neg r].
    destruct (FloatParse.take_digits r) as [ip r1].
    destruct (match r1 with
              | String "." r' => FloatParse.take_digits r'
              | _ => (EmptyString, r1)
              end) as [fp r2].
    destruct (ip ++ fp)%string; [discriminate|].
    destruct (FloatParse.parse_exponent r2) as [ex r3].
    destruct r3; [|discriminate].
    intros H. injection H as <-. apply of_decimal_in_range.
Qed.

(** A string always coerces, and to a float in range. *)
Lemma safe_float_str_in_range (s : string) :
  exists x, safe_float (VStr s) F.zero = Ok x /\ in_range x.
Proof.
  destruct (safe_float_str s F.zero) as [H|(x & Hp & H)].
  - exists F.zero. split; [exact H | exact I].
  - exists x. split; [exact H | exact (float_of_string_in_range _ _ Hp)].
Qed.

Lemma add_in_range (x y : F.float) :
  in_range x -> in_range y -> in_range (F.add x y).
Proof.
  destruct x as [sx|sx| |sx mx ex], y as [sy|sy| |sy my ey]; simpl;
    intros Hx Hy; try exact I; try assumption;
    try (destruct sx, sy; exact I).
  apply binary_normalize_in_range.
Qed.

(** Shifting out bits that are all zero is exact. *)
Lemma shr_1_exact (a : Z) :
  0 <= a ->
  shr_1 {| shr_m := a * 2; shr_r := false; shr_s := false |}
    = {| shr_m := a; shr_r := false; shr_s := false |}.
Proof.
  intros Ha. destruct a as [|p|p]; try lia; [reflexivity|].
  replace (Z.pos p * 2) with (Z.pos p~0) by lia. reflexivity.
Qed.

Lemma iter_shr_1_exact (p : positive) :
  forall a, 0 <= a ->
    iter_pos shr_1 p {| shr_m := a * 2 ^ Z.pos p; shr_r := false; shr_s := false |}
      = {| shr_m := a; shr_r := false; shr_s := false |}.
Proof.
  induction p as [p IH|p IH|]; intros a Ha; cbn [iter_pos].
  - replace (a * 2 ^ Z.pos p~1) with (a * 2 ^ Z.pos p * 2 ^ Z.pos p * 2).
    + rewrite shr_1_exact, IH, IH; try reflexivity; try assumption;
        repeat apply Z.mul_nonneg_nonneg; try lia; apply Z.pow_nonneg; lia.
    + replace (Z.pos p~1) with (Z.pos p + Z.pos p + 1) by lia.
      rewrite !Z.pow_add_r by lia. change (2 ^ 1) with 2. lia.
  - replace (a * 2 ^ Z.pos p~0) with (a * 2 ^ Z.pos p * 2 ^ Z.pos p).
    + rewrite IH, IH; try reflexivity; try assumption.
      apply Z.mul_nonneg_nonneg; [lia | apply Z.pow_nonneg; lia].
    + replace (Z.pos p~0) with (Z.pos p + Z.pos p) by lia.
      rewrite Z.pow_add_r by lia. lia.
  - change (2 ^ 1) with 2. apply shr_1_exact, Ha.
Qed.

Lemma mul_pow2_digits (m : positive) (k : Z) :
  0 <= k ->
  exists p, Z.pos p = Z.pos m * 2 ^ k /\
            Z.pos (digits2_pos p) = Z.pos (digits2_pos m) + k.
Proof.
  intros Hk. destruct k as [|q|q]; try lia.
  - exists m. rewrite Z.pow_0_r. lia.
  - exists (Pos.iter xO m q). split; [apply iter_xO_mul | apply iter_xO_digits].
Qed.

(** An integer that is a float's mantissa shifted left converts to a finite
    float. *)
Lemma binary_round_integer (s : bool) (m p : positive) (e : Z) :
  Z.pos (digits2_pos m) <= F.prec -> 0 <= e <= F.emax - F.prec ->
  Z.pos p = Z.pos m * 2 ^ e ->
  exists m' e', binary_round F.prec F.emax s p 0 = S754_finite s m' e'.
Proof.
  intros Hd He Hp.
  destruct (mul_pow2_digits m e (proj1 He)) as (p' & Hp' & Hdig).
  assert (p' = p) by (apply Pos2Z.inj; lia). subst p'.
  destruct (Z_le_gt_dec (Z.pos (digits2_pos p)) F.prec) as [Hsmall|Hbig].
  - destruct (binary_round_exact s p 0 Hsmall) as (mz & f & Hr & _);
      [unfold emin, F.prec, F.emax; lia | unfold F.prec, F.emax; lia|].
    eauto.
  - set (n := Z.pos (digits2_pos p) - F.prec) in *.
    assert (Hn : 1 <= n <= e) by (unfold n; lia).
    assert (Hfexp : fexp F.prec F.emax (Z.pos (digits2_pos p) + 0) = n).
    { unfold fexp, emin, n, F.prec, F.emax in *. lia. }
    destruct (mul_pow2_digits m (e - n) ltac:(lia)) as (pa & Hpa & Hdiga).
    assert (Hsplit : Z.pos p = Z.pos pa * 2 ^ n).
    { rewrite Hp, Hpa, <- Z.mul_assoc, <- Z.pow_add_r by lia.
      replace (e - n + n) with e by lia. reflexivity. }
    assert (E1 : shr_fexp F.prec F.emax (Z.pos p) 0 loc_Exact
                 = ({| shr_m := Z.pos pa; shr_r := false; shr_s := false |}, n)).
    { unfold shr_fexp. cbn [Zdigits2]. rewrite Hfexp, Z.sub_0_r.
      unfold shr. destruct n as [|pn|pn] eqn:En; try lia.
      cbn [shr_record_of_loc]. rewrite Hsplit.
      rewrite iter_shr_1_exact by lia. reflexivity. }
    assert (E2 : shr_fexp F.prec F.emax (Z.pos pa) n loc_Exact
                 = ({| shr_m := Z.pos pa; shr_r := false; shr_s := false |}, n)).
    { unfold shr_fexp. cbn [Zdigits2].
      assert (Hz : fexp F.prec F.emax (Z.pos (digits2_pos pa) + n) - n = 0).
      { unfold fexp, emin, n, F.prec, F.emax in *. lia. }
      rewrite Hz. reflexivity. }
    exists pa, n. unfold binary_round.
    rewrite Hfexp.
    assert (Hsh : shl_align p 0 n = (p, 0)).
    { unfold shl_align. destruct (n - 0) eqn:E; try reflexivity. lia. }
    rewrite Hsh. unfold binary_round_aux. rewrite E1.
    cbn [shr_m loc_of_shr_record round_nearest_even]. rewrite E2.
    cbn [shr_m].
    destruct (n <=? F.emax - F.prec) eqn:E; [reflexivity|].
    apply Z.leb_gt in E. lia.
Qed.

Lemma nearest_Z_small (k : Z) :
  Z.abs k <= 2 ^ 52 -> exists f, F.of_Z k = Ok f.
Proof.
  intros Hk. unfold F.of_Z, F.nearest_Z.
  assert (Hround : forall s p, Z.pos p <= 2 ^ 52 ->
            exists mz f, binary_round F.prec F.emax s p 0 = S754_finite s mz f).
  { intros s p Hp.
    destruct (binary_round_exact s p 0) as (mz & f & Hr & _).
    - apply digits_le_of_lt; [unfold F.prec; lia|].
      change F.prec with 53. change (2 ^ 53) with (2 * 2 ^ 52). lia.
    - unfold emin, F.prec, F.emax; lia.
    - unfold F.prec, F.emax; lia.
    - eauto. }
  destruct k as [|p|p]; cbn [binary_normalize].
  - eexists. reflexivity.
  - destruct (Hround false p ltac:(lia)) as (mz & f & ->). eexists. reflexivity.
  - destruct (Hround true p ltac:(lia)) as (mz & f & ->). eexists. reflexivity.
Qed.

(** The integer that round() makes of a float in range always converts
    back to a float. *)
Lemma of_Z_round_int (x : F.float) (k : Z) :
  in_range x -> F.round_int x = Ok k -> exists f, F.of_Z k = Ok f.
Proof.
  destruct x as [s|s| |s m e]; simpl; intros Hr H; try discriminate H.
  - injection H as <-. eexists. reflexivity.
  - injection H as <-. destruct Hr as [Hd He].
    unfold F.scaled_half_even.
    destruct (0 <=? e) eqn:E0.
    + apply Z.leb_le in E0. rewrite Z.mul_1_r.
      destruct (mul_pow2_digits m e E0) as (p & Hp & _).
      rewrite <- Hp. unfold F.of_Z, F.nearest_Z.
      destruct s; cbn [Z.opp binary_normalize].
      * destruct (binary_round_integer true m p e Hd ltac:(unfold F.emax, F.prec in *; lia) Hp)
          as (m' & e' & ->). eexists. reflexivity.
      * destruct (binary_round_integer false m p e Hd ltac:(unfold F.emax, F.prec in *; lia) Hp)
          as (m' & e' & ->). eexists. reflexivity.
    + apply Z.leb_gt in E0. apply nearest_Z_small.
      rewrite Z.mul_1_r.
      assert (Hpow : 2 <= 2 ^ (- e)).
      { change 2 with (2 ^ 1) at 1. apply Z.pow_le_mono_r; lia. }
      pose proof (digits2_pos_upper m) as Hu.
      assert (Hm : Z.pos m < 2 ^ 53).
      { apply Z.lt_le_trans with (2 ^ Z.pos (digits2_pos m)); [exact Hu|].
        apply Z.pow_le_mono_r; unfold F.prec in Hd; lia. }
      assert (Hq : 0 <= Z.pos m / 2 ^ (- e) < 2 ^ 52).
      { split; [apply Z.div_pos; lia|].
        apply Z.div_lt_upper_bound; [lia|].
        change (2 ^ 53) with (2 * 2 ^ 52) in Hm. nia. }
      assert (Hk : 0 <= F.div_half_even (Z.pos m) (2 ^ (- e)) <= 2 ^ 52).
      { unfold F.div_half_even.
        destruct (2 * (Z.pos m mod 2 ^ (- e)) ?= 2 ^ (- e));
          [destruct (Z.even _)| |]; lia. }
      destruct s; lia.
Qed.

End RangeFacts.

Lemma calculate_tax_rate_returns (tax taxable : F.float) (default : pyval) :
  exists r, calculate_tax_rate tax taxable default = Ok r.
Proof.
  unfold calculate_tax_rate, truediv.
  destruct (F.ltb F.zero taxable) eqn:E1; [|eexists; reflexivity].
  destruct (F.ltb F.zero tax); [|eexists; reflexivity].
  rewrite (positive_not_zero _ E1). eexists. reflexivity.
Qed.

(** X12: normalisation of a record in the documented shape.  When the
    record is a dict whose 'to' is a string (or absent), whose items
    normalise and whose four amounts are strings (or absent), the three
    amounts always coerce, and _transform_input produces a record exactly
    when their sum is finite; an infinite sum raises OverflowError and a NaN
    sum raises ValueError. *)
Theorem transform_input_on_strings (rt : runtime) (cfg : pyval) (d : dict)
        (its : list Item) :
  (exists s, get d "to" (VStr EmptyString) = VStr s) ->
  transform_items rt (get d "items" (VList [])) = Ok its ->
  (forall k, In k ["taxable_amount"; "cgst"; "sgst"; "total"] ->
             exists s, get d k (VStr "0") = VStr s) ->
  exists taxable cgst sgst,
    amount_field (VDict d) "taxable_amount" = Ok taxable /\
    amount_field (VDict d) "cgst" = Ok cgst /\
    amount_field (VDict d) "sgst" = Ok sgst /\
    match F.add (F.add taxable cgst) sgst with
    | S754_nan => transform_input rt cfg (VDict d) = Raise ValueError
    | S754_infinity _ => transform_input rt cfg (VDict d) = Raise OverflowError
    | _ => exists inv, transform_input rt cfg (VDict d) = Ok inv
    end.
Proof.
  intros (s & Hto) Hitems Hamounts.
  assert (Hfield : forall k, In k ["taxable_amount"; "cgst"; "sgst"; "total"] ->
            exists x, amount_field (VDict d) k = Ok x /\ in_range x).
  { intros k Hk. destruct (Hamounts k Hk) as (sk & Hsk).
    destruct (RangeFacts.safe_float_str_in_range sk) as (x & Hx & Hr).
    exists x. split; [|exact Hr].
    unfold amount_field. cbn [py_get bind]. rewrite Hsk. exact Hx. }
  destruct (Hfield "taxable_amount" ltac:(simpl; tauto)) as (taxable & Ht & Rt).
  destruct (Hfield "cgst" ltac:(simpl; tauto)) as (cgst & Hc & Rc).
  destruct (Hfield "sgst" ltac:(simpl; tauto)) as (sgst & Hs & Rs).
  destruct (Hfield "total" ltac:(simpl; tauto)) as (total & Htot & _).
  exists taxable, cgst, sgst. repeat (split; [assumption|]).
  destruct (parse_customer_info (VStr s)) as [[cn ca]|e] eqn:Hpc;
    [|discriminate Hpc].
  destruct (calculate_tax_rate_returns cgst taxable Config.DEFAULT_CGST_RATE)
    as (rc & Hrc).
  destruct (calculate_tax_rate_returns sgst taxable Config.DEFAULT_SGST_RATE)
    as (rs & Hrs).
  pose proof (RangeFacts.add_in_range _ _ (RangeFacts.add_in_range _ _ Rt Rc) Rs)
    as Rsum.
  assert (Hstart : transform_input rt cfg (VDict d) =
    (rounded_total <- F.round_int (F.add (F.add taxable cgst) sgst) ;;
     rounded_as_float <- F.of_Z rounded_total ;;
     Ok {| company := cfg;
           invoice_number := get d "invoice_no" (VStr EmptyString);
           invoice_date := get d "invoice_date" (VStr EmptyString);
           customer := {| name := cn; address := ca;
                          gstin := get d "customer_gstin" Config.DEFAULT_CUSTOMER_GSTIN |};
           job_description := get d "job_description" (VStr EmptyString);
           event_name := get d "event_name" (VStr EmptyString);
           items := its;
           tax_summary :=
             {| taxable_amount := taxable;
                cgst_rate := rc;
                cgst_amount := cgst;
                sgst_rate := rs;
                sgst_amount := sgst;
                igst_rate := get d "igst_rate" (VStr EmptyString);
                round_off :=
                  (let round_off :=
                     F.abs (F.sub rounded_as_float (F.add (F.add taxable cgst) sgst)) in
                   if F.ltb cent (F.abs round_off)
                   then VFloat (F.round_digits round_off 2)
                   else VStr EmptyString);
                invoice_total :=
                  if F.ltb F.zero total then VFloat total
                  else VInt rounded_total |} |})).
  { unfold transform_input. cbn [py_get bind].
    rewrite Hto, Hpc. cbn [bind]. rewrite Hitems. cbn [bind].
    rewrite Ht. cbn [bind]. rewrite Hc. cbn [bind]. rewrite Hs. cbn [bind].
    rewrite Htot. cbn [bind]. rewrite Hrc. cbn [bind]. rewrite Hrs. cbn [bind].
    reflexivity. }
  rewrite Hstart. clear Hstart.
  destruct (F.add (F.add taxable cgst) sgst) as [sz|si| |sf mf ef] eqn:Esum;
    try reflexivity.
  - eexists. reflexivity.
  - destruct (F.round_int (S754_finite sf mf ef)) as [k|] eqn:Er;
      [|discriminate Er].
    destruct (RangeFacts.of_Z_round_int _ k Rsum Er) as (f & Hf).
    cbn [bind]. rewrite Hf. cbn [bind]. eexists. reflexivity.
Qed.

Lemma transform_input_on_strings_witness :
  (exists inv,
     transform_input example_runtime Config.COMPANY_CONFIG
       (VDict [("to", VStr "A, B"); ("taxable_amount", VStr "100");
               ("cgst", VStr "9"); ("sgst", VStr "9")]) = Ok inv) /\
  transform_input example_runtime Config.COMPANY_CONFIG
    (VDict [("taxable_amount", VStr "1e999")]) = Raise OverflowError /\
  transform_input example_runtime Config.COMPANY_CONFIG
    (VDict [("cgst", VStr "nan")]) = Raise ValueError.
Proof.
  split; [|split].
  - destruct (transform_input_on_strings example_runtime Config.COMPANY_CONFIG
                [("to", VStr "A, B"); ("taxable_amount", VStr "100");
                 ("cgst", VStr "9"); ("sgst", VStr "9")] [])
      as (t & c & s & Ht & Hc & Hs & H).
    + eexists. reflexivity.
    + reflexivity.
    + intros k [<-|[<-|[<-|[<-|[]]]]]; eexists; reflexivity.
    + vm_compute in Ht, Hc, Hs.
      injection Ht as <-. injection Hc as <-. injection Hs as <-. exact H.
  - destruct (transform_input_on_strings example_runtime Config.COMPANY_CONFIG
                [("taxable_amount", VStr "1e999")] [])
      as (t & c & s & Ht & Hc & Hs & H).
    + eexists. reflexivity.
    + reflexivity.
    + intros k [<-|[<-|[<-|[<-|[]]]]]; eexists; reflexivity.
    + vm_compute in Ht, Hc, Hs.
      injection Ht as <-. injection Hc as <-. injection Hs as <-. exact H.
  - destruct (transform_input_on_strings example_runtime Config.COMPANY_CONFIG
                [("cgst", VStr "nan")] [])
      as (t & c & s & Ht & Hc & Hs & H).
    + eexists. reflexivity.
    + reflexivity.
    + intros k [<-|[<-|[<-|[<-|[]]]]]; eexists; reflexivity.
    + vm_compute in Ht, Hc, Hs.
      injection Ht as <-. injection Hc as <-. injection Hs as <-. exact H.
Defined.

(** ** The handler's answers *)

Lemma filter_nil_all {A : Type} (p : A -> bool) (l : list A) :
  filter p l = [] -> forall x, In x l -> p x = false.
Proof.
  induction l as [|a l IH]; simpl; intros H x Hx; [destruct Hx|].
  destruct (p a) eqn:E; [discriminate H|].
  destruct Hx as [<-|Hx]; [exact E | exact (IH H x Hx)].
Qed.

Lemma generate_invoice_needs_dict (rt : runtime) (v : pyval) (pdf : list Byte.byte) :
  generate_invoice rt v = Ok pdf -> exists d, v = VDict d.
Proof.
  destruct v; try discriminate. eauto.
Qed.

Lemma base64_bound_inv (event : pyval) :
  base64_bound event = true ->
  exists ev b,
    event = VDict ev /\ lookup ev "body" = Some (VStr b) /\
    truthy (get ev "isBase64Encoded" (VBool false)) = true.
Proof.
  unfold base64_bound.
  destruct event as [| | | | |l|ev]; cbn [py_in py_getitem py_get];
    try discriminate.
  - destruct (is_substring "body" s); discriminate.
  - destruct (existsb _ l); discriminate.
  - unfold has_key. destruct (lookup ev "body") as [v|] eqn:El; [|discriminate].
    destruct v as [| | | |b| |]; try discriminate. intros H.
    exists ev, b. repeat split; assumption.
Qed.

(** X13: the handler answers 200, 400 or 500 and nothing else.  It answers
    200 only when the body arrived as a string with isBase64Encoded true,
    the decoded record is a dict holding all six required keys and the
    invoice was generated: the body is then the base64 text of the PDF and
    the file name is invoice_<invoice_no>.pdf.  For a complete record that
    arrived any other way (a body that is an object or plain JSON text, or
    an event without body) the invoice is generated and the answer is the
    500 of an UnboundLocalError: base64 is a local name of the handler, and
    its import ran only in the base64 branch. *)
Theorem lambda_handler_answers (rt : runtime) (event : pyval) :
  (statusCode (lambda_handler rt event) = 200 \/
   statusCode (lambda_handler rt event) = 400 \/
   statusCode (lambda_handler rt event) = 500) /\
  (statusCode (lambda_handler rt event) = 200 ->
   exists ev b d pdf,
     event = VDict ev /\ lookup ev "body" = Some (VStr b) /\
     truthy (get ev "isBase64Encoded" (VBool false)) = true /\
     parse_event rt event = Ok (VDict d) /\
     (forall f, In f required_fields -> has_key d f = true) /\
     generate_invoice rt (VDict d) = Ok pdf /\
     lambda_handler rt event =
       {| statusCode := 200;
          headers :=
            Some [("Content-Type", "application/pdf");
                  ("Content-Disposition",
                   "attachment; filename=invoice_" ++
                   py_str rt (get d "invoice_no" (VStr "unknown")) ++ ".pdf")];
          body := b64encode rt pdf;
          isBase64Encoded := Some true |}) /\
  (forall d pdf,
     base64_bound event = false ->
     parse_event rt event = Ok (VDict d) ->
     (forall f, In f required_fields -> has_key d f = true) ->
     generate_invoice rt (VDict d) = Ok pdf ->
     lambda_handler rt event =
       error_response 500 [("error", "Internal server error");
                           ("details", exn_str rt UnboundLocalError)]).
Proof.
  split; [|split].
  - unfold lambda_handler, handle.
    destruct (parse_event rt event) as [v|e]; cbn [bind];
      [|destruct e; simpl; auto].
    destruct (fields_not_in required_fields v) as [missing|e]; cbn [bind];
      [|destruct e; simpl; auto].
    destruct missing; [|simpl; auto].
    destruct (generate_invoice rt v) as [pdf|e]; cbn [bind];
      [|destruct e; simpl; auto].
    destruct (base64_bound event); cbn [bind]; [|simpl; auto].
    destruct (py_get v "invoice_no" (VStr "unknown")) as [n|e]; cbn [bind];
      [simpl; auto | destruct e; simpl; auto].
  - unfold lambda_handler, handle.
    destruct (parse_event rt event) as [v|e] eqn:Ep; cbn [bind];
      [|destruct e; simpl; discriminate].
    destruct (fields_not_in required_fields v) as [missing|e] eqn:Em; cbn [bind];
      [|destruct e; simpl; discriminate].
    destruct missing as [|f fs]; [|simpl; discriminate].
    destruct (generate_invoice rt v) as [pdf|e] eqn:Eg; cbn [bind];
      [|destruct e; simpl; discriminate].
    destruct (generate_invoice_needs_dict rt v pdf Eg) as (d & ->).
    destruct (base64_bound event) eqn:Eb; cbn [bind]; [|simpl; discriminate].
    destruct (base64_bound_inv event Eb) as (ev & b & Hev & Hb & Hflag).
    cbn [py_get bind]. intros _.
    exists ev, b, d, pdf. repeat split; try assumption.
    intros f Hf.
    assert (Hm : filter (fun f => negb (has_key d f)) required_fields = []).
    { pose proof (fields_not_in_dict required_fields d) as H0. congruence. }
    pose proof (filter_nil_all _ _ Hm f Hf) as H.
    apply negb_false_iff in H. exact H.
  - intros d pdf Hb Hp Hkeys Hg. unfold lambda_handler, handle.
    rewrite Hp. cbn [bind]. rewrite fields_not_in_dict. cbn [bind].
    assert (Hm : filter (fun f => negb (has_key d f)) required_fields = []).
    { unfold required_fields in *.
      cbn [filter]. rewrite !Hkeys by (cbn [In]; tauto). reflexivity. }
    rewrite Hm, Hg. cbn [bind]. rewrite Hb. reflexivity.
Qed.

Lemma lambda_handler_answers_witness :
  (exists d pdf,
     parse_event decoding_runtime
       (VDict [("body", VStr encoded_body); ("isBase64Encoded", VBool true)])
       = Ok (VDict d) /\
     generate_invoice decoding_runtime (VDict d) = Ok pdf) /\
  lambda_handler example_runtime (VDict [("body", basic_invoice (VStr "29972"))])
    = error_response 500 [("error", "Internal server error");
                          ("details", "error")].
Proof.
  split.
  - destruct (proj1 (proj2 (lambda_handler_answers decoding_runtime
                (VDict [("body", VStr encoded_body);
                        ("isBase64Encoded", VBool true)])))
                ltac:(vm_compute; reflexivity))
      as (ev & b & d & pdf & _ & _ & _ & Hp & _ & Hg & _).
    exists d, pdf. split; assumption.
  - apply (proj2 (proj2 (lambda_handler_answers example_runtime
                   (VDict [("body", basic_invoice (VStr "29972"))])))
             (match basic_invoice (VStr "29972") with
              | VDict d => d
              | _ => []
              end) []).
    + reflexivity.
    + reflexivity.
    + intros f [<-|[<-|[<-|[<-|[<-|[<-|[]]]]]]]; reflexivity.
    + vm_compute. reflexivity.
Defined.

Lemma fields_not_in_list (fields : list string) (l : list pyval) :
  fields_not_in fields (VList l)
    = Ok (filter
            (fun f => negb (existsb (fun x => match x with
                                              | VStr t => String.eqb f t
                                              | _ => false
                                              end) l))
            fields).
Proof.
  induction fields as [|f fs IH]; simpl; [reflexivity|].
  rewrite IH. simpl. reflexivity.
Qed.

(** X14: a record that is a JSON array is validated by membership: the
    required names count as present when they occur among its elements.
    Such a record is never rendered: with every name present the answer is
    a 500 for the AttributeError of normalisation, otherwise the 400 that
    lists the names not among the elements. *)
Theorem array_record_is_not_rendered (rt : runtime) (event : pyval) (l : list pyval) :
  parse_event rt event = Ok (VList l) ->
  let missing := filter (fun f => negb (existsb (fun x => match x with
                                                          | VStr t => String.eqb f t
                                                          | _ => false
                                                          end) l))
                        required_fields in
  (missing = [] ->
   lambda_handler rt event
     = error_response 500 [("error", "Internal server error");
                           ("details", exn_str rt AttributeError)]) /\
  (missing <> [] ->
   lambda_handler rt event
     = error_response 400 [("error", missing_fields_message missing)]).
Proof.
  intros Hp missing. unfold lambda_handler, handle.
  rewrite Hp. cbn [bind]. rewrite fields_not_in_list. cbn [bind].
  fold missing. split; intros Hm.
  - rewrite Hm. reflexivity.
  - destruct missing; [congruence | reflexivity].
Qed.

Lemma array_record_is_not_rendered_witness :
  lambda_handler example_runtime
    (VDict [("body", VList [VStr "invoice_no"; VStr "invoice_date"; VStr "to";
                            VStr "items"; VStr "taxable_amount"; VStr "total"])])
  = error_response 500 [("error", "Internal server error"); ("details", "error")].
Proof.
  exact (proj1 (array_record_is_not_rendered example_runtime
                  (VDict [("body", VList [VStr "invoice_no"; VStr "invoice_date";
                                          VStr "to"; VStr "items";
                                          VStr "taxable_amount"; VStr "total"])])
                  [VStr "invoice_no"; VStr "invoice_date"; VStr "to";
                   VStr "items"; VStr "taxable_amount"; VStr "total"]
                  eq_refl) eq_refl).
Defined.

(** ** The items table *)

Module TableFacts.

Lemma item_rows_length (rt : runtime) (items : list Item) (idx : Z) :
  List.length (item_rows rt idx items) = List.length items.
Proof.
  revert idx. induction items as [|it rest IH]; intros idx; simpl;
    [reflexivity | now rewrite IH].
Qed.

Lemma item_rows_nth (rt : runtime) (items : list Item) (idx : Z) (i : nat) (item : Item) :
  nth_error items i = Some item ->
  nth_error (item_rows rt idx items) i = Some (item_row rt (idx + Z.of_nat i) item).
Proof.
  revert idx i. induction items as [|it rest IH]; intros idx i H.
  - destruct i; discriminate H.
  - destruct i as [|i]; simpl in H |- *.
    + injection H as ->. now rewrite Z.add_0_r.
    + rewrite (IH (idx + 1) i H). do 2 f_equal. lia.
Qed.

Lemma item_rows_width (rt : runtime) (items : list Item) (idx : Z) :
  Forall (fun r => List.length r = 6%nat) (item_rows rt idx items).
Proof.
  revert idx. induction items as [|it rest IH]; intros idx; simpl;
    constructor; [reflexivity | apply IH].
Qed.

Lemma map_seq_nth {A : Type} (f : nat -> A) (n s k : nat) :
  (k < n)%nat -> nth_error (map f (seq s n)) k = Some (f (s + k)%nat).
Proof.
  revert s k. induction n as [|n IH]; intros s k Hk; [lia|].
  destruct k as [|k]; simpl.
  - now rewrite Nat.add_0_r.
  - rewrite IH by lia. do 2 f_equal. lia.
Qed.

Lemma py_range_length (a b : Z) : List.length (py_range a b) = Z.to_nat (b - a).
Proof.
  unfold py_range. now rewrite length_map, length_seq.
Qed.

Lemma py_range_nth (a b : Z) (k : nat) :
  (k < Z.to_nat (b - a))%nat -> nth_error (py_range a b) k = Some (a + Z.of_nat k).
Proof.
  intros Hk. unfold py_range. rewrite map_seq_nth by exact Hk. reflexivity.
Qed.

(** Row [i] of the table, for [i] past the items. *)
Lemma filler_nth (rt : runtime) (items : list Item) (i : nat) :
  (List.length items < i < 13)%nat ->
  nth_error (items_table_data rt items) i
    = Some (filler_row (Z.of_nat i) (MAX_ITEMS_ROWS + 1)).
Proof.
  intros Hi. unfold items_table_data.
  rewrite nth_error_app2
    by (cbn [List.length]; rewrite item_rows_length; lia).
  cbn [List.length]. rewrite item_rows_length.
  rewrite nth_error_map, py_range_nth
    by (unfold MAX_ITEMS_ROWS; lia).
  cbn [option_map]. do 2 f_equal. lia.
Qed.

(** Row [i + 1] of the table is the row of item [i]. *)
Lemma item_nth (rt : runtime) (items : list Item) (i : nat) (item : Item) :
  nth_error items i = Some item ->
  nth_error (items_table_data rt items) (S i)
    = Some (item_row rt (Z.of_nat i + 1) item).
Proof.
  intros H. unfold items_table_data.
  assert (Hi : (i < List.length items)%nat) by (apply nth_error_Some; congruence).
  rewrite nth_error_app1
    by (cbn [List.length]; rewrite item_rows_length; lia).
  cbn [nth_error]. rewrite (item_rows_nth rt items 1 i item H).
  do 2 f_equal. lia.
Qed.

Lemma table_length (rt : runtime) (items : list Item) :
  Z.of_nat (List.length (items_table_data rt items))
    = Z.max 13 (Z.of_nat (List.length items) + 1).
Proof.
  unfold items_table_data.
  rewrite length_app, length_map, py_range_length.
  cbn [List.length]. rewrite item_rows_length. unfold MAX_ITEMS_ROWS. lia.
Qed.

End TableFacts.

(** X15: the items table has one header row and then max(12, n) rows for n
    items, each of six cells, and its rows are numbered 1, 2, 3, ... in
    their first cell without a gap, item rows and filler rows alike. *)
Theorem items_table_shape (rt : runtime) (items : list Item) :
  let rows := items_table_data rt items in
  Z.of_nat (List.length rows) = Z.max 13 (Z.of_nat (List.length items) + 1) /\
  Forall (fun r => List.length r = 6%nat) rows /\
  nth_error rows 0 = Some items_header /\
  forall i, (1 <= i < List.length rows)%nat ->
    exists rest, nth_error rows i = Some (VStr (string_of_Z (Z.of_nat i)) :: rest).
Proof.
  intros rows. pose proof (TableFacts.table_length rt items) as Hlen.
  fold rows in Hlen. split; [exact Hlen|]. split; [|split; [reflexivity|]].
  - unfold rows, items_table_data. apply Forall_app. split.
    + constructor; [reflexivity | apply TableFacts.item_rows_width].
    + apply Forall_forall. intros r Hr. apply in_map_iff in Hr.
      destruct Hr as (i & <- & _). unfold filler_row.
      destruct (i =? _); reflexivity.
  - intros i Hi. destruct (le_lt_dec i (List.length items)) as [Hle|Hgt].
    + destruct i as [|i]; [lia|].
      destruct (nth_error items i) as [item|] eqn:E;
        [|apply nth_error_None in E; lia].
      unfold rows. rewrite (TableFacts.item_nth rt items i item E).
      unfold item_row. replace (Z.of_nat i + 1) with (Z.of_nat (S i)) by lia.
      eexists. reflexivity.
    + unfold rows. rewrite TableFacts.filler_nth by lia.
      unfold filler_row. destruct (Z.of_nat i =? _); eexists; reflexivity.
Qed.

Lemma items_table_shape_witness :
  exists rest,
    nth_error (items_table_data example_runtime []) 12
      = Some (VStr "12" :: rest).
Proof.
  apply (proj2 (proj2 (proj2 (items_table_shape example_runtime []))) 12%nat).
  simpl. lia.
Defined.

(** X16: item i of the record fills row i of the table.  With at most 11
    items the rows after them are blank but for their number, and row 12
    is labelled 'Extra Item Total Amount'; with 12 items or more the table
    holds the header and the item rows only, so that label is not added. *)
Theorem items_table_rows (rt : runtime) (items : list Item) :
  let rows := items_table_data rt items in
  let blank := VStr EmptyString in
  (forall i item, nth_error items i = Some item ->
     nth_error rows (S i) = Some (item_row rt (Z.of_nat i + 1) item)) /\
  ((List.length items <= 11)%nat ->
     nth_error rows 12
       = Some [VStr "12"; VStr "Extra Item Total Amount"; blank; blank; blank; blank] /\
     forall i, (List.length items < i < 12)%nat ->
       nth_error rows i
         = Some [VStr (string_of_Z (Z.of_nat i)); blank; blank; blank; blank; blank]) /\
  ((12 <= List.length items)%nat -> rows = items_header :: item_rows rt 1 items).
Proof.
  intros rows blank. split; [|split].
  - intros i item H. apply TableFacts.item_nth. exact H.
  - intros Hn. split.
    + unfold rows. rewrite TableFacts.filler_nth by lia. reflexivity.
    + intros i Hi. unfold rows. rewrite TableFacts.filler_nth by lia.
      unfold filler_row, MAX_ITEMS_ROWS.
      destruct (Z.of_nat i =? 12 + 1 - 1) eqn:E; [apply Z.eqb_eq in E; lia|].
      reflexivity.
  - intros Hn. unfold rows, items_table_data, py_range.
    cbn [List.length]. rewrite TableFacts.item_rows_length.
    replace (Z.to_nat (MAX_ITEMS_ROWS + 1 - Z.of_nat (S (List.length items)))) with 0%nat
      by (unfold MAX_ITEMS_ROWS; lia).
    cbn [seq map]. apply app_nil_r.
Qed.

Lemma items_table_rows_witness :
  nth_error (items_table_data example_runtime []) 12
    = Some [VStr "12"; VStr "Extra Item Total Amount"; VStr EmptyString;
            VStr EmptyString; VStr EmptyString; VStr EmptyString].
Proof.
  exact (proj1 (proj1 (proj2 (items_table_rows example_runtime []))
                  ltac:(simpl; lia))).
Defined.

(** ** The footer and the amount in words *)

Module FooterFacts.

Lemma has_char_app (c : ascii) (a b : string) :
  has_char c (a ++ b) = has_char c a || has_char c b.
Proof.
  induction a as [|x a IH]; simpl; [reflexivity|].
  rewrite IH. apply orb_assoc.
Qed.

Lemma digit_not_minus (c : ascii) : is_digit c = true -> Ascii.eqb c "-" = false.
Proof.
  intros H. destruct (Ascii.eqb c "-") eqn:E; [|reflexivity].
  apply Ascii.eqb_eq in E. subst c. discriminate H.
Qed.

Lemma all_digits_no_minus (s : string) :
  all_digits s = true -> has_char "-" s = false.
Proof.
  induction s as [|c s IH]; simpl; [reflexivity|].
  intros H. apply andb_true_iff in H. destruct H as [Hc Hs].
  rewrite (digit_not_minus c Hc), (IH Hs). reflexivity.
Qed.

Lemma string_of_Z_no_minus (n : Z) : 0 <= n -> has_char "-" (string_of_Z n) = false.
Proof.
  intros Hn. destruct (string_of_Z_shape n) as (sign & ip & -> & _ & Hs & _ & Hd).
  rewrite (proj2 Hs Hn). simpl. apply all_digits_no_minus. exact Hd.
Qed.

Lemma format_fixed_abs_no_minus (x : F.float) :
  has_char "-" (format_fixed (F.abs x) 2) = false.
Proof.
  assert (Hr : forall k, 0 <= k ->
    has_char "-" (EmptyString ++ string_of_Z (k / 10 ^ Z.of_nat 2) ++
                  String "." (fraction_digits 2 (k mod 10 ^ Z.of_nat 2))) = false).
  { intros k Hk. rewrite !has_char_app.
    rewrite string_of_Z_no_minus by (apply Z.div_pos; lia).
    cbn [fraction_digits]. cbn [has_char String.append orb].
    rewrite ?has_char_app. cbn [has_char].
    change (Ascii.eqb "." "-") with false.
    rewrite !digit_not_minus
      by (apply is_digit_digit_char;
          match goal with
          | |- 0 <= ?a mod 10 <= 9 => pose proof (Z.mod_pos_bound a 10); lia
          end).
    reflexivity. }
  destruct x as [s|s| |s m e]; try reflexivity.
  unfold F.abs, SFabs, format_fixed.
  apply Hr. apply scaled_half_even_nonneg. lia.
Qed.

(** The round-off cell is produced for an empty string and for a float. *)
Lemma round_off_text_total (v : pyval) :
  (v = VStr EmptyString \/ exists x, v = VFloat x) ->
  exists r, round_off_text v = Ok r.
Proof.
  intros [->|(x & ->)]; unfold round_off_text; cbn.
  - eexists; reflexivity.
  - destruct (F.is_zero x); eexists; reflexivity.
Qed.

Lemma round_off_text_no_minus (v : pyval) (r : string) :
  round_off_text v = Ok r -> has_char "-" r = false.
Proof.
  unfold round_off_text.
  destruct (truthy v && negb (is_empty_str v)).
  - destruct (py_float v) as [x|e]; cbn [bind]; [|discriminate].
    intros H. injection H as <-. apply format_fixed_abs_no_minus.
  - intros H. injection H as <-. reflexivity.
Qed.

Lemma trunc_finite (x : F.float) : F.is_finite x -> exists n, F.trunc x = Ok n.
Proof.
  destruct x; simpl; intros H; try destruct H; eexists; reflexivity.
Qed.

(** The cell of a tax amount: blank for zero, else as [format_amount]. *)
Lemma amount_cell (x : F.float) :
  F.is_finite x ->
  exists a c,
    float_or_zero (VFloat x) = Ok a /\ amount_text a = Ok c /\
    (if F.is_zero x then c = EmptyString else format_amount (Float x) = Ok c).
Proof.
  intros Hx. unfold float_or_zero. cbn [truthy py_float bind].
  destruct (F.is_zero x) eqn:Ez; cbn [negb].
  - exists (Int 0), EmptyString. repeat split.
  - exists (Float x). unfold amount_text, format_amount.
    cbn [number_truthy number_fraction number_fixed number_int].
    rewrite Ez. cbn [negb andb].
    destruct (negb (F.eqb (F.mod_one x) F.zero)).
    + eexists. repeat split.
    + destruct (trunc_finite x Hx) as (n & ->). cbn [bind].
      eexists. repeat split.
Qed.

(** The label of a tax row: produced for the default rate and for a float. *)
Lemma rate_cell (v : pyval) :
  (v = VInt 9 \/ exists x, v = VFloat x) ->
  exists r d,
    float_or_zero v = Ok r /\ rate_text r = Ok d /\ (v = VInt 9 -> d = "9%").
Proof.
  intros [->|(x & ->)].
  - exists (Float (F.nearest_Z 9)), "9%". repeat split.
  - unfold float_or_zero. cbn [truthy py_float bind].
    destruct (F.is_zero x) eqn:Ez; cbn [negb].
    + exists (Int 0), EmptyString. repeat split. discriminate.
    + exists (Float x). unfold rate_text. cbn [number_truthy number_fixed].
      rewrite Ez. cbn [negb bind]. eexists. repeat split. discriminate.
Qed.

Lemma calculate_tax_rate_value (a t : F.float) (d r : pyval) :
  calculate_tax_rate a t d = Ok r -> r = d \/ exists x, r = VFloat x.
Proof.
  unfold calculate_tax_rate.
  destruct (F.ltb F.zero t && F.ltb F.zero a).
  - destruct (truediv a t) as [q|e]; cbn [bind]; [|discriminate].
    intros H. injection H as <-. right. eexists. reflexivity.
  - intros H. injection H as <-. left. reflexivity.
Qed.

Lemma positive_total (x : F.float) :
  F.ltb F.zero x = true ->
  x = S754_infinity false \/ exists n, F.trunc x = Ok n.
Proof.
  destruct x as [s|s| |s m e]; try discriminate.
  - destruct s; [discriminate | left; reflexivity].
  - intros _. right. eexists. reflexivity.
Qed.

Section Rows.

Variable int_of_str : string -> result Z.

Lemma footer_rows (tax : TaxSummary) :
  F.is_finite (taxable_amount tax) ->
  F.is_finite (cgst_amount tax) ->
  F.is_finite (sgst_amount tax) ->
  (cgst_rate tax = VInt 9 \/ exists x, cgst_rate tax = VFloat x) ->
  (sgst_rate tax = VInt 9 \/ exists x, sgst_rate tax = VFloat x) ->
  truthy (igst_rate tax) = false ->
  (round_off tax = VStr EmptyString \/ exists x, round_off tax = VFloat x) ->
  exists t cl c sl s r,
    F.trunc (taxable_amount tax) = Ok t /\
    (if F.is_zero (cgst_amount tax) then c = EmptyString
     else format_amount (Float (cgst_amount tax)) = Ok c) /\
    (if F.is_zero (sgst_amount tax) then s = EmptyString
     else format_amount (Float (sgst_amount tax)) = Ok s) /\
    (cgst_rate tax = VInt 9 -> cl = "CGST (9%)") /\
    (sgst_rate tax = VInt 9 -> sl = "SGST (9%)") /\
    has_char "-" r = false /\
    footer_tax_data int_of_str tax
      = (total <- py_int int_of_str (invoice_total tax) ;;
         Ok [("TAXABLE AMOUNT", string_of_Z t); (cl, c); (sl, s);
             ("IGST", EmptyString); ("Round off", r);
             ("Invoice Total", string_of_Z total)]).
Proof.
  intros Ht Hc Hs Hcr Hsr Hi Hro.
  destruct (trunc_finite _ Ht) as (t & Et).
  destruct (amount_cell _ Hc) as (ca & c & Eca & Ec & Pc).
  destruct (amount_cell _ Hs) as (sa & s & Esa & Es & Ps).
  destruct (rate_cell _ Hcr) as (cr & cd & Ecr & Ecd & Pcd).
  destruct (rate_cell _ Hsr) as (sr & sd & Esr & Esd & Psd).
  destruct (round_off_text_total _ Hro) as (r & Er).
  exists t, (tax_label "CGST" cd), c, (tax_label "SGST" sd), s, r.
  split; [exact Et|]. split; [exact Pc|]. split; [exact Ps|].
  split; [intros H; rewrite (Pcd H); reflexivity|].
  split; [intros H; rewrite (Psd H); reflexivity|].
  split; [exact (round_off_text_no_minus _ _ Er)|].
  unfold footer_tax_data.
  rewrite Ecr; cbn [bind]. rewrite Esr; cbn [bind].
  rewrite Hi; cbn [andb bind].
  rewrite Eca; cbn [bind]. rewrite Esa; cbn [bind].
  change (float_or_zero VNone) with (Ok (Int 0)); cbn [bind].
  rewrite Ec; cbn [bind]. rewrite Es; cbn [bind].
  change (amount_text (Int 0)) with (Ok EmptyString); cbn [bind].
  rewrite Ecd; cbn [bind]. rewrite Esd; cbn [bind].
  change (rate_text (Int 0)) with (Ok EmptyString); cbn [bind].
  rewrite Er; cbn [bind]. rewrite Et; cbn [bind].
  reflexivity.
Qed.

End Rows.

End FooterFacts.

(** X17: on a record built by _transform_input that carries no IGST rate,
    the tax rows of the footer are produced unless the total is an infinity,
    for which int() raises OverflowError.  The rows are TAXABLE AMOUNT, CGST,
    SGST, IGST, Round off and Invoice Total, in this order; the taxable
    amount and the total are shown truncated to integers; a tax amount of
    zero leaves its cell blank and any other is shown as format_amount
    shows it; a default rate is labelled 9%; the IGST cell is blank and the
    round-off cell has no minus sign. *)
Theorem footer_on_normalised (int_of_str : string -> result Z) (rt : runtime)
    (cfg data : pyval) (inv : Invoice) :
  transform_input rt cfg data = Ok inv ->
  truthy (igst_rate (tax_summary inv)) = false ->
  let tax := tax_summary inv in
  match py_int int_of_str (invoice_total tax) with
  | Ok n =>
      exists t cl c sl s r,
        footer_tax_data int_of_str tax
          = Ok [("TAXABLE AMOUNT", string_of_Z t); (cl, c); (sl, s);
                ("IGST", EmptyString); ("Round off", r);
                ("Invoice Total", string_of_Z n)] /\
        F.trunc (taxable_amount tax) = Ok t /\
        (if F.is_zero (cgst_amount tax) then c = EmptyString
         else format_amount (Float (cgst_amount tax)) = Ok c) /\
        (if F.is_zero (sgst_amount tax) then s = EmptyString
         else format_amount (Float (sgst_amount tax)) = Ok s) /\
        (cgst_rate tax = Config.DEFAULT_CGST_RATE -> cl = "CGST (9%)") /\
        (sgst_rate tax = Config.DEFAULT_SGST_RATE -> sl = "SGST (9%)") /\
        has_char "-" r = false
  | Raise e =>
      invoice_total tax = VFloat (S754_infinity false) /\
      footer_tax_data int_of_str tax = Raise OverflowError
  end.
Proof.
  intros H Hi tax.
  assert (Hfacts :
    F.is_finite (taxable_amount tax) /\ F.is_finite (cgst_amount tax) /\
    F.is_finite (sgst_amount tax) /\
    (cgst_rate tax = VInt 9 \/ exists x, cgst_rate tax = VFloat x) /\
    (sgst_rate tax = VInt 9 \/ exists x, sgst_rate tax = VFloat x) /\
    (round_off tax = VStr EmptyString \/ exists x, round_off tax = VFloat x) /\
    ((exists n, invoice_total tax = VInt n) \/
     exists x, invoice_total tax = VFloat x /\ F.ltb F.zero x = true)).
  { clear Hi. subst tax. unfold transform_input in H.
    bind_inv H. bind_inv H. destruct a0 as [customer_name customer_address].
    do 16 bind_inv H. injection H as <-. simpl.
    match goal with
    | Hr : F.round_int (F.add (F.add ?t ?c) ?s) = Ok _ |- _ =>
        pose proof (FloatFacts.round_int_finite _ _ Hr) as Hfin
    end.
    apply NormaliserFacts.add_finite_inv in Hfin. destruct Hfin as [Htc Hs].
    apply NormaliserFacts.add_finite_inv in Htc. destruct Htc as [Ht Hc].
    repeat match goal with
    | Hr : calculate_tax_rate _ _ _ = Ok _ |- _ =>
        apply FooterFacts.calculate_tax_rate_value in Hr
    end.
    repeat split; try assumption.
    - match goal with |- context [F.ltb cent ?m] => destruct (F.ltb cent m) end;
        [right; eexists; reflexivity | left; reflexivity].
    - match goal with |- context [F.ltb F.zero ?m] =>
        destruct (F.ltb F.zero m) eqn:Epos end;
        [right; eexists; split; [reflexivity | exact Epos]
        | left; eexists; reflexivity]. }
  destruct Hfacts as (Ht & Hc & Hs & Hcr & Hsr & Hro & Htot).
  destruct (FooterFacts.footer_rows int_of_str tax Ht Hc Hs Hcr Hsr Hi Hro)
    as (t & cl & c & sl & s & r & Et & Pc & Ps & Pcl & Psl & Pr & Ef).
  destruct Htot as [(n & En)|(x & Ex & Hx)].
  - rewrite En in *. cbn [py_int bind] in *.
    exists t, cl, c, sl, s, r. repeat split; assumption.
  - rewrite Ex in *. cbn [py_int] in *.
    destruct (FooterFacts.positive_total x Hx) as [->|(n & En)].
    + cbn [F.trunc bind] in *. split; [reflexivity | exact Ef].
    + rewrite En in *. cbn [bind] in Ef.
      exists t, cl, c, sl, s, r. repeat split; assumption.
Qed.

Lemma footer_on_normalised_witness :
  exists inv,
    transform_input example_runtime Config.COMPANY_CONFIG decimal_invoice = Ok inv /\
    exists rows,
      footer_tax_data (fun _ => Raise ValueError) (tax_summary inv) = Ok rows.
Proof.
  destruct (transform_input example_runtime Config.COMPANY_CONFIG decimal_invoice)
    as [inv|e] eqn:E; [|vm_compute in E; discriminate E].
  exists inv. split; [reflexivity|].
  assert (Hi : truthy (igst_rate (tax_summary inv)) = false).
  { vm_compute in E. injection E as <-. reflexivity. }
  pose proof (footer_on_normalised (fun _ => Raise ValueError) _ _ _ inv E Hi) as H.
  cbv zeta in H.
  destruct (py_int (fun _ => Raise ValueError) (invoice_total (tax_summary inv)))
    as [n|e] eqn:Ep.
  - destruct H as (t & cl & c & sl & s & r & Hf & _). eexists. exact Hf.
  - exfalso. vm_compute in E. injection E as <-. vm_compute in Ep. discriminate Ep.
Defined.

(** X18: whenever the tax rows of the footer are produced, their last row
    is Invoice Total with the total truncated to an integer n.  For n from 0
    to 9,999,999,999 the digits of that cell and the phrase of the 'In
    Words' row denote the same number n; from 10,000,000,000 on the footer
    is still produced but the words row raises IndexError. *)
Theorem total_cell_and_words (int_of_str : string -> result Z)
    (tax : TaxSummary) (rows : list (string * string)) :
  footer_tax_data int_of_str tax = Ok rows ->
  exists n,
    py_int int_of_str (invoice_total tax) = Ok n /\
    nth_error rows 5 = Some ("Invoice Total", string_of_Z n) /\
    (0 <= n <= 9999999999 ->
       FloatParse.Z_of_digits 0 (string_of_Z n) = n /\
       exists w, amount_in_words int_of_str tax = Ok (w ++ " only.") /\
                 WordsRef.words_to_number w = Some n) /\
    (10000000000 <= n -> amount_in_words int_of_str tax = Raise IndexError).
Proof.
  intros H. unfold footer_tax_data in H. cbv zeta in H.
  do 15 bind_inv H. injection H as <-.
  match goal with
  | Hn : py_int _ _ = Ok ?n |- _ => exists n; split; [exact Hn|]; rename Hn into Hint
  end.
  split; [reflexivity|]. unfold amount_in_words. rewrite Hint. cbn [bind].
  split.
  - intros Hn. split; [apply string_of_Z_value; lia|].
    destruct (WordsDomain.number_to_words_reads_back _ Hn) as (w & Hw & Hb).
    rewrite Hw. cbn [bind]. exists w. split; [reflexivity | exact Hb].
  - intros Hn. rewrite (WordsDomain.number_to_words_too_large _ Hn). reflexivity.
Qed.

Lemma total_cell_and_words_witness :
  exists w,
    amount_in_words (fun _ => Raise ValueError)
      {| taxable_amount := F.nearest_Z 25400;
         cgst_rate := VInt 9; cgst_amount := F.nearest_Z 2286;
         sgst_rate := VInt 9; sgst_amount := F.nearest_Z 2286;
         igst_rate := VStr EmptyString; round_off := VStr EmptyString;
         invoice_total := VInt 29972 |}
    = Ok (w ++ " only.") /\
    WordsRef.words_to_number w = Some 29972.
Proof.
  set (tax := {| taxable_amount := F.nearest_Z 25400;
                 cgst_rate := VInt 9; cgst_amount := F.nearest_Z 2286;
                 sgst_rate := VInt 9; sgst_amount := F.nearest_Z 2286;
                 igst_rate := VStr EmptyString; round_off := VStr EmptyString;
                 invoice_total := VInt 29972 |}).
  destruct (footer_tax_data (fun _ => Raise ValueError) tax) as [rows|e] eqn:E;
    [|vm_compute in E; discriminate E].
  destruct (total_cell_and_words _ tax rows E) as (n & Hn & _ & Hin & _).
  injection Hn as <-.
  exact (proj2 (Hin ltac:(lia))).
Defined.
